(** * Translator tester: test cases, record normalisation and the runner

    A shallow embedding of [testTranslators/test.mjs] (class [Test],
    [sanitizeItem], [deepEqual]), of [testTranslators/diff.mjs] and of the
    translator tester ([TranslatorTester.run], [_translateWeb],
    [_translateImportOrSearch], [HTTPWebTranslationEnvironment]), followed
    by the properties of the test-execution engine.

    Conventions of the embedding.
    - A JavaScript value is a tree ([value]).  Numbers are the integers that
      occur in test fixtures; functions, cyclic objects, NaN and arrays
      with holes are outside the type.  An object is the list of its own
      enumerable properties in enumeration order; a well-formed object has
      each key once ([wf]).  Field names are not array indices, so a new
      property is enumerated last.
    - A method is looked up on the object it is called on: an own property
      named [hasOwnProperty] hides the inherited method ([unshadowed] is
      the absence of such a property).
    - A computation that may throw returns a [completion]; an [async]
      function that rejects is a [Throw].
    - Code that lives outside these files (the item-type and item-field
      registry, [_cleanTags], [trimInternal], the page environment and the
      translation engine) is a parameter: a record of functions ([Zotero])
      or a record of what the collaborator did in one run ([WebRun],
      [DirectRun]). *)

From Stdlib Require Import List String Ascii ZArith Bool Lia DecimalString.
From Stdlib Require Import Permutation OrderedTypeEx.
Import ListNotations.
Open Scope string_scope.

(** ** JavaScript values *)

Unset Elimination Schemes.
Inductive value : Type :=
| VUndef
| VNull
| VBool (b : bool)
| VNum (n : Z)
| VStr (s : string)
| VArr (l : list value)
| VObj (fields : list (string * value)).
Set Elimination Schemes.

(** An object: own enumerable properties, in enumeration order. *)
Definition obj : Type := list (string * value).

(** Induction over values that reaches the elements of arrays and the
    property values of objects. *)
Fixpoint value_ind (P : value -> Prop)
    (Hundef : P VUndef) (Hnull : P VNull)
    (Hbool : forall b, P (VBool b)) (Hnum : forall n, P (VNum n))
    (Hstr : forall s, P (VStr s))
    (Harr : forall l, Forall P l -> P (VArr l))
    (Hobj : forall o, Forall (fun kv => P (snd kv)) o -> P (VObj o))
    (v : value) {struct v} : P v :=
  let rec := value_ind P Hundef Hnull Hbool Hnum Hstr Harr Hobj in
  match v with
  | VUndef => Hundef
  | VNull => Hnull
  | VBool b => Hbool b
  | VNum n => Hnum n
  | VStr s => Hstr s
  | VArr l =>
      Harr l (list_ind (Forall P) (Forall_nil P)
                (fun x _ IH => Forall_cons x (rec x) IH) l)
  | VObj o =>
      Hobj o (list_ind (Forall (fun kv => P (snd kv)))
                (Forall_nil _)
                (fun kv _ IH => Forall_cons kv (rec (snd kv)) IH) o)
  end.

(** [!!v] *)
Definition truthy (v : value) : bool :=
  match v with
  | VUndef | VNull => false
  | VBool b => b
  | VNum n => negb (n =? 0)%Z
  | VStr s => negb (s =? "")
  | VArr _ | VObj _ => true
  end.

(** [typeof v] *)
Definition typeof (v : value) : string :=
  match v with
  | VUndef => "undefined"
  | VBool _ => "boolean"
  | VNum _ => "number"
  | VStr _ => "string"
  | VNull | VArr _ | VObj _ => "object"
  end.

(** [Array.isArray(v)] *)
Definition isArray (v : value) : bool :=
  match v with VArr _ => true | _ => false end.

(** [a === b] when at least one side is a primitive.  Two objects are
    strictly equal only when they are the same reference, which a tree does
    not record; every use of [===] in the embedded code has a primitive on
    one side. *)
Definition strict_eq (a b : value) : bool :=
  match a, b with
  | VUndef, VUndef => true
  | VNull, VNull => true
  | VBool x, VBool y => Bool.eqb x y
  | VNum x, VNum y => (x =? y)%Z
  | VStr x, VStr y => (x =? y)
  | _, _ => false
  end.

(** [a ?? b] *)
Definition nullish (a b : value) : value :=
  match a with VUndef | VNull => b | _ => a end.

(** Decimal rendering of array indices and numbers.  [String(n)] and
    [JSON.stringify(n)] write an integer with all its digits as long as its
    magnitude is below 10^21 and in exponent form from there on;
    [string_of_Z] is their result below that bound ([printable]). *)
Definition string_of_nat (n : nat) : string :=
  NilEmpty.string_of_uint (Nat.to_uint n).

Definition string_of_Z (n : Z) : string :=
  NilZero.string_of_int (Z.to_int n).

(** [String(v)], as a template literal renders it. *)
Fixpoint display (v : value) : string :=
  match v with
  | VUndef => "undefined"
  | VNull => "null"
  | VBool true => "true"
  | VBool false => "false"
  | VNum n => string_of_Z n
  | VStr s => s
  | VArr l =>
      String.concat ","
        (map (fun x => match x with
                       | VUndef | VNull => ""
                       | _ => display x
                       end) l)
  | VObj _ => "[object Object]"
  end.

(** *** Own properties *)

(** [o[k]] on an object: the property's value, [undefined] when absent. *)
Fixpoint get (k : string) (o : obj) : value :=
  match o with
  | [] => VUndef
  | (k', v) :: o' => if k =? k' then v else get k o'
  end.

(** [o.hasOwnProperty(k)] *)
Fixpoint has_key (k : string) (o : obj) : bool :=
  match o with
  | [] => false
  | (k', _) :: o' => if k =? k' then true else has_key k o'
  end.

(** [delete o[k]] *)
Fixpoint delete (k : string) (o : obj) : obj :=
  match o with
  | [] => []
  | (k', v) :: o' => if k =? k' then delete k o' else (k', v) :: delete k o'
  end.

(** [o[k] = v]: an existing property keeps its place, a new one is added
    last. *)
Fixpoint set (k : string) (v : value) (o : obj) : obj :=
  match o with
  | [] => [(k, v)]
  | (k', v') :: o' => if k =? k' then (k', v) :: o' else (k', v') :: set k v o'
  end.

Definition keys (o : obj) : list string := map fst o.

(** Each key occurs once, here and in every object below. *)
Fixpoint wf (v : value) : Prop :=
  match v with
  | VArr l => (fix all (l : list value) : Prop :=
                 match l with [] => True | x :: l' => wf x /\ all l' end) l
  | VObj o => NoDup (map fst o) /\
              (fix all (o : obj) : Prop :=
                 match o with [] => True | kv :: o' => wf (snd kv) /\ all o' end) o
  | _ => True
  end.

(** The same, as a test that can be run. *)
Fixpoint distinct (l : list string) : bool :=
  match l with
  | [] => true
  | k :: l' => negb (existsb (String.eqb k) l') && distinct l'
  end.

Fixpoint wfb (v : value) : bool :=
  match v with
  | VArr l => forallb wfb l
  | VObj o => distinct (map fst o) && forallb (fun kv => wfb (snd kv)) o
  | _ => true
  end.

(** The index a key denotes in a sequence of [n] elements. *)
Definition index_of_key (k : string) (n : nat) : option nat :=
  find (fun i => k =? string_of_nat i) (seq 0 n).

(** The code units of a string, as one-character strings. *)
Fixpoint chars (s : string) : list string :=
  match s with
  | EmptyString => []
  | String c s' => String c EmptyString :: chars s'
  end.

(** ** Completions *)

(** A thrown [Error]: its [name] and [message].  [Unmodelled] is not a
    JavaScript exception: it marks a run whose result is a value that
    [value] does not hold (an array with holes); no statement about what
    the code throws applies to it. *)
Inductive exn : Type :=
| JsError (name message : string)
| Unmodelled (what : string).

Definition Error (message : string) : exn := JsError "Error" message.
Definition TypeError (message : string) : exn := JsError "TypeError" message.

(** [String(e)], that is [Error.prototype.toString]. *)
Definition String_exn (e : exn) : string :=
  match e with
  | JsError name message =>
      if name =? "" then message
      else if message =? "" then name
      else name ++ ": " ++ message
  | Unmodelled what => what
  end.

Inductive completion (A : Type) : Type :=
| Return (a : A)
| Throw (e : exn).
Arguments Return {A} a.
Arguments Throw {A} e.

Definition bind {A B : Type} (c : completion A) (k : A -> completion B)
  : completion B :=
  match c with
  | Return a => k a
  | Throw e => Throw e
  end.

Declare Scope completion_scope.
Delimit Scope completion_scope with completion.
Notation "x <- c ;; k" := (bind c (fun x => k))
  (at level 61, c at next level, right associativity) : completion_scope.
Notation "c ;;; k" := (bind c (fun _ => k))
  (at level 61, right associativity) : completion_scope.
Open Scope completion_scope.

(** [try { c } finally { f }] *)
Definition try_finally {A : Type} (c : completion A) (f : completion unit)
  : completion A :=
  match f with
  | Return _ => c
  | Throw e => Throw e
  end.

(** [l.map(f)] for an [f] that may throw. *)
Fixpoint mapM {A B : Type} (f : A -> completion B) (l : list A)
  : completion (list B) :=
  match l with
  | [] => Return []
  | x :: l' => y <- f x ;; ys <- mapM f l' ;; Return (y :: ys)
  end.

(** ** The platform the tester runs on

    [Zotero.Utilities.trimInternal], the item-type and item-field registry
    and [Zotero.Translate.Base.prototype._cleanTags] are not part of the
    embedded files.  An identifier that JavaScript would test for falsity
    is an [option]: [None] is a falsy answer. *)
Record Zotero : Type := {
  Utilities_trimInternal : string -> string;
  ItemTypes_getID : value -> option nat;
  ItemFields_getID : string -> option nat;
  ItemFields_getFieldIDFromTypeAndBase : option nat -> nat -> option nat;
  ItemFields_getName : nat -> string;
  ItemFields_isValidForType : nat -> option nat -> bool;
  Translate_cleanTags : list value -> list obj
}.

(** ** JSON round trip *)

(** [JSON.parse(JSON.stringify(v))] below the top level: a property whose
    value is [undefined] is dropped, an [undefined] array element becomes
    [null]. *)
Fixpoint json (v : value) : value :=
  match v with
  | VArr l =>
      VArr (map (fun x => match x with VUndef => VNull | _ => json x end) l)
  | VObj o =>
      VObj ((fix props (o : obj) : obj :=
               match o with
               | [] => []
               | (k, x) :: o' =>
                   match x with
                   | VUndef => props o'
                   | _ => (k, json x) :: props o'
                   end
               end) o)
  | _ => v
  end.

Definition json_elem (x : value) : value :=
  match x with VUndef => VNull | _ => json x end.

Fixpoint json_obj (o : obj) : obj :=
  match o with
  | [] => []
  | (k, x) :: o' =>
      match x with
      | VUndef => json_obj o'
      | _ => (k, json x) :: json_obj o'
      end
  end.

(** ** Structural equality: [deepEqual] *)

(** [b.hasOwnProperty(key)], where [name] is the variable that holds [b].
    A property read on [undefined] or [null] throws.  The method is looked
    up on [b] itself: an object with an own property named
    [hasOwnProperty] hides the inherited method, and what it holds there
    is not a function, so the call throws. *)
Definition hasOwnProperty (name : string) (b : value) (key : string)
  : completion bool :=
  match b with
  | VUndef | VNull =>
      Throw (TypeError "Cannot read properties of undefined (reading 'hasOwnProperty')")
  | VBool _ | VNum _ => Return false
  | VStr s =>
      Return ((key =? "length")
              || match index_of_key key (String.length s) with
                 | Some _ => true
                 | None => false
                 end)
  | VArr l =>
      Return ((key =? "length")
              || match index_of_key key (List.length l) with
                 | Some _ => true
                 | None => false
                 end)
  | VObj o =>
      if has_key "hasOwnProperty" o
      then Throw (TypeError (name ++ ".hasOwnProperty is not a function"))
      else Return (has_key key o)
  end.

(** [b[key]] for an own property [key] of [b]. *)
Definition own_prop (b : value) (key : string) : value :=
  match b with
  | VStr s =>
      if key =? "length" then VNum (Z.of_nat (String.length s))
      else match index_of_key key (String.length s) with
           | Some i => nth i (map VStr (chars s)) VUndef
           | None => VUndef
           end
  | VArr l =>
      if key =? "length" then VNum (Z.of_nat (List.length l))
      else match index_of_key key (List.length l) with
           | Some i => nth i l VUndef
           | None => VUndef
           end
  | VObj o => get key o
  | _ => VUndef
  end.

(** The keys [for (key in b)] visits. *)
Definition enum_keys (b : value) : list string :=
  match b with
  | VStr s => map string_of_nat (seq 0 (String.length s))
  | VArr l => map string_of_nat (seq 0 (List.length l))
  | VObj o => keys o
  | _ => []
  end.

(** The second loop of [deepEqual]:
    [for (let key in b) { if (!b.hasOwnProperty(key)) continue;
                          if (!a.hasOwnProperty(key)) return false; }]. *)
Definition deepEqual_keys (a b : value) : list string -> completion bool :=
  fix others (keys : list string) {struct keys} : completion bool :=
    match keys with
    | [] => Return true
    | key :: keys' =>
        hb <- hasOwnProperty "b" b key ;;
        if hb then
          ha <- hasOwnProperty "a" a key ;;
          if ha then others keys' else Return false
        else others keys'
    end.

(** No object in the value has an own property named [hasOwnProperty]. *)
Fixpoint unshadowed (v : value) : bool :=
  match v with
  | VArr l => forallb unshadowed l
  | VObj o =>
      negb (has_key "hasOwnProperty" o)
      && forallb (fun kv => unshadowed (snd kv)) o
  | _ => true
  end.

(** Every number in the value is one that [String] and [JSON.stringify]
    write with all its digits: its magnitude is below 10^21. *)
Fixpoint printable (v : value) : bool :=
  match v with
  | VNum n => (Z.abs n <? 10 ^ 21)%Z
  | VArr l => forallb printable l
  | VObj o => forallb (fun kv => printable (snd kv)) o
  | _ => true
  end.

Section Engine.

Variable zotero : Zotero.

(** [deepEqual(a, b)].

    The guard of the first branch is
    [(typeof a === 'object' && a !== null || typeof a === 'function')
     && (typeof a === 'object' && b !== null || typeof b === 'function')]:
    its second half tests [typeof a], so for an array or object [a] the
    branch is taken for every [b] other than [null].

    For two arrays the keys of the [for (key in a)] loop are the indices
    in order, [b.hasOwnProperty(i)] is [i < b.length] and the second loop
    fails when [b] is longer; the two lists are walked together.  An
    array has no own property named [hasOwnProperty], so on arrays the
    method is always the inherited one. *)
Fixpoint deepEqual (a b : value) {struct a} : completion bool :=
  match a with
  | VArr la =>
      match b with
      | VArr lb =>
          (fix elements (la lb : list value) {struct la} : completion bool :=
             match la, lb with
             | [], [] => Return true
             | [], _ :: _ => Return false
             | _ :: _, [] => Return false
             | x :: la', y :: lb' =>
                 e <- deepEqual x y ;;
                 if e then elements la' lb' else Return false
             end) la lb
      | _ => Return false
      end
  | VObj fa =>
      match b with
      | VNull => Return false
      | VArr _ => Return false
      | _ =>
          r <- (fix properties (rest : obj) {struct rest} : completion bool :=
                  match rest with
                  | [] => Return true
                  | (key, x) :: rest' =>
                      ha <- hasOwnProperty "a" a key ;;
                      if ha then
                        hb <- hasOwnProperty "b" b key ;;
                        if hb then
                          e <- deepEqual x (own_prop b key) ;;
                          if e then properties rest' else Return false
                        else Return false
                      else properties rest'
                  end) fa ;;
          if r then deepEqual_keys a b (enum_keys b) else Return false
      end
  | VStr s =>
      match b with
      | VStr s' =>
          Return ((s =? s')
                  || (Utilities_trimInternal zotero s
                      =? Utilities_trimInternal zotero s'))
      | _ => Return false
      end
  | _ => Return (strict_eq a b)
  end.

(** The two loops of [deepEqual], as functions of their own. *)
Fixpoint deepEqual_elements (la lb : list value) {struct la}
  : completion bool :=
  match la, lb with
  | [], [] => Return true
  | [], _ :: _ => Return false
  | _ :: _, [] => Return false
  | x :: la', y :: lb' =>
      e <- deepEqual x y ;;
      if e then deepEqual_elements la' lb' else Return false
  end.

Definition deepEqual_properties (a b : value) : obj -> completion bool :=
  fix properties (rest : obj) {struct rest} : completion bool :=
    match rest with
    | [] => Return true
    | (key, x) :: rest' =>
        ha <- hasOwnProperty "a" a key ;;
        if ha then
          hb <- hasOwnProperty "b" b key ;;
          if hb then
            e <- deepEqual x (own_prop b key) ;;
            if e then properties rest' else Return false
          else Return false
        else properties rest'
    end.

(** ** The record normaliser: [sanitizeItem] *)

(** One turn of [for (let attachment of item.attachments)]. *)
Definition sanitizeAttachment (attachment : value) : completion value :=
  match attachment with
  | VUndef | VNull =>
      Throw (TypeError "Cannot read properties of null (reading 'document')")
  | VObj o =>
      let o1 := if truthy (get "document" o)
                then set "mimeType" (VStr "text/html") (delete "document" o)
                else o in
      let o2 := if truthy (get "url" o1) then delete "url" o1 else o1 in
      let o3 := if truthy (get "complete" o2) then delete "complete" o2 else o2 in
      Return (VObj o3)
  | _ => Return attachment
  end.

(** [if (item.attachments && item.attachments.length) for (... of ...)].
    A non-empty string is walked character by character to no effect; an
    object with a truthy [length] is not iterable. *)
Definition sanitizeAttachments (item : obj) : completion obj :=
  match get "attachments" item with
  | VArr (a :: l) =>
      l' <- mapM sanitizeAttachment (a :: l) ;;
      Return (set "attachments" (VArr l') item)
  | VObj o =>
      if truthy (get "length" o)
      then Throw (TypeError "item.attachments is not iterable")
      else Return item
  | _ => Return item
  end.

Definition skipFields : list string :=
  ["note"; "notes"; "itemID"; "attachments"; "tags"; "seeAlso"; "itemType";
   "creators"; "complete"].

Definition skipFields_has (field : string) : bool :=
  existsb (String.eqb field) skipFields.

(** One turn of [for (let field in item)].  The loop visits the keys the
    object had when it started; one that is gone by its turn is passed
    over. *)
Definition visitField (typeID : option nat) (item : obj) (field : string)
  : obj :=
  if negb (has_key field item) then item
  else if skipFields_has field then item
  else
    match ItemFields_getID zotero field with
    | None => delete field item
    | Some fieldID =>
        if negb (truthy (get field item)) then delete field item
        else
          let validated :=
            if ItemFields_isValidForType zotero fieldID typeID
            then item else delete field item in
          match ItemFields_getFieldIDFromTypeAndBase zotero typeID fieldID with
          | Some subfieldID =>
              if negb (subfieldID =? fieldID)%nat
              then delete field
                     (set (ItemFields_getName zotero subfieldID)
                          (get field item) item)
              else validated
          | None => validated
          end
    end.

(** [a.tag < b.tag] for the tags that [_cleanTags] yields, whose text is
    a string: the code-unit order of the two strings.  Two numbers are
    compared as numbers.  For every other pair of operands JavaScript
    converts them first ([false < true], [null < 1] and [9 < '10'] hold);
    those conversions are not modelled, the comparison is taken to fail
    there, and what is stated about the order of the sorted tags is stated
    for tags whose text is a string. *)
Definition js_lt (a b : value) : bool :=
  match a, b with
  | VStr x, VStr y => String.ltb x y
  | VNum x, VNum y => (x <? y)%Z
  | _, _ => false
  end.

Definition tag_lt (a b : obj) : bool := js_lt (get "tag" a) (get "tag" b).

(** [Array.prototype.sort] is stable; with the comparator of
    [sanitizeItem] (negative when [a.tag < b.tag], positive when
    [b.tag < a.tag], zero otherwise) an element moves behind another only
    when that one's tag is strictly smaller. *)
Fixpoint insertTag (a : obj) (sorted : list obj) : list obj :=
  match sorted with
  | [] => [a]
  | b :: rest => if tag_lt b a then b :: insertTag a rest else a :: sorted
  end.

Definition sortTags (tags : list obj) : list obj :=
  fold_right insertTag [] tags.

(** [if (item.tags && Array.isArray(item.tags))]: clean the tags, then
    sort them by their text. *)
Definition sanitizeTags (item : obj) : obj :=
  match get "tags" item with
  | VArr tags =>
      set "tags"
        (VArr (map VObj (sortTags (Translate_cleanTags zotero tags)))) item
  | _ => item
  end.

(** The whole loop [for (let field in item)], with [typeID] taken from the
    item type before it starts. *)
Definition sanitizeFields (item : obj) : obj :=
  let typeID := ItemTypes_getID zotero (get "itemType" item) in
  fold_left (visitField typeID) (keys item) item.

(** [sanitizeItem(item)] for a record [item].  The attachments are cleaned
    on the caller's object; everything after the JSON round trip works on
    the copy that is returned. *)
Definition sanitizeItem (item : obj) : completion obj :=
  item1 <- sanitizeAttachments item ;;
  let item2 := json_obj item1 in
  let item3 := sanitizeFields item2 in
  let item4 := delete "accessDate" item3 in
  Return (sanitizeTags item4).

(** What one turn of [for (let field in item)] does to the property
    [field], whose value is [v]. *)
Inductive FieldVerdict : Type :=
| Kept
| Deleted
| Moved (name : string).

Definition fieldVerdict (typeID : option nat) (field : string) (v : value)
  : FieldVerdict :=
  if skipFields_has field then Kept
  else
    match ItemFields_getID zotero field with
    | None => Deleted
    | Some fieldID =>
        if negb (truthy v) then Deleted
        else
          let validated :=
            if ItemFields_isValidForType zotero fieldID typeID
            then Kept else Deleted in
          match ItemFields_getFieldIDFromTypeAndBase zotero typeID fieldID with
          | Some subfieldID =>
              if negb (subfieldID =? fieldID)%nat
              then Moved (ItemFields_getName zotero subfieldID)
              else validated
          | None => validated
          end
    end.

(** The field loop on a string: its fields are the indices of its code
    units.  The module is in strict mode, where deleting a code unit of a
    string and creating a property on a string both throw. *)
Fixpoint sanitizeString (typeID : option nat) (s : string) (i : nat)
  : completion unit :=
  match s with
  | EmptyString => Return tt
  | String c s' =>
      match fieldVerdict typeID (string_of_nat i) (VStr (String c "")) with
      | Kept => sanitizeString typeID s' (S i)
      | Deleted =>
          Throw (TypeError ("Cannot delete property '" ++ string_of_nat i
                            ++ "' of [object String]"))
      | Moved name =>
          Throw (TypeError ("Cannot create property '" ++ name
                            ++ "' on string"))
      end
  end.

(** The field loop on an array: its fields are its indices.  An index
    that is deleted leaves a hole, and one that is moved adds a named
    property to the array; neither result is a [value]. *)
Fixpoint sanitizeElements (typeID : option nat) (l : list value) (i : nat)
  : completion unit :=
  match l with
  | [] => Return tt
  | x :: l' =>
      match fieldVerdict typeID (string_of_nat i) x with
      | Kept => sanitizeElements typeID l' (S i)
      | _ => Throw (Unmodelled "sanitizeItem leaves an array with holes")
      end
  end.

(** [sanitizeItem(item)] for any [item].  Reading [item.attachments]
    throws on [null] and [undefined].  A boolean or a number has no
    attachments, no fields and no tags and comes back as it is.  A string
    or an array has neither attachments nor tags, and its item type is
    [undefined]; its indices go through the field loop. *)
Definition sanitize (item : value) : completion value :=
  match item with
  | VUndef =>
      Throw (TypeError
               "Cannot read properties of undefined (reading 'attachments')")
  | VNull =>
      Throw (TypeError
               "Cannot read properties of null (reading 'attachments')")
  | VBool _ | VNum _ => Return item
  | VStr s =>
      sanitizeString (ItemTypes_getID zotero VUndef) s 0 ;;;
      Return item
  | VArr l =>
      let l' := map json_elem l in
      sanitizeElements (ItemTypes_getID zotero VUndef) l' 0 ;;;
      Return (VArr l')
  | VObj o => r <- sanitizeItem o ;; Return (VObj r)
  end.

End Engine.

(** ** Test cases: class [Test] *)

Inductive TestType : Type := TWeb | TImport | TExport | TSearch.

Definition TEST_TYPES : list string := ["web"; "import"; "export"; "search"].

Definition type_name (t : TestType) : string :=
  match t with
  | TWeb => "web"
  | TImport => "import"
  | TExport => "export"
  | TSearch => "search"
  end.

(** [TEST_TYPES.includes(type)], with the member that was found. *)
Definition TEST_TYPES_includes (type : value) : option TestType :=
  match type with
  | VStr s =>
      find (fun t => s =? type_name t) [TWeb; TImport; TExport; TSearch]
  | _ => None
  end.

(** What [_items] holds once the setter has accepted it: the sentinel, or
    the array of what [sanitizeItem] returned for each element. *)
Inductive Items : Type :=
| Multiple
| Records (records : list value).

Definition items_value (i : Items) : value :=
  match i with
  | Multiple => VStr "multiple"
  | Records l => VArr l
  end.

Record Test : Type := mkTest {
  _type : TestType;
  _defer : value;
  _input : value;
  _detectedItemType : value;
  _items : Items
}.

Definition dquote : string := String "034"%char EmptyString.

Section TestCase.

Variable zotero : Zotero.

(** [set type(type)] *)
Definition set_type (type : value) (this : Test) : completion Test :=
  match TEST_TYPES_includes type with
  | None => Throw (Error ("Invalid test type: " ++ display type))
  | Some t =>
      Return (mkTest t (_defer this) (_input this) (_detectedItemType this)
                (_items this))
  end.

(** [set defer(defer)] *)
Definition set_defer (defer : value) (this : Test) : completion Test :=
  let store d :=
    Return (mkTest (_type this) d (_input this) (_detectedItemType this)
              (_items this)) in
  if truthy defer then
    if negb (strict_eq defer (VBool true)) && negb (typeof defer =? "number")
    then Throw (Error ("Invalid defer: " ++ display defer))
    else store defer
  else store VUndef.

(** [set input(input)] *)
Definition set_input (input : value) (this : Test) : completion Test :=
  let expectedType :=
    match _type this with
    | TWeb | TImport => "string"
    | _ => "object"
    end in
  if negb (typeof input =? expectedType)
  then Throw (Error (type_name (_type this) ++ " test input must be a string"))
  else Return (mkTest (_type this) (_defer this) input
                 (_detectedItemType this) (_items this)).

(** [get url()] *)
Definition get_url (this : Test) : completion value :=
  match _type this with
  | TWeb => Return (_input this)
  | t => Throw (Error (type_name t ++ " test has no url"))
  end.

(** [set url(url)] *)
Definition set_url (url : value) (this : Test) : completion Test :=
  match _type this with
  | TWeb =>
      Return (mkTest (_type this) (_defer this) url (_detectedItemType this)
                (_items this))
  | t => Throw (Error (type_name t ++ " test has no url"))
  end.

(** [set detectedItemType(detectedItemType)] *)
Definition set_detectedItemType (detectedItemType : value) (this : Test)
  : completion Test :=
  if negb (strict_eq detectedItemType VUndef)
     && negb (typeof detectedItemType =? "string")
     && negb (typeof detectedItemType =? "boolean")
  then Throw (Error "detectedItemType must be a string or boolean")
  else Return (mkTest (_type this) (_defer this) (_input this)
                 detectedItemType (_items this)).

(** [set items(items)] *)
Definition set_items (items : value) (this : Test) : completion Test :=
  let store i :=
    Return (mkTest (_type this) (_defer this) (_input this)
              (_detectedItemType this) i) in
  match items with
  | VArr l =>
      sanitized <- mapM (sanitize zotero) l ;;
      store (Records sanitized)
  | VStr s =>
      if s =? "multiple" then store Multiple
      else Throw (Error ("items must be an array or " ++ dquote ++ "multiple"
                         ++ dquote))
  | _ => Throw (Error ("items must be an array or " ++ dquote ++ "multiple"
                       ++ dquote))
  end.

(** [_inferItemType()].  The first element of [_items] is a result of
    [sanitizeItem], which is never [null] or [undefined]; on a string, a
    number or a boolean the property [itemType] is [undefined]. *)
Definition _inferItemType (this : Test) : value :=
  match _type this with
  | TWeb =>
      match _items this with
      | Multiple => VStr "multiple"
      | Records (first :: _) => own_prop first "itemType"
      | Records [] => VBool false
      end
  | _ =>
      match _items this with
      | Multiple => VBool true
      | Records l => VBool (negb (Nat.eqb (List.length l) 0))
      end
  end.

(** [toJSON()] *)
Definition toJSON (this : Test) : obj :=
  [ ("type", VStr (type_name (_type this)));
    ("defer", _defer this);
    (match _type this with TWeb => "url" | _ => "input" end, _input this);
    ("detectedItemType",
      if truthy (_detectedItemType this)
         && strict_eq (_detectedItemType this) (_inferItemType this)
      then VUndef
      else _detectedItemType this);
    ("items", items_value (_items this)) ].

(** The object a constructor call starts from; every field is assigned
    before it is read. *)
Definition blank : Test := mkTest TWeb VUndef VUndef VUndef Multiple.

(** [new Test(testInit)] for a plain configuration object. *)
Definition Test_new (testInit : obj) : completion Test :=
  this <- set_type (get "type" testInit) blank ;;
  this <- set_defer (nullish (get "defer" testInit) (VBool false)) this ;;
  this <- set_input (nullish (get "input" testInit) (get "url" testInit))
            this ;;
  this <- set_items (get "items" testInit) this ;;
  set_detectedItemType
    (nullish (get "detectedItemType" testInit) (_inferItemType this)) this.

(** [new Test(test)] for an instance: [testInit = testInit.toJSON()]. *)
Definition Test_clone (test : Test) : completion Test :=
  Test_new (toJSON test).

(** [equals(test)] *)
Definition equals (this test : Test) : completion bool :=
  deepEqual zotero (VObj (toJSON this)) (VObj (toJSON test)).

End TestCase.

(** ** The runner: [TranslatorTester] *)

Definition DEFAULT_DEFER_DELAY : Z := 5.
Definition TEST_RUN_TIMEOUT : Z := 15000.

(** What one execution attempt reports: [{ detectedItemType, items, reason }];
    an absent member is [undefined]. *)
Record RunResult : Type := mkResult {
  detectedItemType : value;
  items : value;
  reason : value
}.

(** What the page environment did in one run: the completion of each of its
    four operations, and how often the translator called the [select]
    handler while [runTranslation] was in progress. *)
Record WebRun : Type := {
  fetchPage : completion unit;
  waitForLoad : completion bool;
  runTranslation : completion RunResult;
  numSelectItemsCalls : nat;
  destroy : completion unit
}.

(** What the translation engine did for an import or search test:
    [translate._detect()] and [translate.translate(...)]. *)
Record DirectRun : Type := {
  _detect : completion value;
  translate : completion value
}.

Record Collaborators : Type := {
  webTranslationEnvironment : WebRun;
  engine : DirectRun
}.

Inductive Status : Type := success | failure.

(** [{ status, reason?, updatedTest? }] *)
Record Outcome : Type := mkOutcome {
  status : Status;
  outcome_reason : option value;
  updatedTest : option Test
}.

Section Runner.

Variable zotero : Zotero.

(** The seconds [_translateWeb] waits for the page to settle. *)
Definition settleDelay (test : Test) (assumePageIsLoaded : bool) : option Z :=
  if negb assumePageIsLoaded && truthy (_defer test) then
    Some (match _defer test with
          | VNum n => n
          | _ => DEFAULT_DEFER_DELAY
          end)
  else None.

(** [!items?.length] *)
Definition no_length (items : value) : bool :=
  match items with
  | VUndef | VNull => true
  | VArr l => Nat.eqb (List.length l) 0
  | VStr s => Nat.eqb (String.length s) 0
  | VObj o => negb (truthy (get "length" o))
  | VBool _ | VNum _ => true
  end.

(** [_translateWeb(test, { signal })] *)
Definition _translateWeb (test : Test) (env : WebRun) : completion RunResult :=
  _ <- get_url test ;;
  _ <- fetchPage env ;;
  result <- try_finally
              (_ <- waitForLoad env ;; runTranslation env)
              (destroy env) ;;
  let detectedItemType := detectedItemType result in
  let items := items result in
  let reason := reason result in
  if negb (truthy items) && truthy reason then
    Return (mkResult detectedItemType items reason)
  else if no_length items then
    Return (mkResult detectedItemType VNull
              (VStr "Translator did not return any items"))
  else if (1 <? numSelectItemsCalls env)%nat then
    Return (mkResult detectedItemType VNull
              (VStr "Translator called selectItems multiple times"))
  else if negb (Nat.eqb (numSelectItemsCalls env) 0) then
    Return (mkResult detectedItemType (VStr "multiple") VUndef)
  else
    Return (mkResult detectedItemType items VUndef).

(** [_translateImportOrSearch(test, { signal })] *)
Definition _translateImportOrSearch (test : Test) (eng : DirectRun)
  : completion RunResult :=
  detectedItemType <- _detect eng ;;
  if negb (truthy detectedItemType) then
    Return (mkResult VUndef VNull (VStr "Detection failed"))
  else
    items <- translate eng ;;
    Return (mkResult detectedItemType items VUndef).

Definition arity_name (multiple : bool) : string :=
  if multiple then "multiple" else "single item".

(** The part of [run] after the [switch]: the verdict on a collected
    result. *)
Definition classify (test : Test) (result : RunResult) : completion Outcome :=
  let detectedItemType := detectedItemType result in
  let items := items result in
  let reason := reason result in
  if negb (truthy items) then
    if negb (truthy detectedItemType)
       && strict_eq (_detectedItemType test) (VBool false)
    then Return (mkOutcome success None None)
    else Return (mkOutcome failure (Some reason) None)
  else
    updatedTest <- Test_clone zotero test ;;
    updatedTest <- set_detectedItemType detectedItemType updatedTest ;;
    updatedTest <- set_items zotero items updatedTest ;;
    if negb (strict_eq (_detectedItemType test) detectedItemType) then
      Return (mkOutcome failure
                (Some (VStr "Detection returned wrong item type"))
                (Some updatedTest))
    else
      let expectedMultiple :=
        strict_eq (items_value (_items test)) (VStr "multiple") in
      let gotMultiple := strict_eq items (VStr "multiple") in
      if (expectedMultiple || gotMultiple)
         && negb (expectedMultiple && gotMultiple)
      then
        Return (mkOutcome failure
                  (Some (VStr ("Expected " ++ arity_name expectedMultiple
                               ++ ", got " ++ arity_name gotMultiple)))
                  (Some updatedTest))
      else
        same <- equals zotero test updatedTest ;;
        if negb same then
          Return (mkOutcome failure (Some (VStr "Data mismatch"))
                    (Some updatedTest))
        else
          Return (mkOutcome success None (Some updatedTest)).

(** [try { result = await extraction } catch (e) { return failure }] *)
Definition caught (extraction : completion RunResult)
    (k : RunResult -> completion Outcome) : completion Outcome :=
  match extraction with
  | Return result => k result
  | Throw e => Return (mkOutcome failure (Some (VStr (String_exn e))) None)
  end.

(** [run(test)] *)
Definition run (test : Test) (c : Collaborators) : completion Outcome :=
  match _type test with
  | TWeb =>
      caught (_translateWeb test (webTranslationEnvironment c))
        (classify test)
  | TImport | TSearch =>
      caught (_translateImportOrSearch test (engine c)) (classify test)
  | TExport => Throw (Error "Export tests are not yet supported")
  end.

(** The extraction path [run] dispatches a web, import or search test
    to. *)
Definition extraction (test : Test) (c : Collaborators)
  : completion RunResult :=
  match _type test with
  | TWeb => _translateWeb test (webTranslationEnvironment c)
  | _ => _translateImportOrSearch test (engine c)
  end.

End Runner.

(** ** The static page environment: [HTTPWebTranslationEnvironment] *)

(** What the platform did for one static document: the document fetch of
    [Zotero.HTTP.processDocuments], [translate.getTranslators(false, true)]
    with the translators it detected, [translate.translate()], and how
    often the translator called the [select] handler.  A fetch that never
    delivers its document is outside the model. *)
Record StaticPage : Type := {
  processDocuments : completion unit;
  getTranslators : completion (list obj);
  translateDocument : completion value;
  selectCalls : nat
}.

(** [runTranslation(doc, { tester, handlers, signal })] *)
Definition HTTP_runTranslation (page : StaticPage) : completion RunResult :=
  detectedTranslators <- getTranslators page ;;
  match detectedTranslators with
  | [] => Return (mkResult VUndef VNull (VStr "Detection failed"))
  | first :: _ =>
      let detectedItemType := get "itemType" first in
      items <- translateDocument page ;;
      Return (mkResult detectedItemType items VUndef)
  end.

(** The environment as [_translateWeb] sees it: [waitForLoad] is always
    [true] and [destroy] is the inherited no-op. *)
Definition HTTPWebTranslationEnvironment (page : StaticPage) : WebRun := {|
  fetchPage := processDocuments page;
  waitForLoad := Return true;
  runTranslation := HTTP_runTranslation page;
  numSelectItemsCalls := selectCalls page;
  destroy := Return tt
|}.

(** ** The structural diff: [diff] *)

Definition newline : string := String "010"%char EmptyString.

(** White space as [trimEnd] knows it, among the code units below 256:
    tab, line feed, vertical tab, form feed, carriage return, space and
    no-break space. *)
Definition isWhiteSpace (c : ascii) : bool :=
  let n := nat_of_ascii c in
  ((9 <=? n)%nat && (n <=? 13)%nat) || (n =? 32)%nat || (n =? 160)%nat.

(** [s.trimEnd()] *)
Fixpoint trimEnd (s : string) : string :=
  match s with
  | EmptyString => EmptyString
  | String c s' =>
      let rest := trimEnd s' in
      if isWhiteSpace c && (rest =? "") then EmptyString else String c rest
  end.

Definition hexDigit (n : nat) : ascii :=
  nth n ["0"; "1"; "2"; "3"; "4"; "5"; "6"; "7"; "8"; "9"; "a"; "b"; "c";
         "d"; "e"; "f"]%char "0"%char.

(** How [JSON.stringify] writes one code unit of a string: the quote and
    the backslash are escaped, the control characters have their short
    escape or a [\u00xx] one. *)
Definition escapeChar (c : ascii) : string :=
  let n := nat_of_ascii c in
  if (n =? 34)%nat then "\" ++ dquote
  else if (n =? 92)%nat then "\\"
  else if (n =? 8)%nat then "\b"
  else if (n =? 12)%nat then "\f"
  else if (n =? 10)%nat then "\n"
  else if (n =? 13)%nat then "\r"
  else if (n =? 9)%nat then "\t"
  else if (n <? 32)%nat then
    "\u00" ++ String (hexDigit (n / 16)) (String (hexDigit (n mod 16)) "")
  else String c "".

Fixpoint escape (s : string) : string :=
  match s with
  | EmptyString => EmptyString
  | String c s' => escapeChar c ++ escape s'
  end.

(** [JSON.stringify(s)] for a string [s]. *)
Definition quote (s : string) : string := dquote ++ escape s ++ dquote.

(** [JSON.stringify(v)]; [None] is the answer [undefined].  A property
    whose value is [undefined] is left out; an [undefined] array element is
    written [null]. *)
Fixpoint JSON_stringify (v : value) : option string :=
  match v with
  | VUndef => None
  | VNull => Some "null"
  | VBool true => Some "true"
  | VBool false => Some "false"
  | VNum n => Some (string_of_Z n)
  | VStr s => Some (quote s)
  | VArr l =>
      Some ("[" ++ String.concat ","
                     (map (fun x => match JSON_stringify x with
                                    | Some t => t
                                    | None => "null"
                                    end) l)
            ++ "]")
  | VObj o =>
      Some ("{" ++ String.concat ","
                     (flat_map (fun kv => match JSON_stringify (snd kv) with
                                          | Some t => [quote (fst kv) ++ ":" ++ t]
                                          | None => []
                                          end) o)
            ++ "}")
  end.

(** [prefix + JSON.stringify(a)]: an [undefined] is concatenated as the
    word. *)
Definition stringified (a : value) : string :=
  match JSON_stringify a with
  | Some t => t
  | None => "undefined"
  end.

(** *** The text of a diff

    What [show], [compare] and [diff] write when no call of
    [hasOwnProperty] throws; the functions themselves follow. *)

(** The text of [show(a, action, prefix, indent)]. *)
Fixpoint show_text (a : value) (action prefix indent : string) {struct a}
  : string :=
  match a with
  | VArr l =>
      let changes :=
        String.concat ""
          (map (fun x => show_text x action "" (indent ++ "  ")) l) in
      match l with
      | [] => action ++ " " ++ indent ++ prefix ++ "[" ++ "]" ++ newline
      | _ :: _ =>
          action ++ " " ++ indent ++ prefix ++ "[" ++ newline
          ++ changes ++ action ++ " " ++ indent ++ "]" ++ newline
      end
  | VObj o =>
      let changes :=
        String.concat ""
          (map (fun kv => show_text (snd kv) action (quote (fst kv) ++ ": ")
                            (indent ++ "  ")) o) in
      match o with
      | [] => action ++ " " ++ indent ++ prefix ++ "{" ++ "}" ++ newline
      | _ :: _ =>
          action ++ " " ++ indent ++ prefix ++ "{" ++ newline
          ++ changes ++ action ++ " " ++ indent ++ "}" ++ newline
      end
  | _ => action ++ " " ++ indent ++ prefix ++ stringified a ++ newline
  end.

(** The lines [compare] writes for the keys of [b] that [a] lacks. *)
Definition show_added_text (fa fb : obj) (indent : string) : string :=
  String.concat ""
    (map (fun kv => if has_key (fst kv) fa then ""
                    else show_text (snd kv) "+" (quote (fst kv) ++ ": ") indent)
       fb).

(** The text of [compare(a, b, prefix, indent)].

    Two arrays, or two objects, are compared key by key: first the keys of
    [a], each compared with its value in [b] or shown as removed, then the
    keys of [b] that [a] lacks, shown as added.  For two arrays the keys
    are the indices, so the lists are walked together and what is left of
    the longer one is removed or added.  Everything else is one unchanged
    line if [a === b] and a removed line followed by an added one if
    not. *)
Fixpoint compare_text (a b : value) (prefix indent : string) {struct a}
  : string :=
  let scalar :=
    if strict_eq a b then show_text a " " prefix indent
    else show_text a "-" prefix indent ++ show_text b "+" prefix indent in
  match a with
  | VArr la =>
      match b with
      | VArr lb =>
          let changes :=
            (fix elements (la lb : list value) {struct la} : string :=
               match la with
               | [] =>
                   String.concat ""
                     (map (fun y => show_text y "+" "" (indent ++ "  ")) lb)
               | x :: la' =>
                   match lb with
                   | [] =>
                       show_text x "-" "" (indent ++ "  ") ++ elements la' []
                   | y :: lb' =>
                       compare_text x y "" (indent ++ "  ") ++ elements la' lb'
                   end
               end) la lb in
          match la, lb with
          | [], [] => "  " ++ indent ++ prefix ++ "[" ++ "]" ++ newline
          | _, _ =>
              "  " ++ indent ++ prefix ++ "[" ++ newline
              ++ changes ++ "  " ++ indent ++ "]" ++ newline
          end
      | _ => scalar
      end
  | VObj fa =>
      match b with
      | VObj fb =>
          let changes :=
            (fix properties (rest : obj) {struct rest} : string :=
               match rest with
               | [] => ""
               | (key, x) :: rest' =>
                   (if has_key key fb
                    then compare_text x (get key fb) (quote key ++ ": ")
                           (indent ++ "  ")
                    else show_text x "-" (quote key ++ ": ") (indent ++ "  "))
                   ++ properties rest'
               end) fa
            ++ show_added_text fa fb (indent ++ "  ") in
          match fa, fb with
          | [], [] => "  " ++ indent ++ prefix ++ "{" ++ "}" ++ newline
          | _, _ =>
              "  " ++ indent ++ prefix ++ "{" ++ newline
              ++ changes ++ "  " ++ indent ++ "}" ++ newline
          end
      | _ => scalar
      end
  | _ => scalar
  end.

(** The two loops of [compare] over the keys of [a], as functions of their
    own. *)
Definition compare_elements_text (indent : string)
  : list value -> list value -> string :=
  fix elements (la lb : list value) {struct la} : string :=
    match la with
    | [] => String.concat "" (map (fun y => show_text y "+" "" indent) lb)
    | x :: la' =>
        match lb with
        | [] => show_text x "-" "" indent ++ elements la' []
        | y :: lb' => compare_text x y "" indent ++ elements la' lb'
        end
    end.

Definition compare_properties_text (fb : obj) (indent : string)
  : obj -> string :=
  fix properties (rest : obj) {struct rest} : string :=
    match rest with
    | [] => ""
    | (key, x) :: rest' =>
        (if has_key key fb
         then compare_text x (get key fb) (quote key ++ ": ") indent
         else show_text x "-" (quote key ++ ": ") indent)
        ++ properties rest'
    end.

(** The text of [diff(a, b)]. *)
Definition diff_text (a b : value) : string := trimEnd (compare_text a b "" "").

(** *** The functions of [diff.mjs] *)

(** [show(a, action, prefix, indent)].  The loop
    [for (var key in a) { if (!a.hasOwnProperty(key)) continue; ... }]
    calls [a.hasOwnProperty] at every key. *)
Fixpoint show (a : value) (action prefix indent : string) {struct a}
  : completion string :=
  match a with
  | VArr l =>
      changes <-
        (fix elements (l : list value) {struct l} : completion string :=
           match l with
           | [] => Return ""
           | x :: l' =>
               s <- show x action "" (indent ++ "  ") ;;
               more <- elements l' ;;
               Return (s ++ more)
           end) l ;;
      match l with
      | [] =>
          Return (action ++ " " ++ indent ++ prefix ++ "[" ++ "]" ++ newline)
      | _ :: _ =>
          Return (action ++ " " ++ indent ++ prefix ++ "[" ++ newline
                  ++ changes ++ action ++ " " ++ indent ++ "]" ++ newline)
      end
  | VObj o =>
      changes <-
        (fix properties (rest : obj) {struct rest} : completion string :=
           match rest with
           | [] => Return ""
           | (key, x) :: rest' =>
               own <- hasOwnProperty "a" a key ;;
               if own then
                 s <- show x action (quote key ++ ": ") (indent ++ "  ") ;;
                 more <- properties rest' ;;
                 Return (s ++ more)
               else properties rest'
           end) o ;;
      match o with
      | [] =>
          Return (action ++ " " ++ indent ++ prefix ++ "{" ++ "}" ++ newline)
      | _ :: _ =>
          Return (action ++ " " ++ indent ++ prefix ++ "{" ++ newline
                  ++ changes ++ action ++ " " ++ indent ++ "}" ++ newline)
      end
  | _ =>
      Return (action ++ " " ++ indent ++ prefix ++ stringified a ++ newline)
  end.

(** The two loops of [show], as functions of their own. *)
Definition show_elements (action indent : string)
  : list value -> completion string :=
  fix elements (l : list value) {struct l} : completion string :=
    match l with
    | [] => Return ""
    | x :: l' =>
        s <- show x action "" indent ;;
        more <- elements l' ;;
        Return (s ++ more)
    end.

Definition show_properties (a : value) (action indent : string)
  : obj -> completion string :=
  fix properties (rest : obj) {struct rest} : completion string :=
    match rest with
    | [] => Return ""
    | (key, x) :: rest' =>
        own <- hasOwnProperty "a" a key ;;
        if own then
          s <- show x action (quote key ++ ": ") indent ;;
          more <- properties rest' ;;
          Return (s ++ more)
        else properties rest'
    end.

(** The second loop of [compare] on two objects: a key of [b] that
    passes [b.hasOwnProperty(key)] and fails [a.hasOwnProperty(key)] is
    shown as added. *)
Definition show_added (a b : value) (indent : string)
  : obj -> completion string :=
  fix added (rest : obj) {struct rest} : completion string :=
    match rest with
    | [] => Return ""
    | (key, y) :: rest' =>
        hb <- hasOwnProperty "b" b key ;;
        if hb then
          ha <- hasOwnProperty "a" a key ;;
          s <- (if ha then Return ""
                else show y "+" (quote key ++ ": ") indent) ;;
          more <- added rest' ;;
          Return (s ++ more)
        else added rest'
    end.

(** [compare(a, b, prefix, indent)].

    Two arrays, or two objects, are compared key by key: first the keys of
    [a], each compared with its value in [b] or shown as removed, then the
    keys of [b] that [a] lacks, shown as added.  For two arrays the keys
    are the indices, so the lists are walked together and what is left of
    the longer one is removed or added.  Everything else is one unchanged
    line if [a === b] and a removed line followed by an added one if
    not. *)
Fixpoint compare (a b : value) (prefix indent : string) {struct a}
  : completion string :=
  let scalar :=
    if strict_eq a b then show a " " prefix indent
    else
      removed <- show a "-" prefix indent ;;
      added <- show b "+" prefix indent ;;
      Return (removed ++ added) in
  match a with
  | VArr la =>
      match b with
      | VArr lb =>
          changes <-
            (fix elements (la lb : list value) {struct la}
               : completion string :=
               match la with
               | [] => show_elements "+" (indent ++ "  ") lb
               | x :: la' =>
                   match lb with
                   | [] =>
                       s <- show x "-" "" (indent ++ "  ") ;;
                       more <- elements la' [] ;;
                       Return (s ++ more)
                   | y :: lb' =>
                       s <- compare x y "" (indent ++ "  ") ;;
                       more <- elements la' lb' ;;
                       Return (s ++ more)
                   end
               end) la lb ;;
          match la, lb with
          | [], [] =>
              Return ("  " ++ indent ++ prefix ++ "[" ++ "]" ++ newline)
          | _, _ =>
              Return ("  " ++ indent ++ prefix ++ "[" ++ newline
                      ++ changes ++ "  " ++ indent ++ "]" ++ newline)
          end
      | _ => scalar
      end
  | VObj fa =>
      match b with
      | VObj fb =>
          changes <-
            (fix properties (rest : obj) {struct rest} : completion string :=
               match rest with
               | [] => Return ""
               | (key, x) :: rest' =>
                   ha <- hasOwnProperty "a" a key ;;
                   if ha then
                     hb <- hasOwnProperty "b" b key ;;
                     s <- (if hb
                           then compare x (get key fb) (quote key ++ ": ")
                                  (indent ++ "  ")
                           else show x "-" (quote key ++ ": ")
                                  (indent ++ "  ")) ;;
                     more <- properties rest' ;;
                     Return (s ++ more)
                   else properties rest'
               end) fa ;;
          added <- show_added a b (indent ++ "  ") fb ;;
          match fa, fb with
          | [], [] =>
              Return ("  " ++ indent ++ prefix ++ "{" ++ "}" ++ newline)
          | _, _ =>
              Return ("  " ++ indent ++ prefix ++ "{" ++ newline
                      ++ (changes ++ added)
                      ++ "  " ++ indent ++ "}" ++ newline)
          end
      | _ => scalar
      end
  | _ => scalar
  end.

(** The two loops of [compare] over the keys of [a], as functions of their
    own. *)
Definition compare_elements (indent : string)
  : list value -> list value -> completion string :=
  fix elements (la lb : list value) {struct la} : completion string :=
    match la with
    | [] => show_elements "+" indent lb
    | x :: la' =>
        match lb with
        | [] =>
            s <- show x "-" "" indent ;;
            more <- elements la' [] ;;
            Return (s ++ more)
        | y :: lb' =>
            s <- compare x y "" indent ;;
            more <- elements la' lb' ;;
            Return (s ++ more)
        end
    end.

Definition compare_properties (a b : value) (fb : obj) (indent : string)
  : obj -> completion string :=
  fix properties (rest : obj) {struct rest} : completion string :=
    match rest with
    | [] => Return ""
    | (key, x) :: rest' =>
        ha <- hasOwnProperty "a" a key ;;
        if ha then
          hb <- hasOwnProperty "b" b key ;;
          s <- (if hb then compare x (get key fb) (quote key ++ ": ") indent
                else show x "-" (quote key ++ ": ") indent) ;;
          more <- properties rest' ;;
          Return (s ++ more)
        else properties rest'
    end.

(** [diff(a, b)] *)
Definition diff (a b : value) : completion string :=
  text <- compare a b "" "" ;;
  Return (trimEnd text).

(** [diffWith(test)]: both test cases go through
    [JSON.parse(JSON.stringify(...))], which calls [toJSON] and drops the
    members that are [undefined]. *)
Definition diffWith (this test : Test) : completion string :=
  diff (json (VObj (toJSON this))) (json (VObj (toJSON test))).

(** A string without a line feed. *)
Fixpoint plain (s : string) : bool :=
  match s with
  | EmptyString => true
  | String c s' => negb (nat_of_ascii c =? 10)%nat && plain s'
  end.

(** A string that ends in a character other than white space. *)
Fixpoint endsSolid (s : string) : bool :=
  match s with
  | EmptyString => false
  | String c EmptyString => negb (isWhiteSpace c)
  | String _ s' => endsSolid s'
  end.

(** A report: a sequence of lines, each made of a marker that [ok]
    accepts, a space, the indentation and a body that has no line feed
    and does not end in white space. *)
Inductive report (ok : string -> Prop) (indent : string) : string -> Prop :=
| report_empty : report ok indent ""
| report_line marker body rest :
    ok marker -> plain body = true -> endsSolid body = true ->
    report ok indent rest ->
    report ok indent (marker ++ " " ++ indent ++ body ++ newline ++ rest).

(** The three markers of a diff. *)
Definition diffMarker (m : string) : Prop := m = " " \/ m = "-" \/ m = "+".

(** ** What the normaliser expects of the registry

    [sanitizeItem] moves a base field onto the field that
    [getFieldIDFromTypeAndBase] names for the item type.  In a coherent
    registry that field is an ordinary field of the type: its name is not
    one of the skipped names, [getID] finds it again, it is valid for the
    type and it is not renamed a second time.  [_cleanTags] returns
    well-formed tag objects that survive a JSON round trip and that it
    leaves alone when it sees them again, in the order the sort puts them
    in. *)
Record Coherent (zotero : Zotero) : Prop := {
  subfield_is_field :
    forall typeID field fieldID subfieldID,
      ItemFields_getID zotero field = Some fieldID ->
      ItemFields_getFieldIDFromTypeAndBase zotero typeID fieldID
        = Some subfieldID ->
      subfieldID <> fieldID ->
      let name := ItemFields_getName zotero subfieldID in
      skipFields_has name = false
      /\ ItemFields_getID zotero name = Some subfieldID
      /\ (ItemFields_getFieldIDFromTypeAndBase zotero typeID subfieldID = None
          \/ ItemFields_getFieldIDFromTypeAndBase zotero typeID subfieldID
             = Some subfieldID)
      /\ ItemFields_isValidForType zotero subfieldID typeID = true;
  cleanTags_json :
    forall tags, Forall (fun t => json_obj t = t)
                   (Translate_cleanTags zotero tags);
  cleanTags_wf :
    forall tags, Forall (fun t => wf (VObj t))
                   (Translate_cleanTags zotero tags);
  cleanTags_clean :
    forall tags,
      Translate_cleanTags zotero
        (map VObj (sortTags (Translate_cleanTags zotero tags)))
      = sortTags (Translate_cleanTags zotero tags)
}.

(** ** An example platform

    A small registry with one base field ([publicationTitle], which a book
    section stores as [bookTitle]), a [trimInternal] that collapses runs of
    white space and trims both ends, and a [_cleanTags] that keeps the text
    of each tag.  It is the platform of the concrete runs below. *)
Module Example.

Definition is_space (c : ascii) : bool :=
  (c =? " ")%char || (c =? "009")%char || (c =? "010")%char
  || (c =? "013")%char.

Inductive trim_state : Type := Leading | InWord | Gap.

Fixpoint trim_from (st : trim_state) (s : string) : string :=
  match s with
  | EmptyString => EmptyString
  | String c s' =>
      if is_space c then
        trim_from (match st with Leading => Leading | _ => Gap end) s'
      else
        match st with
        | Gap => String " " (String c (trim_from InWord s'))
        | _ => String c (trim_from InWord s')
        end
  end.

Definition trimInternal (s : string) : string := trim_from Leading s.

Definition itemTypes : list (string * nat) :=
  [("book", 2); ("journalArticle", 4); ("bookSection", 5)]%nat.

Definition itemFields : list (string * nat) :=
  [("title", 1); ("date", 2); ("publicationTitle", 3); ("bookTitle", 4);
   ("publisher", 5); ("accessDate", 6); ("url", 7); ("pages", 8)]%nat.

Fixpoint lookup (k : string) (table : list (string * nat)) : option nat :=
  match table with
  | [] => None
  | (k', n) :: rest => if k =? k' then Some n else lookup k rest
  end.

Fixpoint name_of (n : nat) (table : list (string * nat)) : string :=
  match table with
  | [] => ""
  | (k, n') :: rest => if (n =? n')%nat then k else name_of n rest
  end.

Definition getTypeID (itemType : value) : option nat :=
  match itemType with
  | VStr s => lookup s itemTypes
  | _ => None
  end.

(** Fields of every type: title, date, accessDate, url.  A book has a
    publisher; a journal article a publication title and pages; a book
    section a book title, a publisher and pages. *)
Definition isValidForType (fieldID : nat) (typeID : option nat) : bool :=
  match typeID with
  | None => false
  | Some t =>
      existsb (Nat.eqb fieldID) [1; 2; 6; 7]%nat
      || ((t =? 2)%nat && (fieldID =? 5)%nat)
      || ((t =? 4)%nat && existsb (Nat.eqb fieldID) [3; 8]%nat)
      || ((t =? 5)%nat && existsb (Nat.eqb fieldID) [4; 5; 8]%nat)
  end.

Definition getFieldIDFromTypeAndBase (typeID : option nat) (fieldID : nat)
  : option nat :=
  match typeID with
  | None => None
  | Some t =>
      if ((t =? 5)%nat && (fieldID =? 3)%nat) then Some 4%nat
      else if isValidForType fieldID typeID then Some fieldID
      else None
  end.

Definition cleanTag (tag : value) : list obj :=
  match tag with
  | VStr s => if s =? "" then [] else [[("tag", VStr s)]]
  | VObj o =>
      match get "tag" o with
      | VStr s => if s =? "" then [] else [[("tag", VStr s)]]
      | _ => []
      end
  | _ => []
  end.

Definition cleanTags (tags : list value) : list obj := flat_map cleanTag tags.

Definition zotero : Zotero := {|
  Utilities_trimInternal := trimInternal;
  ItemTypes_getID := getTypeID;
  ItemFields_getID := fun field => lookup field itemFields;
  ItemFields_getFieldIDFromTypeAndBase := getFieldIDFromTypeAndBase;
  ItemFields_getName := fun id => name_of id itemFields;
  ItemFields_isValidForType := isValidForType;
  Translate_cleanTags := cleanTags
|}.

(** A page environment in which every operation succeeds. *)
Definition webRun (result : RunResult) (selectCalls : nat) : WebRun := {|
  fetchPage := Return tt;
  waitForLoad := Return true;
  runTranslation := Return result;
  numSelectItemsCalls := selectCalls;
  destroy := Return tt
|}.

Definition idleEngine : DirectRun := {|
  _detect := Return VUndef;
  translate := Return VUndef
|}.

Definition idleWeb : WebRun := webRun (mkResult VUndef VUndef VUndef) 0.

Definition collaborators (env : WebRun) (eng : DirectRun) : Collaborators :=
  {| webTranslationEnvironment := env; engine := eng |}.

(** Test cases of the concrete runs. *)
Definition exportConfig : obj :=
  [("type", VStr "export"); ("input", VObj []); ("items", VArr [])].

Definition exportTest : Test :=
  mkTest TExport VUndef (VObj []) (VBool false) (Records []).

Definition emptyWebConfig : obj :=
  [("type", VStr "web"); ("url", VStr "https://example.org/");
   ("detectedItemType", VBool false); ("items", VArr [])].

Definition emptyWebTest : Test :=
  mkTest TWeb VUndef (VStr "https://example.org/") (VBool false) (Records []).

Definition multipleConfig : obj :=
  [("type", VStr "web"); ("url", VStr "https://example.org/search");
   ("items", VStr "multiple")].

Definition multipleTest : Test :=
  mkTest TWeb VUndef (VStr "https://example.org/search") (VStr "multiple")
    Multiple.

Definition rawBook : obj :=
  [("itemType", VStr "book"); ("title", VStr "Title");
   ("publisher", VStr ""); ("libraryCatalog", VStr "Example");
   ("accessDate", VStr "2024-01-01");
   ("creators", VArr [VObj [("lastName", VStr "Doe")]]);
   ("tags", VArr [VStr "b"; VStr "a"]);
   ("attachments",
     VArr [VObj [("title", VStr "Snapshot"); ("document", VObj []);
                 ("url", VStr "https://example.org/")]]);
   ("note", VStr "n"); ("notes", VArr []); ("seeAlso", VArr []);
   ("itemID", VNum 7); ("complete", VBool true)].

Definition book : obj :=
  [("itemType", VStr "book"); ("title", VStr "Title");
   ("creators", VArr [VObj [("lastName", VStr "Doe")]]);
   ("tags", VArr [VObj [("tag", VStr "a")]; VObj [("tag", VStr "b")]]);
   ("attachments",
     VArr [VObj [("title", VStr "Snapshot");
                 ("mimeType", VStr "text/html")]]);
   ("note", VStr "n"); ("notes", VArr []); ("seeAlso", VArr []);
   ("itemID", VNum 7); ("complete", VBool true)].

(** Two search tests whose queries differ at [q]: an empty object in one,
    the number 5 in the other. *)
Definition objectQueryConfig : obj :=
  [("type", VStr "search"); ("input", VObj [("q", VObj [])]);
   ("items", VArr [])].

Definition objectQueryTest : Test :=
  mkTest TSearch VUndef (VObj [("q", VObj [])]) (VBool false) (Records []).

Definition numberQueryConfig : obj :=
  [("type", VStr "search"); ("input", VObj [("q", VNum 5)]);
   ("items", VArr [])].

Definition numberQueryTest : Test :=
  mkTest TSearch VUndef (VObj [("q", VNum 5)]) (VBool false) (Records []).

Definition bookConfig : obj :=
  [("type", VStr "web"); ("url", VStr "https://example.org/book");
   ("detectedItemType", VStr "book"); ("items", VArr [VObj rawBook])].

Definition bookTest : Test :=
  mkTest TWeb VUndef (VStr "https://example.org/book") (VStr "book")
    (Records [VObj book]).

End Example.

(** ** Invariants *)

(** A value that a JSON round trip leaves as it is. *)
Definition clean (v : value) : Prop := v <> VUndef /\ json v = v.

(** An attachments value on which the first step of [sanitizeItem] has
    nothing left to do. *)
Definition settledAttachments (attachments : value) : Prop :=
  match attachments with
  | VArr l => Forall (fun a => sanitizeAttachment a = Return a) l
  | VObj o => truthy (get "length" o) = false
  | _ => True
  end.

(** [if (o[k]) delete o[k]]: the property is falsy afterwards and the
    other properties are as they were. *)
Definition drop_truthy (k : string) (o : obj) : obj :=
  if truthy (get k o) then delete k o else o.

(** A field the filter of [sanitizeItem] passes: a skipped name, or a known
    field with a truthy value that is valid for the item type and is not
    stored under another name for that type. *)
Definition settledField (zotero : Zotero) (typeID : option nat) (item : obj)
    (field : string) : Prop :=
  skipFields_has field = true
  \/ exists fieldID,
       ItemFields_getID zotero field = Some fieldID
       /\ truthy (get field item) = true
       /\ (ItemFields_getFieldIDFromTypeAndBase zotero typeID fieldID = None
           \/ ItemFields_getFieldIDFromTypeAndBase zotero typeID fieldID
              = Some fieldID)
       /\ ItemFields_isValidForType zotero fieldID typeID = true.

(** Adjacent tags are in order: none is strictly smaller than the one
    before it. *)
Fixpoint ordered (tags : list obj) : Prop :=
  match tags with
  | [] => True
  | a :: rest =>
      match rest with
      | [] => True
      | b :: _ => tag_lt b a = false
      end /\ ordered rest
  end.

(** The records of a test case are results of the normaliser. *)
Definition normalized (zotero : Zotero) (t : Test) : Prop :=
  match _items t with
  | Multiple => True
  | Records l =>
      Forall (fun r => exists raw, sanitize zotero raw = Return r) l
  end.

(** The test cases that the operations of the class produce: the
    constructor, and every setter applied to such a test case. *)
Inductive built (zotero : Zotero) : Test -> Prop :=
| built_new testInit t :
    Test_new zotero testInit = Return t -> built zotero t
| built_set_type type t t' :
    built zotero t -> set_type type t = Return t' -> built zotero t'
| built_set_defer defer t t' :
    built zotero t -> set_defer defer t = Return t' -> built zotero t'
| built_set_input input t t' :
    built zotero t -> set_input input t = Return t' -> built zotero t'
| built_set_url url t t' :
    built zotero t -> set_url url t = Return t' -> built zotero t'
| built_set_detectedItemType detectedItemType t t' :
    built zotero t ->
    set_detectedItemType detectedItemType t = Return t' -> built zotero t'
| built_set_items items t t' :
    built zotero t -> set_items zotero items t = Return t' ->
    built zotero t'.

(** What the setters have checked on a test case fresh from the
    constructor. *)
Record checked (zotero : Zotero) (t : Test) : Prop := {
  checked_defer :
    _defer t = VUndef
    \/ (truthy (_defer t) = true
        /\ (strict_eq (_defer t) (VBool true)
            || (typeof (_defer t) =? "number")) = true);
  checked_input :
    typeof (_input t)
    = match _type t with TWeb | TImport => "string" | _ => "object" end;
  checked_items :
    match _items t with
    | Multiple => True
    | Records l => Forall (fun r => sanitize zotero r = Return r) l
    end;
  checked_detectedItemType :
    (strict_eq (_detectedItemType t) VUndef
     || (typeof (_detectedItemType t) =? "string")
     || (typeof (_detectedItemType t) =? "boolean")) = true;
  checked_inferred :
    _detectedItemType t = VUndef -> _inferItemType t = VUndef;
  checked_wf : wf (VObj (toJSON t))
}.

(** A value that is neither an array nor an object. *)
Definition primitive (v : value) : Prop :=
  match v with
  | VArr _ | VObj _ => False
  | _ => True
  end.

(** A result that honours the contract of the extraction: the detected
    item type is a string, a boolean or absent, and the items are absent,
    the sentinel, or an array of records that the normaliser accepts and
    whose normal forms have no property named [hasOwnProperty]. *)
Definition honoursContract (zotero : Zotero) (result : RunResult) : Prop :=
  (strict_eq (detectedItemType result) VUndef
   || (typeof (detectedItemType result) =? "string")
   || (typeof (detectedItemType result) =? "boolean")) = true
  /\ (truthy (items result) = false
      \/ items result = VStr "multiple"
      \/ exists raws,
           items result = VArr (map VObj raws)
           /\ Forall (fun raw => exists r,
                         sanitizeItem zotero raw = Return r
                         /\ unshadowed (VObj r) = true)
                raws).

(** A tag whose text is a string. *)
Definition textTag (t : obj) : Prop := exists s, get "tag" t = VStr s.

(** * Properties *)

(** ** Own properties *)

Lemma get_absent k o : has_key k o = false -> get k o = VUndef.
Proof.
  induction o as [|[k' v] o IH]; simpl; [reflexivity|].
  destruct (k =? k'); [discriminate | exact IH].
Qed.

Lemma get_present k o : get k o <> VUndef -> has_key k o = true.
Proof.
  intros H. destruct (has_key k o) eqn:E; [reflexivity|].
  now apply get_absent in E.
Qed.

Lemma has_key_In k o : has_key k o = true <-> In k (keys o).
Proof.
  induction o as [|[k' v] o IH]; simpl.
  - split; [discriminate | tauto].
  - destruct (String.eqb_spec k k') as [->|Hne].
    + split; auto.
    + rewrite IH. split; [auto | intros [E|H]; [congruence | exact H]].
Qed.

Lemma has_key_delete k k' o :
  has_key k (delete k' o) = negb (k =? k') && has_key k o.
Proof.
  induction o as [|[j v] o IH]; simpl.
  - now rewrite andb_false_r.
  - destruct (String.eqb_spec k' j) as [->|Hj].
    + rewrite IH. destruct (String.eqb_spec k j); simpl; reflexivity.
    + simpl. rewrite IH. destruct (String.eqb_spec k j) as [->|Hk]; simpl.
      * destruct (String.eqb_spec j k'); [congruence | reflexivity].
      * reflexivity.
Qed.

Lemma get_delete_other k k' o : k <> k' -> get k (delete k' o) = get k o.
Proof.
  intros Hne. induction o as [|[j v] o IH]; simpl; [reflexivity|].
  destruct (String.eqb_spec k' j) as [->|Hj].
  - rewrite IH. destruct (String.eqb_spec k j); [congruence | reflexivity].
  - simpl. now rewrite IH.
Qed.

Lemma delete_absent k o : has_key k o = false -> delete k o = o.
Proof.
  induction o as [|[j v] o IH]; simpl; [reflexivity|].
  destruct (k =? j); [discriminate|]. intros H. now rewrite IH.
Qed.

Lemma has_key_set k k' v o :
  has_key k (set k' v o) = (k =? k') || has_key k o.
Proof.
  induction o as [|[j w] o IH]; simpl.
  - now destruct (k =? k').
  - destruct (String.eqb_spec k' j) as [->|Hj]; simpl.
    + destruct (k =? j); reflexivity.
    + rewrite IH. destruct (String.eqb_spec k j) as [->|Hk].
      * now rewrite orb_true_r.
      * reflexivity.
Qed.

Lemma get_set_same k v o : get k (set k v o) = v.
Proof.
  induction o as [|[j w] o IH]; simpl.
  - now rewrite String.eqb_refl.
  - destruct (String.eqb_spec k j) as [->|Hj]; simpl.
    + now rewrite String.eqb_refl.
    + destruct (String.eqb_spec k j); [congruence | exact IH].
Qed.

Lemma get_set_other k k' v o : k <> k' -> get k (set k' v o) = get k o.
Proof.
  intros Hne. induction o as [|[j w] o IH]; simpl.
  - destruct (String.eqb_spec k k'); [congruence | reflexivity].
  - destruct (String.eqb_spec k' j) as [->|Hj]; simpl.
    + destruct (String.eqb_spec k j); [congruence | reflexivity].
    + now rewrite IH.
Qed.

Lemma set_get k o : has_key k o = true -> set k (get k o) o = o.
Proof.
  induction o as [|[j w] o IH]; simpl; [discriminate|].
  destruct (String.eqb_spec k j) as [->|Hj]; [reflexivity|].
  intros H. now rewrite IH.
Qed.

Lemma set_set k v w o : set k v (set k w o) = set k v o.
Proof.
  induction o as [|[j u] o IH]; simpl.
  - now rewrite String.eqb_refl.
  - destruct (String.eqb_spec k j) as [->|Hj]; simpl.
    + now rewrite String.eqb_refl.
    + destruct (String.eqb_spec k j); [congruence | now rewrite IH].
Qed.

Lemma keys_set k v o :
  has_key k o = true -> keys (set k v o) = keys o.
Proof.
  induction o as [|[j u] o IH]; simpl; [discriminate|].
  destruct (String.eqb_spec k j) as [->|Hj]; simpl; [reflexivity|].
  intros H. now rewrite IH.
Qed.

Lemma keys_delete_incl k o : incl (keys (delete k o)) (keys o).
Proof.
  induction o as [|[j u] o IH]; simpl; [apply incl_refl|].
  destruct (k =? j); simpl.
  - now apply incl_tl.
  - apply incl_cons; [now left | now apply incl_tl].
Qed.

Lemma NoDup_keys_delete k o : NoDup (keys o) -> NoDup (keys (delete k o)).
Proof.
  induction o as [|[j u] o IH]; simpl; [auto|].
  intros H. inversion H as [|? ? Hnotin Hrest]; subst.
  destruct (k =? j); simpl; [auto|].
  constructor; [|auto].
  intros Hin. apply Hnotin. now apply (keys_delete_incl k o).
Qed.

Lemma NoDup_keys_set k v o : NoDup (keys o) -> NoDup (keys (set k v o)).
Proof.
  intros H. destruct (has_key k o) eqn:E.
  - now rewrite keys_set.
  - revert H E. induction o as [|[j u] o IH]; simpl; intros H E.
    + constructor; [intros [] | constructor].
    + destruct (String.eqb_spec k j) as [->|Hj]; [discriminate|]. simpl.
      inversion H as [|? ? Hnotin Hrest]; subst.
      constructor; [|auto].
      rewrite <- has_key_In, has_key_set. rewrite <- has_key_In in Hnotin.
      destruct (String.eqb_spec j k); [congruence|]. simpl.
      now destruct (has_key j o).
Qed.

(** ** Strict equality and truthiness *)

Lemma strict_eq_refl v :
  match v with VArr _ | VObj _ => True | _ => strict_eq v v = true end.
Proof.
  destruct v; simpl; auto.
  - now destruct b.
  - apply Z.eqb_refl.
  - apply String.eqb_refl.
Qed.

Lemma strict_eq_true a b : strict_eq a b = true -> a = b.
Proof.
  destruct a, b; simpl; try discriminate; try reflexivity; intros H.
  - f_equal. now apply Bool.eqb_prop.
  - f_equal. now apply Z.eqb_eq.
  - f_equal. now apply String.eqb_eq.
Qed.

Lemma nullish_truthy a b : truthy a = true -> nullish a b = a.
Proof. destruct a; simpl; congruence. Qed.

(** ** The example test cases are the ones the constructor builds *)

Lemma example_tests_constructed :
  Test_new Example.zotero Example.exportConfig = Return Example.exportTest
  /\ Test_new Example.zotero Example.emptyWebConfig
     = Return Example.emptyWebTest
  /\ Test_new Example.zotero Example.multipleConfig
     = Return Example.multipleTest
  /\ Test_new Example.zotero Example.bookConfig = Return Example.bookTest
  /\ Test_new Example.zotero Example.objectQueryConfig
     = Return Example.objectQueryTest
  /\ Test_new Example.zotero Example.numberQueryConfig
     = Return Example.numberQueryTest.
Proof. repeat split; vm_compute; reflexivity. Qed.

(** ** The runner *)

Section RunnerFacts.

Variable zotero : Zotero.

Lemma caught_throw e k :
  caught (Throw e) k
  = Return (mkOutcome failure (Some (VStr (String_exn e))) None).
Proof. reflexivity. Qed.

Lemma run_dispatch test c :
  _type test <> TExport ->
  run zotero test c = caught (extraction test c) (classify zotero test).
Proof.
  unfold run, extraction. destruct (_type test); intros H;
    [reflexivity | reflexivity | congruence | reflexivity].
Qed.

(** Every answer of [_translateWeb] without records is falsy in [items]:
    an empty list is replaced by [null]. *)
Lemma translateWeb_items test env result :
  _translateWeb test env = Return result ->
  truthy (items result) = false
  \/ items result = VStr "multiple"
  \/ (no_length (items result) = false /\ numSelectItemsCalls env = 0%nat).
Proof.
  unfold _translateWeb.
  destruct (get_url test); simpl; [|discriminate].
  destruct (fetchPage env); simpl; [|discriminate].
  destruct (try_finally _ _) as [r|]; simpl; [|discriminate].
  destruct (negb (truthy (items r)) && truthy (reason r)) eqn:E1.
  { intros [= <-]. simpl. left.
    apply andb_prop in E1. now destruct (truthy (items r)). }
  destruct (no_length (items r)) eqn:E2; [intros [= <-]; now left|].
  destruct (1 <? numSelectItemsCalls env)%nat; [intros [= <-]; now left|].
  destruct (Nat.eqb_spec (numSelectItemsCalls env) 0) as [E3|E3]; simpl;
    intros [= <-]; simpl; auto.
Qed.

(** C8, as the code has it: when a result carries records, [run] first
    builds the updated test (a copy of the expected test, given the
    observed type and the observed items), outside every [try].  If that
    throws, [run] throws the same error.  Once the updated test is built,
    a detected type other than the expected one is reported first,
    whatever the items on either side are. *)
Theorem run_wrong_item_type_first
    (test : Test) (c : Collaborators) (result : RunResult) :
  _type test <> TExport ->
  extraction test c = Return result ->
  truthy (items result) = true ->
  let updatedTest :=
    cloned <- Test_clone zotero test ;;
    typed <- set_detectedItemType (detectedItemType result) cloned ;;
    set_items zotero (items result) typed in
  (forall name message,
     updatedTest = Throw (JsError name message) ->
     run zotero test c = Throw (JsError name message))
  /\ (forall updated,
        updatedTest = Return updated ->
        strict_eq (_detectedItemType test) (detectedItemType result) = false ->
        run zotero test c
        = Return (mkOutcome failure
                    (Some (VStr "Detection returned wrong item type"))
                    (Some updated))
        /\ _detectedItemType updated = detectedItemType result).
Proof.
  intros Hty Hres Hitems updatedTest. subst updatedTest.
  assert (Hrun : run zotero test c = classify zotero test result)
    by (now rewrite run_dispatch, Hres).
  rewrite Hrun. unfold classify. rewrite Hitems. cbn [negb].
  destruct (Test_clone zotero test) as [cloned|e1]; cbn [bind].
  2:{ split; [now intros name message [= ->] | discriminate]. }
  destruct (set_detectedItemType (detectedItemType result) cloned)
    as [typed|e2] eqn:Htyped; cbn [bind].
  2:{ split; [now intros name message [= ->] | discriminate]. }
  destruct (set_items zotero (items result) typed) as [updated|e3] eqn:Hupd;
    cbn [bind].
  2:{ split; [now intros name message [= ->] | discriminate]. }
  split; [discriminate|]. intros u [= <-] Hne. rewrite Hne. cbn [negb].
  split; [reflexivity|].
  assert (Hd : _detectedItemType typed = detectedItemType result).
  { unfold set_detectedItemType in Htyped.
    destruct (_ && _); [discriminate|]. now inversion Htyped. }
  rewrite <- Hd. unfold set_items in Hupd.
  destruct (items result) as [| | | |s|l|]; try discriminate.
  - destruct (s =? "multiple"); [|discriminate]. now inversion Hupd.
  - destruct (mapM _ l); [|discriminate]. simpl in Hupd.
    now inversion Hupd.
Qed.

(** What [_translateWeb] collects when the translation returned no
    records: the detected type as it came, and items that are falsy. *)
Lemma translateWeb_without_records test env loaded raw :
  _type test = TWeb ->
  fetchPage env = Return tt ->
  waitForLoad env = Return loaded ->
  runTranslation env = Return raw ->
  destroy env = Return tt ->
  no_length (items raw) = true ->
  exists collected,
    _translateWeb test env = Return collected
    /\ truthy (items collected) = false
    /\ detectedItemType collected = detectedItemType raw.
Proof.
  intros Hty Hf Hw Hr Hd Hlen.
  unfold _translateWeb, get_url. rewrite Hty, Hf, Hw, Hr, Hd. simpl.
  destruct (truthy (items raw)) eqn:Et; simpl.
  - rewrite Hlen. eexists. split; [reflexivity|]. auto.
  - destruct (truthy (reason raw)).
    + eexists. split; [reflexivity|]. auto.
    + rewrite Hlen. eexists. split; [reflexivity|]. auto.
Qed.

(** C9: a result without records is a success exactly in the expected
    detection failure -- nothing detected and [false] expected -- and
    otherwise a failure with the reason that was collected.  For a web
    test this is the run in which the translation detects nothing and
    returns no records. *)
Theorem run_without_records
    (test : Test) (c : Collaborators) (result : RunResult) :
  _type test <> TExport ->
  extraction test c = Return result ->
  truthy (items result) = false ->
  (truthy (detectedItemType result) = false ->
   _detectedItemType test = VBool false ->
   run zotero test c = Return (mkOutcome success None None))
  /\ (truthy (detectedItemType result) = true
      \/ _detectedItemType test <> VBool false ->
      run zotero test c
      = Return (mkOutcome failure (Some (reason result)) None))
  /\ (_type test = TWeb ->
      forall loaded raw,
        fetchPage (webTranslationEnvironment c) = Return tt ->
        waitForLoad (webTranslationEnvironment c) = Return loaded ->
        runTranslation (webTranslationEnvironment c) = Return raw ->
        destroy (webTranslationEnvironment c) = Return tt ->
        no_length (items raw) = true ->
        truthy (detectedItemType raw) = false ->
        _detectedItemType test = VBool false ->
        run zotero test c = Return (mkOutcome success None None)).
Proof.
  intros Hty Hres Hitems.
  assert (Hsuccess : forall r,
            extraction test c = Return r ->
            truthy (items r) = false ->
            truthy (detectedItemType r) = false ->
            _detectedItemType test = VBool false ->
            run zotero test c = Return (mkOutcome success None None)).
  { intros r Hr Hi Hd He. rewrite run_dispatch, Hr by assumption. simpl.
    unfold classify. now rewrite Hi, Hd, He. }
  split; [|split].
  - intros Hd He. now apply (Hsuccess result).
  - rewrite run_dispatch, Hres by assumption. simpl. unfold classify.
    rewrite Hitems. simpl. intros [Hd|He].
    + now rewrite Hd.
    + destruct (strict_eq (_detectedItemType test) (VBool false)) eqn:E.
      * apply strict_eq_true in E. contradiction.
      * now rewrite andb_false_r.
  - intros Hweb loaded raw Hf Hw Hr Hd Hlen Hdet He.
    destruct (translateWeb_without_records test _ loaded raw
                Hweb Hf Hw Hr Hd Hlen) as [collected [Hc [Hi Hdit]]].
    apply (Hsuccess collected); auto.
    + unfold extraction. now rewrite Hweb.
    + now rewrite Hdit.
Qed.

(** C2, as the code has it: when the selection handler ran more than once
    and the translation returned at least one record, the collected result
    is the failure "Translator called selectItems multiple times"; without
    records the no-records failure comes first. *)
Theorem translateWeb_selectItems_twice
    (test : Test) (env : WebRun) (loaded : bool) (result : RunResult) :
  _type test = TWeb ->
  fetchPage env = Return tt ->
  waitForLoad env = Return loaded ->
  runTranslation env = Return result ->
  destroy env = Return tt ->
  (1 < numSelectItemsCalls env)%nat ->
  (no_length (items result) = false ->
   _translateWeb test env
   = Return (mkResult (detectedItemType result) VNull
               (VStr "Translator called selectItems multiple times")))
  /\ (no_length (items result) = true ->
      _translateWeb test env
      = Return (if negb (truthy (items result)) && truthy (reason result)
                then mkResult (detectedItemType result) (items result)
                       (reason result)
                else mkResult (detectedItemType result) VNull
                       (VStr "Translator did not return any items"))).
Proof.
  intros Hty Hf Hw Hr Hd Hn.
  unfold _translateWeb, get_url. rewrite Hty, Hf, Hw, Hr, Hd. simpl.
  apply Nat.ltb_lt in Hn. split; intros Hlen.
  - assert (Ht : truthy (items result) = true).
    { destruct (items result) as [| | | |s|l|o]; simpl in *;
        try discriminate; try reflexivity.
      destruct s; [discriminate | reflexivity]. }
    now rewrite Ht, Hlen, Hn.
  - destruct (negb (truthy (items result)) && truthy (reason result));
      [reflexivity | now rewrite Hlen].
Qed.

End RunnerFacts.

(** An export test makes [run] throw: no result is returned. *)
Lemma run_export_throws :
  _type Example.exportTest = TExport
  /\ run Example.zotero Example.exportTest
       (Example.collaborators Example.idleWeb Example.idleEngine)
     = Throw (Error "Export tests are not yet supported")
  /\ forall outcome,
       run Example.zotero Example.exportTest
         (Example.collaborators Example.idleWeb Example.idleEngine)
       <> Return outcome.
Proof. repeat split. intros outcome. discriminate. Qed.

(** A page that is detected as the number 5 and yields one record, for a
    test that expects a book: the observed type differs from the expected
    one, and [run] throws the error of the [detectedItemType] setter
    instead of returning a failure. *)
Lemma run_number_type_throws :
  let result := mkResult (VNum 5) (VArr [VObj Example.rawBook]) VUndef in
  let c := Example.collaborators (Example.webRun result 0)
             Example.idleEngine in
  extraction Example.bookTest c = Return result
  /\ truthy (items result) = true
  /\ strict_eq (_detectedItemType Example.bookTest) (detectedItemType result)
     = false
  /\ run Example.zotero Example.bookTest c
     = Throw (Error "detectedItemType must be a string or boolean").
Proof. repeat split. Qed.

(** The handler ran twice and the translation returned an empty list: the
    reason collected is the one for missing records. *)
Lemma translateWeb_twice_without_records :
  let env := Example.webRun (mkResult (VStr "book") (VArr []) VUndef) 2 in
  (1 < numSelectItemsCalls env)%nat
  /\ _translateWeb Example.emptyWebTest env
     = Return (mkResult (VStr "book") VNull
                 (VStr "Translator did not return any items"))
  /\ VStr "Translator did not return any items"
     <> VStr "Translator called selectItems multiple times".
Proof. simpl. repeat split; [lia | discriminate]. Qed.

(** ** Serialisation of the detected item type *)

(** C4, as the code has it: [toJSON] leaves [detectedItemType] out when the
    stored value is truthy and equal to the inferred one; a falsy stored
    value ([false], the empty string, [undefined]) is written as it is. *)
Theorem toJSON_omits_truthy_inferred_type (t : Test) :
  (truthy (_detectedItemType t) = true ->
   strict_eq (_detectedItemType t) (_inferItemType t) = true ->
   get "detectedItemType" (toJSON t) = VUndef
   /\ has_key "detectedItemType" (json_obj (toJSON t)) = false)
  /\ (truthy (_detectedItemType t) = false ->
      get "detectedItemType" (toJSON t) = _detectedItemType t).
Proof.
  split.
  - intros Ht He. unfold toJSON. rewrite Ht, He. simpl. split.
    + now destruct (_type t).
    + destruct (_type t), (_defer t), (_input t), (_items t); reflexivity.
  - intros Hf. unfold toJSON. rewrite Hf. simpl. now destruct (_type t).
Qed.

(** A stored [false] that equals the inferred [false] is serialised. *)
Lemma toJSON_keeps_inferred_false :
  _detectedItemType Example.emptyWebTest = VBool false
  /\ _inferItemType Example.emptyWebTest = VBool false
  /\ get "detectedItemType" (toJSON Example.emptyWebTest) = VBool false
  /\ has_key "detectedItemType" (json_obj (toJSON Example.emptyWebTest))
     = true.
Proof. repeat split. Qed.

(** ** The fields the normaliser skips *)

Section NormaliserKeeps.

Variable zotero : Zotero.

Lemma skipFields_has_In field :
  In field skipFields -> skipFields_has field = true.
Proof.
  intros H. unfold skipFields_has. apply existsb_exists.
  exists field. split; [exact H | apply String.eqb_refl].
Qed.

Lemma sanitizeAttachments_get item item1 k :
  sanitizeAttachments item = Return item1 ->
  get k item <> VUndef -> get k item1 <> VUndef.
Proof.
  unfold sanitizeAttachments. intros H Hk.
  destruct (get "attachments" item) as [| | | | |[|a l]|o] eqn:E;
    try (inversion H; subst; exact Hk).
  - destruct (mapM sanitizeAttachment (a :: l)) as [l'|]; [|discriminate].
    simpl in H. inversion H; subst.
    destruct (String.eqb_spec k "attachments") as [->|Hne].
    + rewrite get_set_same. discriminate.
    + now rewrite get_set_other.
  - destruct (truthy (get "length" o)); [discriminate|].
    inversion H; subst. exact Hk.
Qed.

Lemma json_obj_has_key k o :
  get k o <> VUndef -> has_key k (json_obj o) = true.
Proof.
  induction o as [|[j v] o IH]; simpl; [congruence|].
  destruct (String.eqb_spec k j) as [->|Hne].
  - intros Hv. destruct v; try congruence; simpl;
      now rewrite String.eqb_refl.
  - intros Hk. specialize (IH Hk).
    destruct v; simpl; try exact IH;
      destruct (String.eqb_spec k j); congruence.
Qed.

Lemma visitField_keeps_skipped typeID item field k :
  skipFields_has k = true ->
  has_key k item = true ->
  has_key k (visitField zotero typeID item field) = true.
Proof.
  intros Hskip Hk. unfold visitField.
  destruct (has_key field item); simpl; [|exact Hk].
  destruct (skipFields_has field) eqn:Hf; [exact Hk|].
  assert (Hne : k <> field) by (intros ->; congruence).
  assert (Hdel : forall o, has_key k o = true ->
                           has_key k (delete field o) = true).
  { intros o Ho. rewrite has_key_delete, Ho.
    destruct (String.eqb_spec k field); [contradiction | reflexivity]. }
  destruct (ItemFields_getID zotero field) as [fieldID|]; [|now apply Hdel].
  destruct (truthy (get field item)); simpl; [|now apply Hdel].
  assert (Hval : has_key k
                   (if ItemFields_isValidForType zotero fieldID typeID
                    then item else delete field item) = true).
  { destruct (ItemFields_isValidForType zotero fieldID typeID);
      [exact Hk | now apply Hdel]. }
  destruct (ItemFields_getFieldIDFromTypeAndBase zotero typeID fieldID)
    as [subfieldID|]; [|exact Hval].
  destruct (negb (subfieldID =? fieldID)%nat); [|exact Hval].
  apply Hdel. rewrite has_key_set, Hk. apply orb_true_r.
Qed.

Lemma sanitizeFields_keeps_skipped item k :
  skipFields_has k = true ->
  has_key k item = true ->
  has_key k (sanitizeFields zotero item) = true.
Proof.
  intros Hskip. unfold sanitizeFields.
  generalize (ItemTypes_getID zotero (get "itemType" item)) as typeID.
  intros typeID. generalize (keys item) as ks.
  intros ks. revert item. induction ks as [|f ks IH]; simpl; intros item Hk.
  - exact Hk.
  - apply IH. now apply visitField_keeps_skipped.
Qed.

(** C3, as the code has it: the nine names of [skipFields] are the fields
    the filter passes over.  Each of them that the record carries is still
    there in the normalised record. *)
Theorem sanitizeItem_keeps_skipped_fields (item out : obj) (field : string) :
  In field skipFields ->
  get field item <> VUndef ->
  sanitizeItem zotero item = Return out ->
  has_key field out = true.
Proof.
  intros Hin Hget H. unfold sanitizeItem in H.
  destruct (sanitizeAttachments item) as [item1|] eqn:E1; [|discriminate].
  simpl in H. inversion H; subst; clear H.
  pose proof (skipFields_has_In _ Hin) as Hskip.
  assert (H3 : has_key field (sanitizeFields zotero (json_obj item1)) = true).
  { apply sanitizeFields_keeps_skipped; [exact Hskip|].
    apply json_obj_has_key. eapply sanitizeAttachments_get; eauto. }
  assert (H4 : has_key field
                 (delete "accessDate"
                    (sanitizeFields zotero (json_obj item1))) = true).
  { rewrite has_key_delete, H3.
    destruct (String.eqb_spec field "accessDate") as [->|]; [|reflexivity].
    simpl in Hin. repeat (destruct Hin as [Hin|Hin]; [discriminate|]).
    contradiction. }
  unfold sanitizeTags.
  destruct (get "tags" _); try exact H4.
  rewrite has_key_set, H4. apply orb_true_r.
Qed.

End NormaliserKeeps.

(** A raw book record carrying all nine fields keeps every one of them. *)
Lemma sanitizeItem_book_keeps_meta_fields :
  sanitizeItem Example.zotero Example.rawBook = Return Example.book
  /\ forallb (fun field => has_key field Example.book) skipFields = true.
Proof. split; vm_compute; reflexivity. Qed.

(** ** Well-formed values *)

Lemma wf_arr l : wf (VArr l) <-> Forall wf l.
Proof.
  induction l as [|x l IH].
  - simpl. split; auto.
  - change (wf (VArr (x :: l))) with (wf x /\ wf (VArr l)).
    rewrite IH. split.
    + intros [Hx Hl]. now constructor.
    + intros H. inversion H; subst. now split.
Qed.

Lemma wf_obj o :
  wf (VObj o) <-> NoDup (keys o) /\ Forall (fun kv => wf (snd kv)) o.
Proof.
  assert (Hall : (fix all (o : obj) : Prop :=
                    match o with
                    | [] => True
                    | kv :: o' => wf (snd kv) /\ all o'
                    end) o <-> Forall (fun kv => wf (snd kv)) o).
  { induction o as [|kv o IH].
    - split; auto.
    - rewrite IH. split.
      + intros [Hx Hl]. now constructor.
      + intros H. inversion H; subst. now split. }
  change (wf (VObj o)) with
    (NoDup (map fst o) /\
     (fix all (o : obj) : Prop :=
        match o with
        | [] => True
        | kv :: o' => wf (snd kv) /\ all o'
        end) o).
  now rewrite Hall.
Qed.

Lemma get_In k v o : NoDup (keys o) -> In (k, v) o -> get k o = v.
Proof.
  induction o as [|[j w] o IH]; simpl; [tauto|].
  intros Hnd [E|Hin].
  - inversion E; subst. now rewrite String.eqb_refl.
  - inversion Hnd as [|? ? Hnotin Hrest]; subst.
    destruct (String.eqb_spec k j) as [->|Hne]; [|auto].
    exfalso. apply Hnotin. change j with (fst (j, v)). now apply in_map.
Qed.

Lemma get_wf k o : wf (VObj o) -> wf (get k o).
Proof.
  rewrite wf_obj. intros [_ Hall].
  induction Hall as [|[j w] o Hw Hall IH]; simpl; [exact I|].
  destruct (k =? j); [exact Hw | exact IH].
Qed.

Lemma get_Forall (P : value -> Prop) k o :
  Forall (fun kv => P (snd kv)) o -> has_key k o = true -> P (get k o).
Proof.
  intros Hall. induction Hall as [|[j w] o Hw Hall IH]; simpl;
    [discriminate|].
  destruct (k =? j); [intros _; exact Hw | exact IH].
Qed.

Lemma delete_Forall (P : string * value -> Prop) k o :
  Forall P o -> Forall P (delete k o).
Proof.
  intros Hall. induction Hall as [|[j w] o Hw Hall IH]; simpl;
    [constructor|].
  destruct (k =? j); [exact IH | now constructor].
Qed.

Lemma set_Forall (P : value -> Prop) k v o :
  P v -> Forall (fun kv => P (snd kv)) o ->
  Forall (fun kv => P (snd kv)) (set k v o).
Proof.
  intros Hv Hall. induction Hall as [|[j w] o Hw Hall IH]; simpl.
  - now repeat constructor.
  - destruct (k =? j); now constructor.
Qed.

(** ** [deepEqual] *)

Section DeepEqualFacts.

Variable zotero : Zotero.

Lemma deepEqual_arr la lb :
  deepEqual zotero (VArr la) (VArr lb) = deepEqual_elements zotero la lb.
Proof.
  destruct la, lb; reflexivity.
Qed.

Lemma deepEqual_obj fa b :
  deepEqual zotero (VObj fa) b
  = match b with
    | VNull | VArr _ => Return false
    | _ =>
        r <- deepEqual_properties zotero (VObj fa) b fa ;;
        if r then deepEqual_keys (VObj fa) b (enum_keys b)
        else Return false
    end.
Proof.
  destruct b; reflexivity.
Qed.

Lemma hasOwnProperty_obj name o key :
  has_key "hasOwnProperty" o = false ->
  hasOwnProperty name (VObj o) key = Return (has_key key o).
Proof. intros H. simpl. now rewrite H. Qed.

Lemma hasOwnProperty_shadowed name o key :
  has_key "hasOwnProperty" o = true ->
  hasOwnProperty name (VObj o) key
  = Throw (TypeError (name ++ ".hasOwnProperty is not a function")).
Proof. intros H. simpl. now rewrite H. Qed.

Lemma unshadowed_arr l :
  unshadowed (VArr l) = true <-> Forall (fun x => unshadowed x = true) l.
Proof.
  simpl. rewrite forallb_forall, Forall_forall. reflexivity.
Qed.

Lemma unshadowed_obj o :
  unshadowed (VObj o) = true
  <-> has_key "hasOwnProperty" o = false
      /\ Forall (fun kv => unshadowed (snd kv) = true) o.
Proof.
  simpl. rewrite andb_true_iff, negb_true_iff, forallb_forall,
    Forall_forall. reflexivity.
Qed.

Lemma get_unshadowed k o :
  unshadowed (VObj o) = true -> unshadowed (get k o) = true.
Proof.
  rewrite unshadowed_obj. intros [_ Hall].
  induction Hall as [|[j w] o Hw Hall IH]; simpl; [reflexivity|].
  destruct (k =? j); [exact Hw | exact IH].
Qed.

(** Between two objects without a property named [hasOwnProperty], the
    second loop tests whether every key of [b] is a key of [a]. *)
Lemma deepEqual_keys_obj fa fb rest :
  has_key "hasOwnProperty" fa = false ->
  has_key "hasOwnProperty" fb = false ->
  incl rest (keys fb) ->
  deepEqual_keys (VObj fa) (VObj fb) rest
  = Return (forallb (fun key => has_key key fa) rest).
Proof.
  intros Ha Hb. induction rest as [|k rest IH]; intros Hincl;
    [reflexivity|].
  assert (Hk : has_key k fb = true)
    by (apply has_key_In, Hincl; now left).
  cbn [deepEqual_keys forallb].
  rewrite (hasOwnProperty_obj "b" fb k Hb), Hk. cbn [bind].
  rewrite (hasOwnProperty_obj "a" fa k Ha). cbn [bind].
  destruct (has_key k fa); [|reflexivity].
  apply IH. intros j Hj. apply Hincl. now right.
Qed.

Lemma deepEqual_elements_refl l :
  Forall (fun x => deepEqual zotero x x = Return true) l ->
  deepEqual_elements zotero l l = Return true.
Proof.
  induction 1 as [|x l Hx Hl IH]; simpl; [reflexivity|].
  rewrite Hx. simpl. exact IH.
Qed.

Lemma deepEqual_properties_refl oa o rest :
  NoDup (keys o) ->
  has_key "hasOwnProperty" oa = false ->
  has_key "hasOwnProperty" o = false ->
  incl rest o ->
  Forall (fun kv => deepEqual zotero (snd kv) (snd kv) = Return true) rest ->
  deepEqual_properties zotero (VObj oa) (VObj o) rest = Return true.
Proof.
  intros Hnd Hown' Hown Hincl Hall.
  induction Hall as [|[k x] rest Hx Hall IH]; [reflexivity|].
  assert (Hin : In (k, x) o) by (apply Hincl; now left).
  assert (Hk : has_key k o = true).
  { apply has_key_In. change k with (fst (k, x)). now apply in_map. }
  assert (Hrest : deepEqual_properties zotero (VObj oa) (VObj o) rest
                  = Return true).
  { apply IH. intros kv Hkv. apply Hincl. now right. }
  cbn [deepEqual_properties].
  rewrite (hasOwnProperty_obj "a" oa k Hown'). cbn [bind].
  destruct (has_key k oa); [|exact Hrest].
  rewrite (hasOwnProperty_obj "b" o k Hown), Hk. cbn [bind own_prop].
  rewrite (get_In k x o Hnd Hin).
  simpl in Hx. rewrite Hx. cbn [bind]. exact Hrest.
Qed.

(** A value in which no object has a property named [hasOwnProperty] is
    equal to itself. *)
Lemma deepEqual_refl v :
  wf v -> unshadowed v = true -> deepEqual zotero v v = Return true.
Proof.
  induction v as [| |b|n|s|l IH|o IH] using value_ind; intros Hwf Hun;
    try reflexivity.
  - simpl. now destruct b.
  - simpl. now rewrite Z.eqb_refl.
  - simpl. now rewrite String.eqb_refl.
  - rewrite deepEqual_arr. apply deepEqual_elements_refl.
    apply wf_arr in Hwf. apply unshadowed_arr in Hun.
    rewrite Forall_forall in *. intros x Hx. auto.
  - rewrite deepEqual_obj. apply wf_obj in Hwf. destruct Hwf as [Hnd Hall].
    apply unshadowed_obj in Hun. destruct Hun as [Hown Hun].
    rewrite (deepEqual_properties_refl o o o Hnd Hown Hown (incl_refl o)).
    + cbn [bind enum_keys].
      rewrite (deepEqual_keys_obj o o (keys o) Hown Hown (incl_refl _)).
      f_equal. apply forallb_forall. intros k Hk.
      now apply has_key_In.
    + rewrite Forall_forall in *. intros kv Hkv. auto.
Qed.

(** Every test case whose serialisation has no property named
    [hasOwnProperty] is equal to itself. *)
Lemma equals_refl t :
  wf (VObj (toJSON t)) -> unshadowed (VObj (toJSON t)) = true ->
  equals zotero t t = Return true.
Proof. intros H Hun. now apply deepEqual_refl. Qed.

End DeepEqualFacts.

(** C5 at a pair of search tests whose queries hold an object on one side
    and a number on the other: the comparison succeeds from the side of the
    object and fails from the side of the number. *)
Theorem equals_object_against_number :
  Test_new Example.zotero Example.objectQueryConfig
  = Return Example.objectQueryTest
  /\ Test_new Example.zotero Example.numberQueryConfig
     = Return Example.numberQueryTest
  /\ equals Example.zotero Example.objectQueryTest Example.numberQueryTest
     = Return true
  /\ equals Example.zotero Example.numberQueryTest Example.objectQueryTest
     = Return false
  /\ deepEqual Example.zotero (VObj []) (VNum 5) = Return true
  /\ deepEqual Example.zotero (VNum 5) (VObj []) = Return false.
Proof. repeat split; vm_compute; reflexivity. Qed.

(** ** The JSON round trip *)

Lemma json_obj_eq o : json (VObj o) = VObj (json_obj o).
Proof. reflexivity. Qed.

Lemma json_arr_eq l : json (VArr l) = VArr (map json_elem l).
Proof. reflexivity. Qed.

Lemma json_undef v : json v = VUndef -> v = VUndef.
Proof. destruct v; simpl; congruence. Qed.

Lemma truthy_json v : truthy (json v) = truthy v.
Proof. destruct v; reflexivity. Qed.

Lemma json_elem_clean_fix x : clean x -> json_elem x = x.
Proof. intros [Hne Hx]. destruct x; try congruence; exact Hx. Qed.

Lemma json_obj_fix o :
  Forall (fun kv => clean (snd kv)) o -> json_obj o = o.
Proof.
  induction 1 as [|[k x] o [Hne Hx] Hall IH]; simpl; [reflexivity|].
  simpl in Hne, Hx. rewrite IH.
  destruct x; try congruence; now rewrite Hx.
Qed.

Lemma json_idem v : json (json v) = json v.
Proof.
  induction v as [| |b|n|s|l IH|o IH] using value_ind; try reflexivity.
  - rewrite !json_arr_eq. f_equal. rewrite map_map.
    apply map_ext_in. intros x Hx. rewrite Forall_forall in IH.
    specialize (IH x Hx). destruct x; try reflexivity; exact IH.
  - rewrite !json_obj_eq. f_equal.
    induction IH as [|[k x] o Hx Hall IHo]; simpl; [reflexivity|].
    simpl in Hx.
    destruct x; try exact IHo; simpl; f_equal; try exact IHo;
      f_equal; exact Hx.
Qed.

Lemma json_clean v : v <> VUndef -> clean (json v).
Proof.
  intros Hne. split; [|apply json_idem].
  intros H. now apply json_undef in H.
Qed.

Lemma json_obj_clean o : Forall (fun kv => clean (snd kv)) (json_obj o).
Proof.
  induction o as [|[k x] o IH]; simpl; [constructor|].
  destruct x; try exact IH; constructor; try exact IH;
    apply json_clean; discriminate.
Qed.

Lemma json_obj_keys_incl o : incl (keys (json_obj o)) (keys o).
Proof.
  induction o as [|[k x] o IH]; simpl; [apply incl_refl|].
  destruct x; try (now apply incl_tl);
    (apply incl_cons; [now left | now apply incl_tl]).
Qed.

Lemma json_obj_NoDup o : NoDup (keys o) -> NoDup (keys (json_obj o)).
Proof.
  induction o as [|[k x] o IH]; simpl; [auto|].
  intros H. inversion H as [|? ? Hnotin Hrest]; subst.
  assert (Hk : ~ In k (keys (json_obj o))).
  { intros Hin. apply Hnotin. now apply json_obj_keys_incl. }
  destruct x; auto; constructor; auto.
Qed.

Lemma get_json_obj k o :
  NoDup (keys o) -> get k (json_obj o) = json (get k o).
Proof.
  induction o as [|[j x] o IH]; simpl; [reflexivity|].
  intros H. inversion H as [|? ? Hnotin Hrest]; subst.
  destruct (String.eqb_spec k j) as [->|Hne].
  - destruct x; simpl; rewrite ?String.eqb_refl; try reflexivity.
    apply get_absent. destruct (has_key j (json_obj o)) eqn:E;
      [|reflexivity].
    exfalso. apply Hnotin. apply json_obj_keys_incl. now apply has_key_In.
  - destruct x; simpl; auto;
      destruct (String.eqb_spec k j); auto; congruence.
Qed.

Lemma json_wf v : wf v -> wf (json v).
Proof.
  induction v as [| |b|n|s|l IH|o IH] using value_ind; intros Hwf;
    try exact I.
  - rewrite json_arr_eq. apply wf_arr in Hwf. apply wf_arr.
    rewrite Forall_forall in *. intros y Hy.
    apply in_map_iff in Hy. destruct Hy as [x [<- Hx]].
    specialize (IH x Hx (Hwf x Hx)). destruct x; try exact I; exact IH.
  - rewrite json_obj_eq. apply wf_obj in Hwf. destruct Hwf as [Hnd Hall].
    apply wf_obj. split; [now apply json_obj_NoDup|].
    clear Hnd. induction IH as [|[k x] o Hx Hrest IHo]; simpl;
      [constructor|].
    inversion Hall as [|? ? Hwx Hall']; subst. simpl in Hx, Hwx.
    destruct x; auto; constructor; auto.
Qed.

(** ** Attachments *)

Lemma mapM_Forall2 {A B : Type} (f : A -> completion B) l l' :
  mapM f l = Return l' -> Forall2 (fun x y => f x = Return y) l l'.
Proof.
  revert l'. induction l as [|x l IH]; simpl; intros l' H.
  - inversion H. constructor.
  - destruct (f x) as [y|] eqn:Ex; [|discriminate]. simpl in H.
    destruct (mapM f l) as [ys|]; [|discriminate]. simpl in H.
    inversion H; subst. constructor; auto.
Qed.

Lemma mapM_fixed {A : Type} (f : A -> completion A) l :
  Forall (fun x => f x = Return x) l -> mapM f l = Return l.
Proof.
  induction 1 as [|x l Hx Hall IH]; simpl; [reflexivity|].
  now rewrite Hx, IH.
Qed.

Lemma drop_truthy_falsy k o : truthy (get k (drop_truthy k o)) = false.
Proof.
  unfold drop_truthy. destruct (truthy (get k o)) eqn:E; [|exact E].
  rewrite get_absent; [reflexivity|].
  rewrite has_key_delete, String.eqb_refl. reflexivity.
Qed.

Lemma drop_truthy_other k k' o :
  k' <> k -> get k' (drop_truthy k o) = get k' o.
Proof.
  intros Hne. unfold drop_truthy. destruct (truthy (get k o));
    [now apply get_delete_other | reflexivity].
Qed.

Lemma drop_truthy_NoDup k o : NoDup (keys o) -> NoDup (keys (drop_truthy k o)).
Proof.
  unfold drop_truthy. destruct (truthy (get k o));
    [apply NoDup_keys_delete | auto].
Qed.

Lemma sanitizeAttachment_obj o :
  sanitizeAttachment (VObj o)
  = Return (VObj (drop_truthy "complete"
                    (drop_truthy "url"
                       (if truthy (get "document" o)
                        then set "mimeType" (VStr "text/html")
                               (delete "document" o)
                        else o)))).
Proof. reflexivity. Qed.

Lemma sanitizeAttachment_settled_obj o :
  truthy (get "document" o) = false ->
  truthy (get "url" o) = false ->
  truthy (get "complete" o) = false ->
  sanitizeAttachment (VObj o) = Return (VObj o).
Proof.
  intros Hd Hu Hc. rewrite sanitizeAttachment_obj, Hd.
  unfold drop_truthy. now rewrite Hu, Hc.
Qed.

(** What one attachment looks like after its turn and a JSON round trip:
    a second turn changes nothing. *)
Lemma sanitizeAttachment_json a a' :
  wf a ->
  sanitizeAttachment a = Return a' ->
  sanitizeAttachment (json_elem a') = Return (json_elem a').
Proof.
  intros Hwf H. destruct a as [| |b|n|s|l|o]; try discriminate;
    try (inversion H; subst; reflexivity).
  rewrite sanitizeAttachment_obj in H. inversion H; subst; clear H.
  apply wf_obj in Hwf. destruct Hwf as [Hnd _].
  set (o1 := if truthy (get "document" o)
             then set "mimeType" (VStr "text/html") (delete "document" o)
             else o).
  assert (Hnd1 : NoDup (keys o1)).
  { unfold o1. destruct (truthy (get "document" o)); [|exact Hnd].
    now apply NoDup_keys_set, NoDup_keys_delete. }
  assert (Hd1 : truthy (get "document" o1) = false).
  { unfold o1. destruct (truthy (get "document" o)) eqn:E; [|exact E].
    rewrite get_set_other by discriminate.
    rewrite get_absent; [reflexivity|].
    rewrite has_key_delete. reflexivity. }
  set (o3 := drop_truthy "complete" (drop_truthy "url" o1)).
  assert (Hnd3 : NoDup (keys o3)) by now apply drop_truthy_NoDup, drop_truthy_NoDup.
  simpl. apply sanitizeAttachment_settled_obj;
    rewrite (get_json_obj _ _ Hnd3), truthy_json; unfold o3.
  - rewrite !drop_truthy_other by discriminate. exact Hd1.
  - rewrite drop_truthy_other by discriminate. apply drop_truthy_falsy.
  - apply drop_truthy_falsy.
Qed.

Lemma sanitizeAttachment_json_all xs ys :
  Forall wf xs ->
  Forall2 (fun x y => sanitizeAttachment x = Return y) xs ys ->
  Forall (fun a => sanitizeAttachment a = Return a) (map json_elem ys).
Proof.
  intros Hwf H. induction H as [|x y xs ys Hxy Hrest IH]; simpl;
    [constructor|].
  inversion Hwf; subst. constructor; [|auto].
  eapply sanitizeAttachment_json; eauto.
Qed.

Lemma sanitizeAttachments_NoDup item item1 :
  sanitizeAttachments item = Return item1 ->
  NoDup (keys item) -> NoDup (keys item1).
Proof.
  unfold sanitizeAttachments. intros H Hnd.
  destruct (get "attachments" item) as [| | | | |[|a l]|o];
    try (inversion H; subst; exact Hnd).
  - destruct (mapM sanitizeAttachment (a :: l)); [|discriminate].
    inversion H; subst. now apply NoDup_keys_set.
  - destruct (truthy (get "length" o)); [discriminate|].
    inversion H; subst. exact Hnd.
Qed.

(** After the first step and the JSON round trip the attachments are
    settled. *)
Lemma sanitizeAttachments_settles item item1 :
  wf (VObj item) ->
  sanitizeAttachments item = Return item1 ->
  settledAttachments (json (get "attachments" item1)).
Proof.
  intros Hwf H. pose proof (get_wf "attachments" item Hwf) as Hatt.
  unfold sanitizeAttachments in H.
  destruct (get "attachments" item) as [| | | | |[|a l]|o] eqn:E;
    try (inversion H; subst; rewrite E; exact I).
  - inversion H; subst. rewrite E. simpl. constructor.
  - destruct (mapM sanitizeAttachment (a :: l)) as [l'|] eqn:Em;
      [|discriminate].
    inversion H; subst; clear H. rewrite get_set_same, json_arr_eq.
    simpl. apply mapM_Forall2 in Em. apply wf_arr in Hatt.
    now apply (sanitizeAttachment_json_all (a :: l)).
  - destruct (truthy (get "length" o)) eqn:El; [discriminate|].
    inversion H; subst. rewrite E, json_obj_eq. simpl.
    apply wf_obj in Hatt. destruct Hatt as [Hnd _].
    now rewrite get_json_obj, truthy_json.
Qed.

Lemma sanitizeAttachments_settled item :
  settledAttachments (get "attachments" item) ->
  sanitizeAttachments item = Return item.
Proof.
  unfold sanitizeAttachments, settledAttachments.
  destruct (get "attachments" item) as [| | | | |[|a l]|o] eqn:E;
    try reflexivity.
  - intros Hall. rewrite (mapM_fixed _ _ Hall). simpl.
    rewrite <- E. rewrite set_get; [reflexivity|].
    apply get_present. rewrite E. discriminate.
  - intros ->. reflexivity.
Qed.

(** ** The field filter *)

Section FieldFilter.

Variable zotero : Zotero.

(** The three things a turn of the loop can do. *)
Lemma visitField_spec typeID item field :
  (visitField zotero typeID item field = item
   /\ (has_key field item = false \/ settledField zotero typeID item field))
  \/ (visitField zotero typeID item field = delete field item
      /\ skipFields_has field = false)
  \/ (exists fieldID subfieldID,
        ItemFields_getID zotero field = Some fieldID
        /\ ItemFields_getFieldIDFromTypeAndBase zotero typeID fieldID
           = Some subfieldID
        /\ subfieldID <> fieldID
        /\ skipFields_has field = false
        /\ truthy (get field item) = true
        /\ visitField zotero typeID item field
           = delete field
               (set (ItemFields_getName zotero subfieldID) (get field item)
                  item)).
Proof.
  unfold visitField.
  destruct (has_key field item) eqn:Hk; simpl; [|left; auto].
  destruct (skipFields_has field) eqn:Hs.
  { left. split; [reflexivity|]. right. now left. }
  destruct (ItemFields_getID zotero field) as [fieldID|] eqn:Hid;
    [|right; left; auto].
  destruct (truthy (get field item)) eqn:Ht; simpl; [|right; left; auto].
  set (validated := if ItemFields_isValidForType zotero fieldID typeID
                    then item else delete field item).
  assert (Hvalidated :
    ItemFields_getFieldIDFromTypeAndBase zotero typeID fieldID = None
    \/ ItemFields_getFieldIDFromTypeAndBase zotero typeID fieldID
       = Some fieldID ->
    (validated = item /\ settledField zotero typeID item field)
    \/ validated = delete field item).
  { intros Hsub. unfold validated.
    destruct (ItemFields_isValidForType zotero fieldID typeID) eqn:Hv.
    - left. split; [reflexivity|]. right. exists fieldID. auto.
    - now right. }
  destruct (ItemFields_getFieldIDFromTypeAndBase zotero typeID fieldID)
    as [subfieldID|] eqn:Hsub.
  - destruct (Nat.eqb_spec subfieldID fieldID) as [->|Hne]; simpl.
    + destruct (Hvalidated (or_intror eq_refl)) as [[E H]|E]; rewrite E;
        [left; auto | right; left; auto].
    + right. right. exists fieldID, subfieldID. auto 10.
  - destruct (Hvalidated (or_introl eq_refl)) as [[E H]|E]; rewrite E;
      [left; auto | right; left; auto].
Qed.

Lemma settledField_get typeID item item' field :
  get field item' = get field item ->
  settledField zotero typeID item field ->
  settledField zotero typeID item' field.
Proof.
  intros Hget [Hs|[fieldID [Hid [Ht H]]]]; [now left|].
  right. exists fieldID. rewrite Hget. auto.
Qed.

Lemma visitField_settled typeID item field :
  has_key field item = false \/ settledField zotero typeID item field ->
  visitField zotero typeID item field = item.
Proof.
  unfold visitField. intros [Hk|Hs]; [now rewrite Hk|].
  destruct (has_key field item); simpl; [|reflexivity].
  destruct Hs as [Hs|[fieldID [Hid [Ht [Hsub Hv]]]]]; [now rewrite Hs|].
  destruct (skipFields_has field); [reflexivity|].
  rewrite Hid, Ht, Hv. simpl.
  destruct Hsub as [->| ->]; [reflexivity|].
  now rewrite Nat.eqb_refl.
Qed.

Lemma fold_visitField_fixed typeID ks item :
  (forall k, In k ks ->
     has_key k item = false \/ settledField zotero typeID item k) ->
  fold_left (visitField zotero typeID) ks item = item.
Proof.
  induction ks as [|f ks IH]; simpl; intros H; [reflexivity|].
  rewrite visitField_settled by (apply H; now left).
  apply IH. intros k Hk. apply H. now right.
Qed.

(** Whatever the predicate, a turn of the loop keeps it on the property
    values: the only value written is one that was read. *)
Lemma visitField_Forall (P : value -> Prop) typeID item field :
  Forall (fun kv => P (snd kv)) item ->
  Forall (fun kv => P (snd kv)) (visitField zotero typeID item field).
Proof.
  intros Hall.
  destruct (visitField_spec typeID item field)
    as [[-> _]|[[-> _]|[fieldID [subfieldID [_ [_ [_ [_ [Ht ->]]]]]]]]].
  - exact Hall.
  - now apply delete_Forall.
  - apply delete_Forall. apply set_Forall; [|exact Hall].
    apply get_Forall; [exact Hall|].
    apply get_present. intros E. rewrite E in Ht. discriminate.
Qed.

Lemma visitField_NoDup typeID item field :
  NoDup (keys item) -> NoDup (keys (visitField zotero typeID item field)).
Proof.
  intros Hnd.
  destruct (visitField_spec typeID item field)
    as [[-> _]|[[-> _]|[fieldID [subfieldID [_ [_ [_ [_ [_ ->]]]]]]]]].
  - exact Hnd.
  - now apply NoDup_keys_delete.
  - now apply NoDup_keys_delete, NoDup_keys_set.
Qed.

Lemma sanitizeFields_Forall (P : value -> Prop) item :
  Forall (fun kv => P (snd kv)) item ->
  Forall (fun kv => P (snd kv)) (sanitizeFields zotero item).
Proof.
  unfold sanitizeFields.
  generalize (ItemTypes_getID zotero (get "itemType" item)) as typeID.
  intros typeID. generalize (keys item) as ks. intros ks. revert item.
  induction ks as [|f ks IH]; simpl; intros item H; [exact H|].
  apply IH. now apply visitField_Forall.
Qed.

Lemma sanitizeFields_NoDup item :
  NoDup (keys item) -> NoDup (keys (sanitizeFields zotero item)).
Proof.
  intros Hnd. unfold sanitizeFields.
  generalize (ItemTypes_getID zotero (get "itemType" item)) as typeID.
  intros typeID. generalize (keys item) as ks. intros ks. revert item Hnd.
  induction ks as [|f ks IH]; simpl; intros item H; [exact H|].
  apply IH. now apply visitField_NoDup.
Qed.

Hypothesis coherent : Coherent zotero.

(** In a coherent registry no turn of the loop writes to a skipped
    name. *)
Lemma visitField_get_skipped typeID item field k :
  skipFields_has k = true ->
  get k (visitField zotero typeID item field) = get k item.
Proof.
  intros Hk.
  destruct (visitField_spec typeID item field)
    as [[-> _]|[[-> Hs]|[fieldID [subfieldID
          [Hid [Hsub [Hne [Hs [_ ->]]]]]]]]].
  - reflexivity.
  - apply get_delete_other. intros ->. congruence.
  - destruct (subfield_is_field zotero coherent typeID field fieldID
                subfieldID Hid Hsub Hne) as [Hname _].
    rewrite get_delete_other by (intros ->; congruence).
    apply get_set_other. intros ->. congruence.
Qed.

Lemma sanitizeFields_get_skipped item k :
  skipFields_has k = true ->
  get k (sanitizeFields zotero item) = get k item.
Proof.
  intros Hk. unfold sanitizeFields.
  generalize (ItemTypes_getID zotero (get "itemType" item)) as typeID.
  intros typeID. generalize (keys item) as ks. intros ks. revert item.
  induction ks as [|f ks IH]; simpl; intros item; [reflexivity|].
  rewrite IH. now apply visitField_get_skipped.
Qed.

(** The loop invariant: a property of the record is either still to be
    visited or settled. *)
Lemma visitField_invariant typeID item field ks :
  (forall k, has_key k item = true ->
     In k (field :: ks) \/ settledField zotero typeID item k) ->
  forall k, has_key k (visitField zotero typeID item field) = true ->
    In k ks \/ settledField zotero typeID
                 (visitField zotero typeID item field) k.
Proof.
  intros Hinv k.
  destruct (visitField_spec typeID item field)
    as [[-> Hf]|[[-> Hs]|[fieldID [subfieldID
          [Hid [Hsub [Hne [Hs [Ht ->]]]]]]]]].
  - intros Hk. destruct (String.eqb_spec k field) as [->|Hkf].
    + destruct Hf as [Hf|Hf]; [congruence | now right].
    + destruct (Hinv k Hk) as [[E|Hin]|Hset]; [congruence | auto | auto].
  - rewrite has_key_delete. intros Hk. apply andb_prop in Hk.
    destruct Hk as [Hkf Hk]. destruct (String.eqb_spec k field) as [|Hkf'];
      [discriminate|].
    destruct (Hinv k Hk) as [[E|Hin]|Hset]; [congruence | auto |].
    right. eapply settledField_get; [|exact Hset].
    now apply get_delete_other.
  - rewrite has_key_delete, has_key_set. intros Hk. apply andb_prop in Hk.
    destruct Hk as [Hkf Hk]. destruct (String.eqb_spec k field) as [|Hkf'];
      [discriminate|].
    destruct (subfield_is_field zotero coherent typeID field fieldID
                subfieldID Hid Hsub Hne) as [Hname [Hnid [Hnsub Hnvalid]]].
    destruct (String.eqb_spec k (ItemFields_getName zotero subfieldID))
      as [->|Hkn].
    + right. right. exists subfieldID.
      rewrite get_delete_other by exact Hkf'. rewrite get_set_same. auto.
    + simpl in Hk. destruct (Hinv k Hk) as [[E|Hin]|Hset];
        [congruence | auto |].
      right. eapply settledField_get; [|exact Hset].
      rewrite get_delete_other by exact Hkf'.
      now apply get_set_other.
Qed.

Lemma fold_visitField_settles typeID ks item :
  (forall k, has_key k item = true ->
     In k ks \/ settledField zotero typeID item k) ->
  forall k, has_key k (fold_left (visitField zotero typeID) ks item) = true ->
    settledField zotero typeID
      (fold_left (visitField zotero typeID) ks item) k.
Proof.
  revert item. induction ks as [|f ks IH]; simpl; intros item Hinv k Hk.
  - destruct (Hinv k Hk) as [[]|H]. exact H.
  - apply IH; [|exact Hk]. now apply visitField_invariant.
Qed.

(** After the loop every property is settled. *)
Lemma sanitizeFields_settles item k :
  has_key k (sanitizeFields zotero item) = true ->
  settledField zotero (ItemTypes_getID zotero (get "itemType" item))
    (sanitizeFields zotero item) k.
Proof.
  unfold sanitizeFields. apply fold_visitField_settles.
  intros j Hj. left. now apply has_key_In.
Qed.

End FieldFilter.

(** ** Sorting the tags *)

Lemma js_lt_asym a b : js_lt a b = true -> js_lt b a = false.
Proof.
  destruct a, b; simpl; try discriminate.
  - intros H. apply Z.ltb_lt in H. apply Z.ltb_ge. lia.
  - unfold String.ltb. rewrite (String.compare_antisym s0 s).
    destruct (String.compare s s0); simpl; congruence.
Qed.

Lemma tag_lt_asym a b : tag_lt a b = true -> tag_lt b a = false.
Proof. apply js_lt_asym. Qed.

Lemma insertTag_Forall (P : obj -> Prop) a l :
  P a -> Forall P l -> Forall P (insertTag a l).
Proof.
  intros Ha Hl. induction Hl as [|b l Hb Hl IH]; simpl.
  - now repeat constructor.
  - destruct (tag_lt b a); now repeat constructor.
Qed.

Lemma sortTags_Forall (P : obj -> Prop) l :
  Forall P l -> Forall P (sortTags l).
Proof.
  induction 1 as [|a l Ha Hl IH]; simpl; [constructor|].
  now apply insertTag_Forall.
Qed.

Lemma insertTag_ordered a l : ordered l -> ordered (insertTag a l).
Proof.
  induction l as [|b l IH]; simpl; [tauto|].
  intros [Hb Hl]. destruct (tag_lt b a) eqn:E.
  - specialize (IH Hl). split; [|exact IH].
    destruct l as [|c l]; simpl.
    + now apply tag_lt_asym.
    + destruct (tag_lt c a); [exact Hb | now apply tag_lt_asym].
  - simpl. tauto.
Qed.

Lemma sortTags_ordered l : ordered (sortTags l).
Proof.
  induction l as [|a l IH]; simpl; [exact I|].
  now apply insertTag_ordered.
Qed.

Lemma sortTags_fixed l : ordered l -> sortTags l = l.
Proof.
  induction l as [|a l IH]; simpl; [reflexivity|].
  intros [Ha Hl]. rewrite (IH Hl).
  destruct l as [|b l]; simpl; [reflexivity|]. now rewrite Ha.
Qed.

(** Sorting sorted tags changes nothing. *)
Lemma sortTags_idem l : sortTags (sortTags l) = sortTags l.
Proof. apply sortTags_fixed, sortTags_ordered. Qed.

(** ** The normaliser is idempotent *)

Section Idempotence.

Variable zotero : Zotero.
Hypothesis coherent : Coherent zotero.

Lemma sanitizeTags_idem item :
  sanitizeTags zotero (sanitizeTags zotero item) = sanitizeTags zotero item.
Proof.
  unfold sanitizeTags at 2 3.
  destruct (get "tags" item) as [| | | | |tags|] eqn:E;
    try (unfold sanitizeTags; now rewrite E).
  unfold sanitizeTags. rewrite get_set_same.
  rewrite (cleanTags_clean zotero coherent), sortTags_idem.
  apply set_set.
Qed.

Lemma sanitizeTags_clean item :
  Forall (fun kv => clean (snd kv)) item ->
  Forall (fun kv => clean (snd kv)) (sanitizeTags zotero item).
Proof.
  intros Hall. unfold sanitizeTags.
  destruct (get "tags" item) as [| | | | |tags|]; try exact Hall.
  apply set_Forall; [|exact Hall].
  split; [discriminate|]. rewrite json_arr_eq. f_equal.
  rewrite map_map.
  pose proof (sortTags_Forall _ _ (cleanTags_json zotero coherent tags))
    as Hjson.
  induction Hjson as [|t ts Ht Hts IH]; [reflexivity|].
  change (VObj (json_obj t) :: map (fun x => json_elem (VObj x)) ts
          = VObj t :: map VObj ts).
  now rewrite Ht, IH.
Qed.

Lemma sanitizeTags_get item k :
  k <> "tags" -> get k (sanitizeTags zotero item) = get k item.
Proof.
  intros Hne. unfold sanitizeTags.
  destruct (get "tags" item); try reflexivity.
  now apply get_set_other.
Qed.

Lemma sanitizeTags_has_key item k :
  has_key k (sanitizeTags zotero item) = true ->
  k = "tags" \/ has_key k item = true.
Proof.
  unfold sanitizeTags. destruct (get "tags" item); auto.
  rewrite has_key_set. destruct (String.eqb_spec k "tags"); auto.
Qed.

Lemma skipFields_has_false_ne k j :
  skipFields_has k = true -> skipFields_has j = false -> k <> j.
Proof. intros Hk Hj ->. congruence. Qed.

(** Every property value of a normalised record survives a JSON round
    trip. *)
Lemma sanitizeItem_clean (item out : obj) :
  sanitizeItem zotero item = Return out ->
  Forall (fun kv => clean (snd kv)) out.
Proof.
  unfold sanitizeItem. intros H.
  destruct (sanitizeAttachments item) as [item1|]; [|discriminate].
  simpl in H. injection H as <-. apply sanitizeTags_clean.
  apply delete_Forall. apply sanitizeFields_Forall. apply json_obj_clean.
Qed.

(** A record that has been normalised is normalised to itself. *)
Lemma sanitizeItem_normal_form (item out : obj) :
  wf (VObj item) ->
  sanitizeItem zotero item = Return out ->
  sanitizeItem zotero out = Return out.
Proof.
  intros Hwf H. unfold sanitizeItem in H.
  destruct (sanitizeAttachments item) as [item1|] eqn:E1; [|discriminate].
  simpl in H. injection H as Hout.
  set (item2 := json_obj item1) in *.
  set (item3 := sanitizeFields zotero item2) in *.
  set (item4 := delete "accessDate" item3) in *.
  pose proof (proj1 (proj1 (wf_obj item) Hwf)) as Hnd.
  pose proof (sanitizeAttachments_NoDup _ _ E1 Hnd) as Hnd1.
  (* the attachments of the result *)
  assert (Hatt : get "attachments" out = json (get "attachments" item1)).
  { rewrite <- Hout, sanitizeTags_get by discriminate.
    unfold item4. rewrite get_delete_other by discriminate.
    unfold item3. rewrite (sanitizeFields_get_skipped zotero coherent)
      by reflexivity.
    now apply get_json_obj. }
  assert (Htype : get "itemType" out = get "itemType" item2).
  { rewrite <- Hout, sanitizeTags_get by discriminate.
    unfold item4. rewrite get_delete_other by discriminate.
    unfold item3. now rewrite (sanitizeFields_get_skipped zotero coherent). }
  (* step 1 *)
  assert (S1 : sanitizeAttachments out = Return out).
  { apply sanitizeAttachments_settled. rewrite Hatt.
    now apply (sanitizeAttachments_settles item). }
  (* step 2 *)
  assert (S2 : json_obj out = out).
  { apply json_obj_fix. rewrite <- Hout. apply sanitizeTags_clean.
    apply delete_Forall. apply sanitizeFields_Forall. apply json_obj_clean. }
  (* the filter *)
  assert (S3 : sanitizeFields zotero out = out).
  { unfold sanitizeFields. rewrite Htype.
    apply fold_visitField_fixed. intros k Hk. right.
    apply has_key_In in Hk. rewrite <- Hout in Hk.
    destruct (sanitizeTags_has_key _ _ Hk) as [->|Hk4]; [now left|].
    unfold item4 in Hk4. rewrite has_key_delete in Hk4.
    apply andb_prop in Hk4. destruct Hk4 as [Hka Hk3].
    destruct (String.eqb_spec k "accessDate") as [|Hka']; [discriminate|].
    destruct (String.eqb_spec k "tags") as [->|Hkt]; [now left|].
    eapply settledField_get;
      [|exact (sanitizeFields_settles zotero coherent item2 k Hk3)].
    rewrite <- Hout, sanitizeTags_get by exact Hkt.
    unfold item4. now apply get_delete_other. }
  (* accessDate *)
  assert (S4 : delete "accessDate" out = out).
  { apply delete_absent. rewrite <- Hout.
    destruct (has_key "accessDate" (sanitizeTags zotero item4)) eqn:E;
      [|reflexivity].
    destruct (sanitizeTags_has_key _ _ E) as [E'|E']; [discriminate|].
    unfold item4 in E'. rewrite has_key_delete in E'. discriminate. }
  unfold sanitizeItem. rewrite S1. simpl. rewrite S2, S3, S4.
  rewrite <- Hout. now rewrite sanitizeTags_idem.
Qed.

(** C7: normalising twice is the same as normalising once, whether the
    normaliser returns a record or throws. *)
Theorem sanitizeItem_idempotent (item : obj) :
  wf (VObj item) ->
  (normal <- sanitizeItem zotero item ;; sanitizeItem zotero normal)
  = sanitizeItem zotero item.
Proof.
  intros Hwf. destruct (sanitizeItem zotero item) as [out|e] eqn:E; simpl;
    [|reflexivity].
  now apply (sanitizeItem_normal_form item).
Qed.

End Idempotence.

(** ** Normalised records are well formed *)

Lemma drop_truthy_Forall (P : string * value -> Prop) k o :
  Forall P o -> Forall P (drop_truthy k o).
Proof.
  unfold drop_truthy. destruct (truthy (get k o));
    [apply delete_Forall | auto].
Qed.

Lemma sanitizeAttachment_wf a a' :
  wf a -> sanitizeAttachment a = Return a' -> wf a'.
Proof.
  intros Hwf H. destruct a as [| |b|n|s|l|o]; try discriminate;
    try (injection H as <-; exact Hwf).
  rewrite sanitizeAttachment_obj in H. injection H as <-.
  apply wf_obj in Hwf. destruct Hwf as [Hnd Hall]. apply wf_obj. split.
  - apply drop_truthy_NoDup, drop_truthy_NoDup.
    destruct (truthy (get "document" o)); [|exact Hnd].
    now apply NoDup_keys_set, NoDup_keys_delete.
  - apply drop_truthy_Forall, drop_truthy_Forall.
    destruct (truthy (get "document" o)); [|exact Hall].
    apply (set_Forall wf); [exact I | now apply delete_Forall].
Qed.

Lemma sanitizeAttachments_wf item item1 :
  wf (VObj item) -> sanitizeAttachments item = Return item1 ->
  wf (VObj item1).
Proof.
  intros Hwf H. pose proof (get_wf "attachments" item Hwf) as Hatt.
  apply wf_obj. split.
  { eapply sanitizeAttachments_NoDup; eauto. now apply wf_obj in Hwf. }
  apply wf_obj in Hwf. destruct Hwf as [_ Hall].
  unfold sanitizeAttachments in H.
  destruct (get "attachments" item) as [| | | | |[|a l]|o];
    try (injection H as <-; exact Hall).
  - destruct (mapM sanitizeAttachment (a :: l)) as [l'|] eqn:Em;
      [|discriminate].
    injection H as <-. apply (set_Forall wf); [|exact Hall].
    apply wf_arr. apply wf_arr in Hatt. apply mapM_Forall2 in Em.
    revert Hatt. induction Em as [|x y xs ys Hxy Hrest IH]; intros Hxs;
      [constructor|].
    inversion Hxs; subst. constructor; [|auto].
    eapply sanitizeAttachment_wf; eauto.
  - destruct (truthy (get "length" o)); [discriminate|].
    injection H as <-. exact Hall.
Qed.

Lemma sanitizeItem_wf zotero item out :
  Coherent zotero ->
  wf (VObj item) -> sanitizeItem zotero item = Return out -> wf (VObj out).
Proof.
  intros coherent Hwf H. unfold sanitizeItem in H.
  destruct (sanitizeAttachments item) as [item1|] eqn:E1; [|discriminate].
  simpl in H. injection H as <-.
  pose proof (json_wf _ (sanitizeAttachments_wf _ _ Hwf E1)) as H2.
  rewrite json_obj_eq in H2. apply wf_obj in H2. destruct H2 as [Hnd Hall].
  assert (H4 : wf (VObj (delete "accessDate"
                           (sanitizeFields zotero (json_obj item1))))).
  { apply wf_obj. split.
    - now apply NoDup_keys_delete, sanitizeFields_NoDup.
    - now apply delete_Forall, (sanitizeFields_Forall zotero wf). }
  unfold sanitizeTags. destruct (get "tags" _) as [| | | | |tags|];
    try exact H4.
  apply wf_obj in H4. destruct H4 as [Hnd4 Hall4]. apply wf_obj. split.
  - now apply NoDup_keys_set.
  - apply (set_Forall wf); [|exact Hall4]. apply wf_arr.
    apply Forall_map. apply sortTags_Forall.
    apply (cleanTags_wf zotero coherent).
Qed.

(** ** The example platform is coherent *)

Lemma example_cleanTag_shape tag :
  Forall (fun t => exists s, (s =? "") = false /\ t = [("tag", VStr s)])
    (Example.cleanTag tag).
Proof.
  unfold Example.cleanTag.
  destruct tag as [| | | |s| |o]; try constructor.
  - destruct (s =? "") eqn:E; repeat constructor. exists s. auto.
  - destruct (get "tag" o) as [| | | |s| |]; try constructor.
    destruct (s =? "") eqn:E; repeat constructor. exists s. auto.
Qed.

Lemma example_cleanTags_shape tags :
  Forall (fun t => exists s, (s =? "") = false /\ t = [("tag", VStr s)])
    (Example.cleanTags tags).
Proof.
  unfold Example.cleanTags. induction tags as [|tag tags IH]; simpl;
    [constructor|].
  apply Forall_app. split; [apply example_cleanTag_shape | exact IH].
Qed.

Lemma example_cleanTags_fixed l :
  Forall (fun t => exists s, (s =? "") = false /\ t = [("tag", VStr s)]) l ->
  Example.cleanTags (map VObj l) = l.
Proof.
  induction 1 as [|t l [s [Hs ->]] Hl IH]; [reflexivity|].
  unfold Example.cleanTags in *. simpl. rewrite Hs. simpl. now rewrite IH.
Qed.

Lemma example_coherent : Coherent Example.zotero.
Proof.
  constructor.
  - intros typeID field fieldID subfieldID Hid Hsub Hne. simpl in *.
    unfold Example.getFieldIDFromTypeAndBase in Hsub.
    destruct typeID as [t|]; [|discriminate].
    destruct ((t =? 5)%nat && (fieldID =? 3)%nat) eqn:E.
    + injection Hsub as <-. apply andb_prop in E. destruct E as [Et Ef].
      apply Nat.eqb_eq in Et. subst t. repeat split. now right.
    + destruct (Example.isValidForType fieldID (Some t));
        [injection Hsub as <-; contradiction | discriminate].
  - intros tags. simpl.
    eapply Forall_impl; [|apply example_cleanTags_shape].
    intros t [s [_ ->]]. reflexivity.
  - intros tags. simpl.
    eapply Forall_impl; [|apply example_cleanTags_shape].
    intros t [s [_ ->]]. apply wf_obj. simpl. split.
    + constructor; [intros [] | constructor].
    + repeat constructor.
  - intros tags. simpl. apply example_cleanTags_fixed.
    apply sortTags_Forall. apply example_cleanTags_shape.
Qed.

(** ** Test cases *)

Lemma TEST_TYPES_includes_name ty :
  TEST_TYPES_includes (VStr (type_name ty)) = Some ty.
Proof. destruct ty; reflexivity. Qed.

Lemma toJSON_type t : get "type" (toJSON t) = VStr (type_name (_type t)).
Proof. reflexivity. Qed.

Lemma toJSON_defer t : get "defer" (toJSON t) = _defer t.
Proof. reflexivity. Qed.

Lemma toJSON_input t :
  _input t <> VNull ->
  nullish (get "input" (toJSON t)) (get "url" (toJSON t)) = _input t.
Proof.
  intros Hne. unfold toJSON. destruct (_type t); simpl; try reflexivity;
    destruct (_input t); try reflexivity; congruence.
Qed.

Lemma toJSON_items t : get "items" (toJSON t) = items_value (_items t).
Proof. unfold toJSON. destruct (_type t); reflexivity. Qed.

Lemma toJSON_detectedItemType t :
  get "detectedItemType" (toJSON t)
  = if truthy (_detectedItemType t)
       && strict_eq (_detectedItemType t) (_inferItemType t)
    then VUndef else _detectedItemType t.
Proof. unfold toJSON. destruct (_type t); reflexivity. Qed.

Lemma toJSON_keys_NoDup t : NoDup (keys (toJSON t)).
Proof.
  unfold toJSON. destruct (_type t); simpl;
    repeat (constructor; [simpl; intuition discriminate|]); constructor.
Qed.

Section TestFacts.

Variable zotero : Zotero.

Lemma Forall2_mapM {A B : Type} (f : A -> completion B) l out :
  Forall2 (fun x y => f x = Return y) l out -> mapM f l = Return out.
Proof.
  induction 1 as [|x y l ys Hy Hys IH]; simpl; [reflexivity|].
  now rewrite Hy, IH.
Qed.

Lemma sanitize_record raw :
  sanitize zotero (VObj raw)
  = (r <- sanitizeItem zotero raw ;; Return (VObj r)).
Proof. reflexivity. Qed.

(** The setter of [items] accepts the sentinel, or an array, each element
    of which it replaces by what the normaliser returns for it. *)
Lemma set_items_inv items this this' :
  set_items zotero items this = Return this' ->
  (items = VStr "multiple"
   /\ this' = mkTest (_type this) (_defer this) (_input this)
                (_detectedItemType this) Multiple)
  \/ (exists raws recs,
        items = VArr raws
        /\ Forall2 (fun raw r => sanitize zotero raw = Return r) raws recs
        /\ this' = mkTest (_type this) (_defer this) (_input this)
                     (_detectedItemType this) (Records recs)).
Proof.
  unfold set_items. intros H.
  destruct items as [| | | |s|l|]; try discriminate.
  - destruct (String.eqb_spec s "multiple") as [->|]; [|discriminate].
    injection H as <-. now left.
  - destruct (mapM _ l) as [recs|] eqn:Em; [|discriminate]. simpl in H.
    injection H as <-. apply mapM_Forall2 in Em.
    right. exists l, recs. auto.
Qed.

Lemma classify_updatedTest test result outcome u :
  classify zotero test result = Return outcome ->
  updatedTest outcome = Some u ->
  exists cloned typed,
    Test_clone zotero test = Return cloned
    /\ set_detectedItemType (detectedItemType result) cloned = Return typed
    /\ set_items zotero (items result) typed = Return u.
Proof.
  unfold classify. intros H Hu.
  destruct (negb (truthy (items result))).
  { destruct (_ && _); injection H as <-; discriminate. }
  destruct (Test_clone zotero test) as [cloned|] eqn:Ec; [|discriminate].
  simpl in H.
  destruct (set_detectedItemType _ cloned) as [typed|] eqn:Et;
    [|discriminate].
  simpl in H.
  destruct (set_items zotero _ typed) as [updated|] eqn:Eu; [|discriminate].
  simpl in H. exists cloned, typed.
  split; [reflexivity|]. split; [exact Et|]. rewrite Eu. f_equal.
  destruct (negb (strict_eq _ _)).
  { injection H as <-. simpl in Hu. congruence. }
  destruct (_ && _).
  { injection H as <-. simpl in Hu. congruence. }
  destruct (equals zotero test updated) as [same|]; [|discriminate].
  simpl in H. destruct (negb same); injection H as <-; simpl in Hu;
    congruence.
Qed.

(** C10: the elements of the array a test case holds are always results
    of the normaliser.  The setter of [items] stores, for every element it
    is given, what [sanitizeItem] returns for it; every test case that the
    constructor and the setters produce keeps the invariant; and the
    updated test that [run] compares with the expected one is such a test
    case, so both sides of [equals] hold normalised elements.  The setter
    accepts every array on whose elements the normaliser returns. *)
Theorem items_always_normalized :
  (forall items this this',
     set_items zotero items this = Return this' ->
     match _items this' with
     | Multiple => items = VStr "multiple"
     | Records recs =>
         exists raws,
           items = VArr raws
           /\ Forall2 (fun raw r => sanitize zotero raw = Return r)
                raws recs
     end)
  /\ (forall t, built zotero t -> normalized zotero t)
  /\ (forall test result outcome u,
        built zotero test ->
        classify zotero test result = Return outcome ->
        updatedTest outcome = Some u ->
        normalized zotero test /\ normalized zotero u)
  /\ (forall raws recs this,
        Forall2 (fun raw r => sanitize zotero raw = Return r) raws recs ->
        set_items zotero (VArr raws) this
        = Return (mkTest (_type this) (_defer this) (_input this)
                    (_detectedItemType this) (Records recs))).
Proof.
  assert (Hset : forall items this this',
            set_items zotero items this = Return this' ->
            normalized zotero this').
  { intros items this this' H.
    destruct (set_items_inv _ _ _ H) as [[_ ->]|[raws [recs [_ [Hall ->]]]]];
      unfold normalized; simpl; [exact I|].
    clear H. induction Hall as [|raw r raws recs Hr Hall IH]; constructor;
      eauto. }
  assert (Hnew : forall init t,
            Test_new zotero init = Return t -> normalized zotero t).
  { intros init t H. unfold Test_new in H.
    destruct (set_type _ blank) as [t1|]; [|discriminate]. simpl in H.
    destruct (set_defer _ t1) as [t2|]; [|discriminate]. simpl in H.
    destruct (set_input _ t2) as [t3|]; [|discriminate]. simpl in H.
    destruct (set_items zotero _ t3) as [t4|] eqn:E4; [|discriminate].
    simpl in H. apply Hset in E4.
    unfold set_detectedItemType in H. destruct (_ && _); [discriminate|].
    injection H as <-. exact E4. }
  assert (Hbuilt : forall t, built zotero t -> normalized zotero t).
  { intros t Hb. induction Hb as
      [init t H | v t t' Hb IH H | v t t' Hb IH H | v t t' Hb IH H
       | v t t' Hb IH H | v t t' Hb IH H | v t t' Hb IH H].
    - eapply Hnew; eauto.
    - unfold set_type in H. destruct (TEST_TYPES_includes v);
        [|discriminate]. injection H as <-. exact IH.
    - unfold set_defer in H. destruct (truthy v);
        [destruct (_ && _); [discriminate|]|]; injection H as <-; exact IH.
    - unfold set_input in H. destruct (negb _); [discriminate|].
      injection H as <-. exact IH.
    - unfold set_url in H. destruct (_type t); try discriminate.
      injection H as <-. exact IH.
    - unfold set_detectedItemType in H. destruct (_ && _); [discriminate|].
      injection H as <-. exact IH.
    - eapply Hset; eauto. }
  split; [|split; [|split]].
  - intros items this this' H.
    destruct (set_items_inv _ _ _ H) as [[-> ->]|[raws [recs [-> [Hall ->]]]]];
      simpl; eauto.
  - exact Hbuilt.
  - intros test result outcome u Hb Hc Hu. split; [now apply Hbuilt|].
    destruct (classify_updatedTest _ _ _ _ Hc Hu)
      as [cloned [typed [_ [_ H]]]].
    eapply Hset; eauto.
  - intros raws recs this Hall. unfold set_items.
    now rewrite (Forall2_mapM _ _ _ Hall).
Qed.

End TestFacts.

(** ** Construction, serialisation, reconstruction *)

Section RoundTrip.

Variable zotero : Zotero.

Lemma inferItemType_fields ty d i x d' i' x' it :
  _inferItemType (mkTest ty d i x it) = _inferItemType (mkTest ty d' i' x' it).
Proof. reflexivity. Qed.

(** A checked test case with an input other than [null] is rebuilt from its
    serialisation field by field. *)
Lemma checked_roundtrip t :
  checked zotero t -> _input t <> VNull ->
  Test_new zotero (toJSON t) = Return t.
Proof.
  intros [Hd Hi Hit Hx Hinf _] Hnull.
  unfold Test_new.
  rewrite toJSON_type, toJSON_defer, (toJSON_input t Hnull), toJSON_items,
    toJSON_detectedItemType.
  unfold set_type. rewrite TEST_TYPES_includes_name. simpl.
  destruct t as [ty d i x it]; simpl in *.
  assert (Hdefer :
    set_defer (nullish d (VBool false)) (mkTest ty VUndef VUndef VUndef Multiple)
    = Return (mkTest ty d VUndef VUndef Multiple)).
  { unfold set_defer. destruct Hd as [->|[Ht Hc]]; [reflexivity|].
    rewrite (nullish_truthy _ _ Ht), Ht. simpl.
    destruct (strict_eq d (VBool true)), (typeof d =? "number");
      simpl in *; try reflexivity; discriminate. }
  rewrite Hdefer. simpl.
  unfold set_input. simpl. rewrite Hi, String.eqb_refl. simpl.
  assert (Hitems :
    set_items zotero (items_value it) (mkTest ty d i VUndef Multiple)
    = Return (mkTest ty d i VUndef it)).
  { destruct it as [|recs]; simpl; [reflexivity|].
    now rewrite (mapM_fixed _ _ Hit). }
  rewrite Hitems. simpl.
  rewrite (inferItemType_fields ty d i VUndef d i x it).
  set (inferred := _inferItemType (mkTest ty d i x it)) in *.
  assert (Hvalue :
    nullish (if truthy x && strict_eq x inferred then VUndef else x) inferred
    = x).
  { destruct (truthy x && strict_eq x inferred) eqn:E.
    - apply andb_prop in E. destruct E as [_ E].
      apply strict_eq_true in E. now rewrite E.
    - destruct x; simpl in *; try reflexivity; [now apply Hinf | discriminate]. }
  rewrite Hvalue. unfold set_detectedItemType. simpl.
  destruct (strict_eq x VUndef), (typeof x =? "string"),
    (typeof x =? "boolean"); simpl in *; try reflexivity; discriminate.
Qed.

Hypothesis coherent : Coherent zotero.

Lemma json_elems_idem l : map json_elem (map json_elem l) = map json_elem l.
Proof.
  pose proof (json_idem (VArr l)) as H. rewrite !json_arr_eq in H.
  now injection H.
Qed.

(** What the normaliser returns, it returns again when it is given it:
    a record by [sanitizeItem_normal_form]; a boolean, a number or a
    string because it came back as it was; an array because the JSON
    round trip is idempotent. *)
Lemma sanitize_normal_form raw r :
  wf raw -> sanitize zotero raw = Return r ->
  sanitize zotero r = Return r /\ wf r.
Proof.
  intros Hwf H. destruct raw as [| |b|n|s|l|o]; simpl in H;
    try discriminate.
  - injection H as <-. now split.
  - injection H as <-. now split.
  - destruct (sanitizeString zotero _ s 0) as [ [] | ] eqn:Es; [|discriminate].
    injection H as <-. split; [|exact I]. simpl. now rewrite Es.
  - destruct (sanitizeElements zotero _ (map json_elem l) 0) as [ [] | ] eqn:El;
      [|discriminate].
    injection H as <-. split.
    + simpl. now rewrite json_elems_idem, El.
    + rewrite <- json_arr_eq. now apply json_wf.
  - destruct (sanitizeItem zotero o) as [out|] eqn:Eo; [|discriminate].
    injection H as <-. split.
    + simpl. now rewrite (sanitizeItem_normal_form zotero coherent o out).
    + eapply sanitizeItem_wf; eauto.
Qed.

Lemma records_checked raws recs :
  Forall wf raws ->
  Forall2 (fun raw r => sanitize zotero raw = Return r) raws recs ->
  Forall (fun r => sanitize zotero r = Return r) recs /\ Forall wf recs.
Proof.
  intros Hwf H. induction H as [|raw r raws recs Hr Hall IH].
  - split; constructor.
  - inversion Hwf; subst. destruct IH as [IH1 IH2]; [assumption|].
    destruct (sanitize_normal_form raw r) as [Hn Hw]; auto.
Qed.

Lemma own_prop_wf b key : wf b -> wf (own_prop b key).
Proof.
  intros Hwf. destruct b as [| |c|n|s|l|o]; simpl; try exact I.
  - destruct (key =? "length"); [exact I|].
    destruct (index_of_key key (String.length s)) as [i|]; [|exact I].
    destruct (nth_in_or_default i (map VStr (chars s)) VUndef) as [Hin | ->];
      [|exact I].
    apply in_map_iff in Hin. destruct Hin as [c [<- _]]. exact I.
  - destruct (key =? "length"); [exact I|].
    destruct (index_of_key key (List.length l)) as [i|]; [|exact I].
    destruct (nth_in_or_default i l VUndef) as [Hin | ->]; [|exact I].
    apply wf_arr in Hwf. rewrite Forall_forall in Hwf. now apply Hwf.
  - now apply get_wf.
Qed.

Lemma wf_nullish a b : wf a -> wf b -> wf (nullish a b).
Proof. destruct a; simpl; auto. Qed.

(** The constructor only returns checked test cases. *)
Lemma Test_new_checked testInit t :
  wf (VObj testInit) ->
  Test_new zotero testInit = Return t ->
  checked zotero t.
Proof.
  intros Hwf H. unfold Test_new in H.
  unfold set_type in H.
  destruct (TEST_TYPES_includes (get "type" testInit)) as [ty|];
    [|discriminate].
  simpl in H.
  set (d0 := nullish (get "defer" testInit) (VBool false)) in *.
  assert (Hd0 : wf d0) by (apply wf_nullish; [now apply get_wf | exact I]).
  destruct (set_defer d0 _) as [t2|] eqn:E2; [|discriminate]. simpl in H.
  set (i0 := nullish (get "input" testInit) (get "url" testInit)) in *.
  assert (Hi0 : wf i0) by (apply wf_nullish; now apply get_wf).
  destruct (set_input i0 t2) as [t3|] eqn:E3; [|discriminate]. simpl in H.
  destruct (set_items zotero (get "items" testInit) t3) as [t4|] eqn:E4;
    [|discriminate].
  simpl in H.
  (* what each setter stored *)
  assert (H2 : exists d, t2 = mkTest ty d VUndef VUndef Multiple
                 /\ wf d
                 /\ (d = VUndef
                     \/ (truthy d = true
                         /\ (strict_eq d (VBool true)
                             || (typeof d =? "number")) = true))).
  { unfold set_defer in E2. simpl in E2. destruct (truthy d0) eqn:Ht.
    - destruct (negb (strict_eq d0 (VBool true))
                && negb (typeof d0 =? "number")) eqn:Ec; [discriminate|].
      injection E2 as <-. exists d0. repeat split; auto. right. split; auto.
      destruct (strict_eq d0 (VBool true)), (typeof d0 =? "number");
        simpl in *; auto; discriminate.
    - injection E2 as <-. exists VUndef. repeat split; auto. }
  destruct H2 as [d [-> [Hwd Hd]]].
  assert (H3 : t3 = mkTest ty d i0 VUndef Multiple
               /\ typeof i0 = match ty with
                              | TWeb | TImport => "string"
                              | _ => "object"
                              end).
  { unfold set_input in E3. simpl in E3.
    destruct (String.eqb_spec (typeof i0)
                (match ty with TWeb | TImport => "string" | _ => "object" end))
      as [Ei|]; [|discriminate].
    simpl in E3. injection E3 as <-. auto. }
  destruct H3 as [-> Hi].
  assert (H4 : exists it,
            t4 = mkTest ty d i0 VUndef it
            /\ match it with
               | Multiple => True
               | Records l =>
                   Forall (fun r => sanitize zotero r = Return r) l
                   /\ Forall wf l
               end).
  { destruct (set_items_inv _ _ _ _ E4)
      as [[_ ->]|[raws [recs [Eraw [Hall ->]]]]]; simpl.
    - exists Multiple. auto.
    - exists (Records recs). split; [reflexivity|].
      apply (records_checked raws); [|exact Hall].
      pose proof (get_wf "items" testInit Hwf) as Hw. rewrite Eraw in Hw.
      now apply wf_arr in Hw. }
  destruct H4 as [it [-> Hit]].
  set (inferred := _inferItemType (mkTest ty d i0 VUndef it)) in *.
  set (x := nullish (get "detectedItemType" testInit) inferred) in *.
  assert (Hinferred : wf inferred).
  { unfold inferred, _inferItemType. simpl.
    destruct ty, it as [|[|first rest]]; try exact I.
    destruct Hit as [_ Hit]. inversion Hit; subst. now apply own_prop_wf. }
  assert (Hwx : wf x) by (apply wf_nullish; [now apply get_wf | exact Hinferred]).
  unfold set_detectedItemType in H. simpl in H.
  destruct (negb (strict_eq x VUndef) && negb (typeof x =? "string")
            && negb (typeof x =? "boolean")) eqn:Ex; [discriminate|].
  injection H as <-. constructor.
  - exact Hd.
  - exact Hi.
  - simpl. destruct it; [exact I | apply Hit].
  - simpl. destruct (strict_eq x VUndef), (typeof x =? "string"),
      (typeof x =? "boolean"); simpl in *; auto; discriminate.
  - simpl. intros Hx.
    rewrite (inferItemType_fields ty d i0 x d i0 VUndef it).
    fold inferred. unfold x in Hx.
    destruct (get "detectedItemType" testInit); simpl in Hx;
      try discriminate; exact Hx.
  - apply wf_obj. split; [apply toJSON_keys_NoDup|].
    unfold toJSON. cbn [_type _defer _input _detectedItemType _items].
    repeat (constructor; [cbn [snd]|]); try exact I; auto.
    + destruct (truthy x && _); [exact I | exact Hwx].
    + destruct it as [|recs]; [exact I|]. apply wf_arr. apply Hit.
Qed.


End RoundTrip.

(** C6 at a search test whose input is [null]: the constructor accepts it
    ([typeof null] is ['object'], so the check of the input setter lets it
    through), and refuses the test case's own serialisation, where [??]
    takes the [null] for an absent input. *)
Lemma Test_null_input_not_rebuilt :
  let config := [("type", VStr "search"); ("url", VNull); ("items", VArr [])] in
  let t := mkTest TSearch VUndef VNull (VBool false) (Records []) in
  Test_new Example.zotero config = Return t
  /\ Test_new Example.zotero (toJSON t)
     = Throw (Error "search test input must be a string").
Proof. split; reflexivity. Qed.

(** ** [run] returns *)

Lemma json_obj_length o : (List.length (json_obj o) <= List.length o)%nat.
Proof.
  induction o as [|[k x] o IH]; simpl; [lia|].
  destruct x; simpl; lia.
Qed.

Lemma json_obj_fixed_clean o :
  json_obj o = o -> Forall (fun kv => clean (snd kv)) o.
Proof.
  induction o as [|[k x] o IH]; simpl; intros H; [constructor|].
  assert (Hx : x <> VUndef).
  { intros ->. pose proof (json_obj_length o) as Hlen.
    rewrite H in Hlen. simpl in Hlen. lia. }
  destruct x; try congruence;
    (constructor;
     [split; [exact Hx | simpl in *; congruence] | apply IH; congruence]).
Qed.

Lemma json_elems_fixed_clean l :
  map json_elem l = l -> Forall clean l.
Proof.
  induction l as [|x l IH]; simpl; intros H; constructor.
  - injection H as Hx _. destruct x; try discriminate;
      (split; [discriminate | exact Hx]).
  - apply IH. now injection H.
Qed.

Lemma chars_length s : List.length (chars s) = String.length s.
Proof. induction s; simpl; congruence. Qed.

Lemma index_of_key_lt k n i : index_of_key k n = Some i -> (i < n)%nat.
Proof.
  unfold index_of_key. intros H. apply find_some in H.
  destruct H as [H _]. apply in_seq in H. lia.
Qed.

(** An own property of a clean value is clean. *)
Lemma own_prop_clean name b key :
  clean b -> hasOwnProperty name b key = Return true ->
  clean (own_prop b key).
Proof.
  intros [Hne Hb] H. destruct b as [| |c|n|s|l|o]; simpl in *;
    try discriminate.
  - destruct (key =? "length"); [split; [discriminate | reflexivity]|].
    destruct (index_of_key key (String.length s)) as [i|] eqn:Ei;
      [|discriminate].
    apply index_of_key_lt in Ei. rewrite <- chars_length in Ei.
    rewrite (nth_indep _ VUndef (VStr ""))
      by (now rewrite length_map).
    rewrite (map_nth VStr). split; [discriminate | reflexivity].
  - destruct (key =? "length"); [split; [discriminate | reflexivity]|].
    destruct (index_of_key key (List.length l)) as [i|] eqn:Ei;
      [|discriminate].
    apply index_of_key_lt in Ei.
    injection Hb as Hl. apply json_elems_fixed_clean in Hl.
    rewrite Forall_forall in Hl. apply Hl. now apply nth_In.
  - destruct (has_key "hasOwnProperty" o); [discriminate|].
    injection H as H. injection Hb as Ho.
    apply json_obj_fixed_clean in Ho. now apply (get_Forall clean).
Qed.

Lemma own_prop_unshadowed b key :
  unshadowed b = true -> unshadowed (own_prop b key) = true.
Proof.
  intros Hun. destruct b as [| |c|n|s|l|o]; simpl own_prop;
    try reflexivity.
  - destruct (key =? "length"); [reflexivity|].
    destruct (index_of_key key (String.length s)) as [i|]; [|reflexivity].
    destruct (nth_in_or_default i (map VStr (chars s)) VUndef)
      as [Hin | ->]; [|reflexivity].
    apply in_map_iff in Hin. destruct Hin as [c [<- _]]. reflexivity.
  - destruct (key =? "length"); [reflexivity|].
    destruct (index_of_key key (List.length l)) as [i|]; [|reflexivity].
    destruct (nth_in_or_default i l VUndef) as [Hin | ->]; [|reflexivity].
    apply unshadowed_arr in Hun. rewrite Forall_forall in Hun.
    now apply Hun.
  - now apply get_unshadowed.
Qed.

Section RunReturns.

Variable zotero : Zotero.

Lemma hasOwnProperty_returns name b key :
  b <> VUndef -> b <> VNull -> unshadowed b = true ->
  exists h, hasOwnProperty name b key = Return h.
Proof.
  intros Hu Hn Hun. destruct b as [| |c|n|s|l|o]; simpl; eauto;
    try congruence.
  apply unshadowed_obj in Hun. destruct Hun as [-> _]. eauto.
Qed.

Lemma deepEqual_properties_returns a b rest :
  (forall key, exists h, hasOwnProperty "a" a key = Return h) ->
  (forall key x, In (key, x) rest ->
     exists h, hasOwnProperty "b" b key = Return h
               /\ (h = true ->
                   exists e, deepEqual zotero x (own_prop b key) = Return e)) ->
  exists r, deepEqual_properties zotero a b rest = Return r.
Proof.
  intros Ha. induction rest as [|[key x] rest IH]; intros H; simpl; [eauto|].
  assert (Hrest : exists r, deepEqual_properties zotero a b rest = Return r).
  { apply IH. intros k y Hin. apply H. now right. }
  destruct (Ha key) as [ha ->]. simpl. destruct ha; [|exact Hrest].
  destruct (H key x (or_introl eq_refl)) as [h [-> Hh]]. simpl.
  destruct h; [|eauto].
  destruct (Hh eq_refl) as [e ->]. simpl.
  destruct e; [exact Hrest | eauto].
Qed.

Lemma deepEqual_keys_returns a b keys :
  (forall key, exists h, hasOwnProperty "a" a key = Return h) ->
  (forall key, exists h, hasOwnProperty "b" b key = Return h) ->
  exists r, deepEqual_keys a b keys = Return r.
Proof.
  intros Ha Hb. induction keys as [|key keys IH]; simpl; [eauto|].
  destruct (Hb key) as [hb ->]. simpl. destruct hb; [|exact IH].
  destruct (Ha key) as [ha ->]. simpl. destruct ha; [exact IH | eauto].
Qed.

Lemma deepEqual_elements_returns la :
  Forall (fun x => forall y, unshadowed y = true -> clean y ->
                   exists e, deepEqual zotero x y = Return e) la ->
  forall lb, Forall (fun y => unshadowed y = true) lb -> Forall clean lb ->
  exists r, deepEqual_elements zotero la lb = Return r.
Proof.
  induction 1 as [|x la Hx Hla IH]; intros [|y lb] Hun Hlb; simpl; eauto.
  inversion Hlb; subst. inversion Hun; subst.
  destruct (Hx y) as [e ->]; [assumption | assumption |]. simpl.
  destruct e; eauto.
Qed.

(** Between values in which no object has a property named
    [hasOwnProperty], and against a value that has been through a JSON
    round trip, [deepEqual] returns. *)
Lemma deepEqual_returns a :
  unshadowed a = true ->
  forall b, unshadowed b = true -> clean b ->
  exists e, deepEqual zotero a b = Return e.
Proof.
  induction a as [| |c|n|s|l IH|o IH] using value_ind;
    intros Ha b Hun Hb; try (simpl; eauto; fail).
  - destruct b; simpl; eauto.
  - destruct b as [| |c|n|s|lb|fb]; try (simpl; eauto; fail).
    rewrite deepEqual_arr. apply unshadowed_arr in Ha.
    apply deepEqual_elements_returns.
    + rewrite Forall_forall in *. intros x Hx. auto.
    + now apply unshadowed_arr.
    + destruct Hb as [_ Hb]. injection Hb as Hb.
      now apply json_elems_fixed_clean.
  - rewrite deepEqual_obj.
    pose proof Ha as Ha'. apply unshadowed_obj in Ha'.
    destruct Ha' as [Hown Hall].
    assert (Hself : forall key,
              exists h, hasOwnProperty "a" (VObj o) key = Return h).
    { intros key. rewrite hasOwnProperty_obj by exact Hown. eauto. }
    assert (Hloop : b <> VNull ->
              exists r, deepEqual_properties zotero (VObj o) b o = Return r).
    { intros Hnull. apply deepEqual_properties_returns; [exact Hself|].
      intros key x Hin.
      destruct (hasOwnProperty_returns "b" b key (proj1 Hb) Hnull Hun)
        as [h Eh].
      exists h. split; [exact Eh|]. intros ->.
      rewrite Forall_forall in IH, Hall.
      apply (IH (key, x) Hin); [now apply (Hall (key, x))| |].
      - now apply own_prop_unshadowed.
      - now apply (own_prop_clean "b"). }
    assert (Hkeys : b <> VNull ->
              exists r, deepEqual_keys (VObj o) b (enum_keys b) = Return r).
    { intros Hnull. apply deepEqual_keys_returns; [exact Hself|].
      intros key. now apply hasOwnProperty_returns; [apply Hb | |]. }
    destruct b; eauto;
      (destruct Hloop as [r Hr]; [discriminate|]);
      rewrite Hr; simpl; destruct r; eauto; apply Hkeys; discriminate.
Qed.

Lemma deepEqual_primitive a b :
  primitive a -> exists e, deepEqual zotero a b = Return e.
Proof. destruct a; simpl; try contradiction; eauto. destruct b; eauto. Qed.

Lemma toJSON_own t : has_key "hasOwnProperty" (toJSON t) = false.
Proof. unfold toJSON. now destruct (_type t). Qed.

(** [equals] returns when the two test cases have the same type and input,
    the records of the second are normalised, and neither serialisation
    has a property named [hasOwnProperty]. *)
Lemma equals_returns test updated :
  _type updated = _type test ->
  _input updated = _input test ->
  wf (_input test) ->
  primitive (_defer test) ->
  primitive (_detectedItemType test) ->
  clean (items_value (_items updated)) ->
  unshadowed (VObj (toJSON test)) = true ->
  unshadowed (items_value (_items updated)) = true ->
  exists e, equals zotero test updated = Return e.
Proof.
  intros Hty Hin Hwf Hd Hx Hit Hun Hun'. unfold equals.
  rewrite deepEqual_obj.
  assert (Hself : forall key,
            exists h, hasOwnProperty "a" (VObj (toJSON test)) key = Return h).
  { intros key. rewrite hasOwnProperty_obj by apply toJSON_own. eauto. }
  assert (Hother : forall key,
            exists h,
              hasOwnProperty "b" (VObj (toJSON updated)) key = Return h).
  { intros key. rewrite hasOwnProperty_obj by apply toJSON_own. eauto. }
  assert (Hinput : unshadowed (_input test) = true
                   /\ unshadowed (items_value (_items test)) = true).
  { apply unshadowed_obj in Hun. destruct Hun as [_ Hall].
    unfold toJSON in Hall.
    inversion Hall as [|? ? _ Hall1]; subst.
    inversion Hall1 as [|? ? _ Hall2]; subst.
    inversion Hall2 as [|? ? Hi Hall3]; subst.
    inversion Hall3 as [|? ? _ Hall4]; subst.
    inversion Hall4 as [|? ? Hitems _]; subst. now split. }
  destruct Hinput as [Hui Huit].
  assert (Hloop : exists r,
            deepEqual_properties zotero (VObj (toJSON test))
              (VObj (toJSON updated)) (toJSON test)
            = Return r).
  { apply deepEqual_properties_returns; [exact Hself|]. intros key x Hkx.
    destruct (Hother key) as [h Eh]. exists h. split; [exact Eh|].
    intros Hk.
    unfold toJSON in Hkx. simpl in Hkx.
    destruct Hkx as [E|[E|[E|[E|[E|[]]]]]]; injection E as <- <-.
    - apply deepEqual_primitive. exact I.
    - now apply deepEqual_primitive.
    - assert (Ei : own_prop (VObj (toJSON updated))
                     (match _type test with TWeb => "url" | _ => "input" end)
                   = _input test).
      { unfold toJSON. rewrite Hty, Hin. simpl.
        destruct (_type test); reflexivity. }
      rewrite Ei. exists true. now apply deepEqual_refl.
    - apply deepEqual_primitive.
      destruct (truthy _ && _); [exact I | exact Hx].
    - assert (Ei : own_prop (VObj (toJSON updated)) "items"
                   = items_value (_items updated)).
      { unfold toJSON. simpl. destruct (_type updated); reflexivity. }
      rewrite Ei. now apply deepEqual_returns. }
  destruct Hloop as [r ->]. cbn [bind]. destruct r; [|eauto].
  now apply deepEqual_keys_returns.
Qed.

Hypothesis coherent : Coherent zotero.

Lemma records_accepted raws :
  Forall (fun raw => exists r,
            sanitizeItem zotero raw = Return r
            /\ unshadowed (VObj r) = true) raws ->
  exists recs,
    mapM (sanitize zotero) (map VObj raws) = Return recs
    /\ Forall clean recs
    /\ Forall (fun r => unshadowed r = true) recs.
Proof.
  induction 1 as [|raw raws [r [Hr Hun]] Hall [recs [IH1 [IH2 IH3]]]].
  - exists []. repeat split; constructor.
  - exists (VObj r :: recs). cbn [map mapM].
    rewrite sanitize_record, Hr. cbn [bind]. rewrite IH1. cbn [bind].
    split; [reflexivity|]. split; constructor; auto.
    split; [discriminate|]. rewrite json_obj_eq. f_equal.
    apply json_obj_fix. now apply (sanitizeItem_clean zotero coherent raw).
Qed.

(** The verdict on a result that honours the contract is a structured
    outcome. *)
Lemma classify_returns test result :
  checked zotero test -> _input test <> VNull ->
  unshadowed (VObj (toJSON test)) = true ->
  honoursContract zotero result ->
  exists outcome, classify zotero test result = Return outcome.
Proof.
  intros Hc Hnull Hun [Hdit Hitems]. unfold classify.
  destruct (truthy (items result)) eqn:Ht; simpl.
  2:{ destruct (_ && _); eauto. }
  unfold Test_clone. rewrite (checked_roundtrip zotero test Hc Hnull). simpl.
  unfold set_detectedItemType at 1.
  assert (Hd : negb (strict_eq (detectedItemType result) VUndef)
               && negb (typeof (detectedItemType result) =? "string")
               && negb (typeof (detectedItemType result) =? "boolean")
               = false).
  { destruct (strict_eq _ VUndef), (typeof _ =? "string"),
      (typeof _ =? "boolean"); simpl in *; auto; discriminate. }
  rewrite Hd. simpl.
  set (typed := mkTest (_type test) (_defer test) (_input test)
                  (detectedItemType result) (_items test)).
  assert (Hupd : exists it,
            set_items zotero (items result) typed
            = Return (mkTest (_type test) (_defer test) (_input test)
                        (detectedItemType result) it)
            /\ clean (items_value it)
            /\ unshadowed (items_value it) = true).
  { destruct Hitems as [Hf|[->|[raws [-> Hall]]]]; [congruence| |].
    - exists Multiple. split; [reflexivity|]. split; [|reflexivity].
      split; [discriminate | reflexivity].
    - destruct (records_accepted raws Hall) as [recs [Hm [Hclean Hrecs]]].
      exists (Records recs). unfold set_items. rewrite Hm. simpl.
      split; [reflexivity|]. split; [|now apply unshadowed_arr].
      split; [discriminate|].
      unfold items_value. rewrite json_arr_eq. f_equal.
      clear Hm Hrecs. induction Hclean as [|r recs Hr Hrest IH];
        [reflexivity|].
      simpl. now rewrite (json_elem_clean_fix r Hr), IH. }
  destruct Hupd as [it [-> [Hclean Hunit]]].
  cbn [bind].
  match goal with
  | |- exists _, (if ?c then _ else _) = _ => destruct c; [eauto|]
  end.
  match goal with
  | |- exists _, (if ?c then _ else _) = _ => destruct c; [eauto|]
  end.
  set (updated := mkTest (_type test) (_defer test) (_input test)
                    (detectedItemType result) it).
  destruct (equals_returns test updated) as [same ->];
    try reflexivity; try exact Hclean; try exact Hun; try exact Hunit.
  - pose proof (checked_wf _ _ Hc) as Hwf. apply wf_obj in Hwf.
    destruct Hwf as [_ Hall]. unfold toJSON in Hall.
    inversion Hall as [|? ? _ Hall1]; subst.
    inversion Hall1 as [|? ? _ Hall2]; subst.
    inversion Hall2 as [|? ? Hi _]; subst. exact Hi.
  - destruct (checked_defer _ _ Hc) as [->|[_ Hd']]; [exact I|].
    destruct (_defer test); simpl in *; try exact I; discriminate.
  - pose proof (checked_detectedItemType _ _ Hc) as Hx.
    destruct (_detectedItemType test); simpl in *; try exact I;
      discriminate.
  - cbn [bind]. destruct (negb same); eauto.
Qed.

(** C1, as the code has it: a fault of the extraction path of a web,
    import or search test is caught and returned as a failure whose reason
    is the fault's description; a collected result without records ends in
    a structured result, and so does every result that honours the
    contract of the extraction, for a test case fresh from the constructor
    whose input is not [null] and whose serialisation has no property
    named [hasOwnProperty].  An export test is not answered with a result
    at all: [run] throws "Export tests are not yet supported". *)
Theorem run_catches_extraction_faults (test : Test) (c : Collaborators) :
  (_type test = TExport ->
   run zotero test c = Throw (Error "Export tests are not yet supported"))
  /\ (_type test <> TExport ->
      forall e, extraction test c = Throw e ->
        run zotero test c
        = Return (mkOutcome failure (Some (VStr (String_exn e))) None))
  /\ (_type test <> TExport ->
      forall result, extraction test c = Return result ->
        truthy (items result) = false ->
        exists st why, run zotero test c
                       = Return (mkOutcome st why None))
  /\ (_type test <> TExport ->
      forall result, extraction test c = Return result ->
        checked zotero test -> _input test <> VNull ->
        unshadowed (VObj (toJSON test)) = true ->
        honoursContract zotero result ->
        exists outcome, run zotero test c = Return outcome).
Proof.
  split; [|split; [|split]].
  - intros H. unfold run. now rewrite H.
  - intros H e He. now rewrite run_dispatch, He.
  - intros H result Hr Hitems. rewrite run_dispatch, Hr by assumption.
    simpl. unfold classify. rewrite Hitems. simpl.
    destruct (_ && _); eauto.
  - intros H result Hr Hc Hnull Hun Hcontract.
    rewrite run_dispatch, Hr by assumption. simpl.
    now apply classify_returns.
Qed.

End RunReturns.

(** ** Checking well-formedness by computation *)

Lemma distinct_NoDup l : distinct l = true -> NoDup l.
Proof.
  induction l as [|k l IH]; simpl; [constructor|].
  intros H. apply andb_prop in H. destruct H as [Hk Hl].
  constructor; [|auto].
  intros Hin. apply negb_true_iff in Hk.
  assert (existsb (String.eqb k) l = true); [|congruence].
  apply existsb_exists. exists k. split; [exact Hin | apply String.eqb_refl].
Qed.

Lemma wfb_sound v : wfb v = true -> wf v.
Proof.
  induction v as [| |b|n|s|l IH|o IH] using value_ind; intros H;
    try exact I.
  - apply wf_arr. simpl in H. rewrite forallb_forall in H.
    rewrite Forall_forall in *. auto.
  - apply wf_obj. simpl in H. apply andb_prop in H. destruct H as [Hd Ha].
    split; [now apply distinct_NoDup|].
    rewrite forallb_forall in Ha. rewrite Forall_forall in *. auto.
Qed.

(** ** Concrete runs of the theorems *)

(** An export test, a web test whose page cannot be fetched, and the book
    test run against a page that yields the raw book record. *)
Lemma run_catches_extraction_faults_witness :
  run Example.zotero Example.exportTest
    (Example.collaborators Example.idleWeb Example.idleEngine)
  = Throw (Error "Export tests are not yet supported")
  /\ run Example.zotero Example.emptyWebTest
       (Example.collaborators
          {| fetchPage := Throw (Error "connection refused");
             waitForLoad := Return true;
             runTranslation := Return (mkResult VUndef VUndef VUndef);
             numSelectItemsCalls := 0;
             destroy := Return tt |}
          Example.idleEngine)
     = Return (mkOutcome failure (Some (VStr "Error: connection refused"))
                 None)
  /\ exists outcome,
       run Example.zotero Example.bookTest
         (Example.collaborators
            (Example.webRun
               (mkResult (VStr "book") (VArr [VObj Example.rawBook]) VUndef)
               0)
            Example.idleEngine)
       = Return outcome.
Proof.
  split; [|split].
  - apply (proj1 (run_catches_extraction_faults Example.zotero
                    example_coherent Example.exportTest _)).
    reflexivity.
  - apply (proj1 (proj2 (run_catches_extraction_faults Example.zotero
                           example_coherent Example.emptyWebTest _))
             ltac:(discriminate) (Error "connection refused")).
    reflexivity.
  - apply (proj2 (proj2 (proj2 (run_catches_extraction_faults Example.zotero
                                  example_coherent Example.bookTest _)))
             ltac:(discriminate)
             (mkResult (VStr "book") (VArr [VObj Example.rawBook]) VUndef)).
    + reflexivity.
    + apply (Test_new_checked Example.zotero example_coherent
               Example.bookConfig).
      * apply wfb_sound. reflexivity.
      * vm_compute. reflexivity.
    + simpl. discriminate.
    + reflexivity.
    + split; [reflexivity|]. right. right. exists [Example.rawBook].
      split; [reflexivity|]. constructor; [|constructor].
      exists Example.book. split; vm_compute; reflexivity.
Defined.

(** Two records after two calls of the selection handler. *)
Lemma translateWeb_selectItems_twice_witness :
  let result :=
    mkResult (VStr "book")
      (VArr [VObj Example.rawBook; VObj Example.rawBook]) VUndef in
  (1 < numSelectItemsCalls (Example.webRun result 2))%nat
  /\ _translateWeb Example.multipleTest (Example.webRun result 2)
     = Return (mkResult (VStr "book") VNull
                 (VStr "Translator called selectItems multiple times")).
Proof.
  simpl. split; [lia|].
  apply (proj1 (translateWeb_selectItems_twice Example.multipleTest
                  (Example.webRun
                     (mkResult (VStr "book")
                        (VArr [VObj Example.rawBook; VObj Example.rawBook])
                        VUndef) 2)
                  true _ eq_refl eq_refl eq_refl eq_refl eq_refl
                  ltac:(simpl; lia))).
  reflexivity.
Defined.

(** The item type of the raw book record survives. *)
Lemma sanitizeItem_keeps_skipped_fields_witness :
  In "itemType" skipFields
  /\ get "itemType" Example.rawBook <> VUndef
  /\ has_key "itemType" Example.book = true.
Proof.
  assert (Hin : In "itemType" skipFields) by (simpl; tauto).
  assert (Hget : get "itemType" Example.rawBook <> VUndef)
    by (simpl; discriminate).
  split; [exact Hin|]. split; [exact Hget|].
  apply (sanitizeItem_keeps_skipped_fields Example.zotero Example.rawBook
           Example.book "itemType" Hin Hget).
  vm_compute. reflexivity.
Defined.

(** The book test: [detectedItemType] is "book", as inferred. *)
Lemma toJSON_omits_truthy_inferred_type_witness :
  get "detectedItemType" (toJSON Example.bookTest) = VUndef
  /\ has_key "detectedItemType" (json_obj (toJSON Example.bookTest)) = false.
Proof.
  apply (proj1 (toJSON_omits_truthy_inferred_type Example.bookTest));
    reflexivity.
Defined.

(** The raw book record: its normal form is normalised to itself. *)
Lemma sanitizeItem_idempotent_witness :
  wf (VObj Example.rawBook)
  /\ (normal <- sanitizeItem Example.zotero Example.rawBook ;;
      sanitizeItem Example.zotero normal)
     = sanitizeItem Example.zotero Example.rawBook.
Proof.
  assert (Hwf : wf (VObj Example.rawBook))
    by (apply wfb_sound; reflexivity).
  split; [exact Hwf|].
  exact (sanitizeItem_idempotent Example.zotero example_coherent
           Example.rawBook Hwf).
Defined.


(** A test that expects "multiple": the translator calls the selection
    handler once, so the items are "multiple" on both sides, but the page is
    detected as a book. *)
Lemma run_wrong_item_type_first_witness :
  let result :=
    mkResult (VStr "book")
      (VArr [VObj Example.rawBook; VObj Example.rawBook]) VUndef in
  let c := Example.collaborators (Example.webRun result 1)
             Example.idleEngine in
  let updated :=
    mkTest TWeb VUndef (VStr "https://example.org/search") (VStr "book")
      Multiple in
  _items Example.multipleTest = Multiple
  /\ extraction Example.multipleTest c
     = Return (mkResult (VStr "book") (VStr "multiple") VUndef)
  /\ run Example.zotero Example.multipleTest c
     = Return (mkOutcome failure
                 (Some (VStr "Detection returned wrong item type"))
                 (Some updated)).
Proof.
  simpl. split; [reflexivity|]. split; [reflexivity|].
  apply (proj2 (run_wrong_item_type_first Example.zotero
                  Example.multipleTest
                  (Example.collaborators
                     (Example.webRun
                        (mkResult (VStr "book")
                           (VArr [VObj Example.rawBook; VObj Example.rawBook])
                           VUndef) 1)
                     Example.idleEngine)
                  (mkResult (VStr "book") (VStr "multiple") VUndef)
                  ltac:(discriminate) eq_refl eq_refl)
           (mkTest TWeb VUndef (VStr "https://example.org/search")
              (VStr "book") Multiple)
           eq_refl eq_refl).
Defined.

(** The expected detection failure: nothing detected, no records, [false]
    expected. *)
Lemma run_without_records_witness :
  let c := Example.collaborators
             (Example.webRun (mkResult VUndef (VArr []) VUndef) 0)
             Example.idleEngine in
  run Example.zotero Example.emptyWebTest c
  = Return (mkOutcome success None None).
Proof.
  simpl.
  apply (proj1 (run_without_records Example.zotero Example.emptyWebTest
                  (Example.collaborators
                     (Example.webRun (mkResult VUndef (VArr []) VUndef) 0)
                     Example.idleEngine)
                  (mkResult VUndef VNull
                     (VStr "Translator did not return any items"))
                  ltac:(discriminate) eq_refl eq_refl));
    reflexivity.
Defined.

(** The book test holds a normalised record. *)
Lemma items_always_normalized_witness :
  normalized Example.zotero Example.bookTest.
Proof.
  apply (proj1 (proj2 (items_always_normalized Example.zotero))).
  apply (built_new Example.zotero Example.bookConfig).
  vm_compute. reflexivity.
Defined.

(** * Further properties of the test-case class *)

Section ClassInvariant.

Variable zotero : Zotero.

Lemma set_defer_stores defer this this' :
  set_defer defer this = Return this' ->
  _type this' = _type this /\ _input this' = _input this
  /\ _detectedItemType this' = _detectedItemType this
  /\ _items this' = _items this
  /\ (_defer this' = VUndef \/ _defer this' = VBool true
      \/ exists n, _defer this' = VNum n /\ n <> 0%Z).
Proof.
  unfold set_defer. destruct (truthy defer) eqn:Ht.
  - destruct (negb (strict_eq defer (VBool true))
              && negb (typeof defer =? "number")) eqn:Ec; [discriminate|].
    intros [= <-]. simpl. repeat split.
    destruct defer as [| |[|]|n|s|l|o]; simpl in *; try discriminate; auto.
    right. right. exists n. split; [reflexivity|].
    intros ->. discriminate.
  - intros [= <-]. simpl. repeat split. now left.
Qed.

Lemma set_detectedItemType_stores d this this' :
  set_detectedItemType d this = Return this' ->
  _type this' = _type this /\ _defer this' = _defer this
  /\ _input this' = _input this /\ _items this' = _items this
  /\ _detectedItemType this' = d
  /\ (d = VUndef \/ (exists s, d = VStr s) \/ (exists b, d = VBool b)).
Proof.
  unfold set_detectedItemType.
  destruct (negb (strict_eq d VUndef) && negb (typeof d =? "string")
            && negb (typeof d =? "boolean")) eqn:E; [discriminate|].
  intros [= <-]. simpl. repeat split.
  destruct d; simpl in *; try discriminate; eauto.
Qed.

Lemma set_items_keeps items this this' :
  set_items zotero items this = Return this' ->
  _type this' = _type this /\ _defer this' = _defer this
  /\ _input this' = _input this
  /\ _detectedItemType this' = _detectedItemType this.
Proof.
  intros H.
  destruct (set_items_inv _ _ _ _ H) as [[_ ->]|[raws [recs [_ [_ ->]]]]];
    simpl; auto.
Qed.

Lemma built_fields (t : Test) :
  built zotero t ->
  (_defer t = VUndef \/ _defer t = VBool true
   \/ exists n, _defer t = VNum n /\ n <> 0%Z)
  /\ (_detectedItemType t = VUndef
      \/ (exists s, _detectedItemType t = VStr s)
      \/ (exists b, _detectedItemType t = VBool b)).
Proof.
  induction 1 as
    [init t H | v t t' Hb IH H | v t t' Hb IH H | v t t' Hb IH H
     | v t t' Hb IH H | v t t' Hb IH H | v t t' Hb IH H].
  - unfold Test_new in H.
    destruct (set_type _ blank) as [t1|]; [|discriminate]. simpl in H.
    destruct (set_defer _ t1) as [t2|] eqn:E2; [|discriminate]. simpl in H.
    destruct (set_input _ t2) as [t3|] eqn:E3; [|discriminate]. simpl in H.
    destruct (set_items zotero _ t3) as [t4|] eqn:E4; [|discriminate].
    simpl in H.
    destruct (set_defer_stores _ _ _ E2) as [_ [_ [_ [_ Hd]]]].
    destruct (set_items_keeps _ _ _ E4) as [_ [Hd4 _]].
    destruct (set_detectedItemType_stores _ _ _ H)
      as [_ [Hd5 [_ [_ [Hx Hshape]]]]].
    assert (Hd3 : _defer t3 = _defer t2).
    { unfold set_input in E3. destruct (negb _); [discriminate|].
      now injection E3 as <-. }
    rewrite Hd5, Hd4, Hd3, Hx. auto.
  - unfold set_type in H. destruct (TEST_TYPES_includes v); [|discriminate].
    injection H as <-. exact IH.
  - destruct (set_defer_stores _ _ _ H) as [_ [_ [Hx [_ Hd]]]].
    rewrite Hx. split; [exact Hd | apply IH].
  - unfold set_input in H. destruct (negb _); [discriminate|].
    injection H as <-. exact IH.
  - unfold set_url in H. destruct (_type t); try discriminate.
    injection H as <-. exact IH.
  - destruct (set_detectedItemType_stores _ _ _ H)
      as [_ [Hd [_ [_ [Hx Hshape]]]]].
    rewrite Hd, Hx. split; [apply IH | exact Hshape].
  - destruct (set_items_keeps _ _ _ H) as [_ [Hd [_ Hx]]].
    rewrite Hd, Hx. exact IH.
Qed.

(** X1: whatever sequence of constructor and setter calls produced a test
    case, its [defer] is [undefined], [true] or a number other than zero
    (a negative one is accepted), and its [detectedItemType] is
    [undefined], a string or a boolean. *)
Theorem built_fields_validated (t : Test) :
  built zotero t ->
  (_defer t = VUndef \/ _defer t = VBool true
   \/ exists n, _defer t = VNum n /\ n <> 0%Z)
  /\ (_detectedItemType t = VUndef
      \/ (exists s, _detectedItemType t = VStr s)
      \/ (exists b, _detectedItemType t = VBool b)).
Proof. apply built_fields. Qed.

Lemma set_defer_again d this :
  (d = VUndef \/ d = VBool true \/ exists n, d = VNum n /\ n <> 0%Z) ->
  set_defer (nullish d (VBool false)) this
  = Return (mkTest (_type this) d (_input this) (_detectedItemType this)
              (_items this)).
Proof.
  intros [->|[->|[n [-> Hn]]]]; try reflexivity.
  unfold set_defer. simpl. destruct (Z.eqb_spec n 0); [contradiction|].
  reflexivity.
Qed.

(** X2: the [url] setter stores whatever it is given.  On a web test it
    accepts a value that is not a string, [get url] returns that value,
    and the test case can no longer be copied: the constructor refuses its
    serialisation.  On a test of another type setter and getter throw. *)
Theorem set_url_unvalidated (t : Test) (url : value) :
  built zotero t ->
  (_type t = TWeb ->
   exists t',
     set_url url t = Return t'
     /\ get_url t' = Return url
     /\ (typeof url <> "string" ->
         Test_clone zotero t'
         = Throw (Error "web test input must be a string")))
  /\ (_type t <> TWeb ->
      set_url url t = Throw (Error (type_name (_type t) ++ " test has no url"))
      /\ get_url t
         = Throw (Error (type_name (_type t) ++ " test has no url"))).
Proof.
  intros Hb. split.
  - intros Hweb. unfold set_url. rewrite Hweb.
    eexists. split; [reflexivity|]. split; [reflexivity|].
    intros Hty. unfold Test_clone, Test_new.
    rewrite toJSON_type, toJSON_defer. simpl _type.
    unfold set_type. rewrite TEST_TYPES_includes_name. simpl.
    rewrite (set_defer_again (_defer t))
      by apply (proj1 (built_fields t Hb)).
    simpl. unfold set_input. simpl.
    assert (Hin : typeof (nullish VUndef url) <> "string")
      by (destruct url; simpl in *; congruence).
    simpl in Hin.
    destruct (String.eqb_spec (typeof match url with
                                      | VUndef | VNull => url
                                      | _ => url
                                      end) "string") as [E|E].
    + exfalso. apply Hty. destruct url; exact E.
    + destruct url; simpl in *; try reflexivity; congruence.
  - intros Hne. unfold set_url, get_url.
    destruct (_type t); try contradiction; split; reflexivity.
Qed.

End ClassInvariant.

Lemma built_fields_validated_witness :
  built Example.zotero Example.bookTest
  /\ _defer Example.bookTest = VUndef
  /\ exists s, _detectedItemType Example.bookTest = VStr s.
Proof.
  assert (Hb : built Example.zotero Example.bookTest).
  { apply (built_new Example.zotero Example.bookConfig).
    vm_compute. reflexivity. }
  split; [exact Hb|].
  destruct (built_fields_validated Example.zotero Example.bookTest Hb)
    as [[Hd|[Hd|[n [Hd _]]]] [Hx|[Hx|[b Hx]]]];
    try discriminate.
  split; [exact Hd | exact Hx].
Defined.

Lemma set_url_unvalidated_witness :
  exists t',
    set_url (VNum 5) Example.bookTest = Return t'
    /\ get_url t' = Return (VNum 5)
    /\ Test_clone Example.zotero t'
       = Throw (Error "web test input must be a string").
Proof.
  assert (Hb : built Example.zotero Example.bookTest).
  { apply (built_new Example.zotero Example.bookConfig).
    vm_compute. reflexivity. }
  destruct (proj1 (set_url_unvalidated Example.zotero Example.bookTest
                     (VNum 5) Hb) eq_refl) as [t' [H1 [H2 H3]]].
  exists t'. split; [exact H1|]. split; [exact H2|].
  apply H3. simpl. discriminate.
Defined.

(** * Further properties of the runner *)

Section Verdicts.

Variable zotero : Zotero.

(** Every way in which [classify] returns. *)
Lemma classify_cases test result outcome :
  classify zotero test result = Return outcome ->
  (truthy (items result) = false
   /\ outcome
      = if negb (truthy (detectedItemType result))
           && strict_eq (_detectedItemType test) (VBool false)
        then mkOutcome success None None
        else mkOutcome failure (Some (reason result)) None)
  \/ (exists cloned typed updated,
        truthy (items result) = true
        /\ Test_clone zotero test = Return cloned
        /\ set_detectedItemType (detectedItemType result) cloned
           = Return typed
        /\ set_items zotero (items result) typed = Return updated
        /\ let expectedMultiple :=
             strict_eq (items_value (_items test)) (VStr "multiple") in
           let gotMultiple := strict_eq (items result) (VStr "multiple") in
           (strict_eq (_detectedItemType test) (detectedItemType result)
            = false
            /\ outcome
               = mkOutcome failure
                   (Some (VStr "Detection returned wrong item type"))
                   (Some updated))
           \/ (strict_eq (_detectedItemType test) (detectedItemType result)
               = true
               /\ expectedMultiple <> gotMultiple
               /\ outcome
                  = mkOutcome failure
                      (Some (VStr ("Expected " ++ arity_name expectedMultiple
                                   ++ ", got " ++ arity_name gotMultiple)))
                      (Some updated))
           \/ (strict_eq (_detectedItemType test) (detectedItemType result)
               = true
               /\ expectedMultiple = gotMultiple
               /\ exists same,
                    equals zotero test updated = Return same
                    /\ outcome
                       = if same
                         then mkOutcome success None (Some updated)
                         else mkOutcome failure (Some (VStr "Data mismatch"))
                                (Some updated))).
Proof.
  unfold classify. intros H.
  destruct (truthy (items result)) eqn:Ht; simpl in H.
  2:{ left. split; [reflexivity|]. destruct (_ && _); now injection H. }
  right.
  destruct (Test_clone zotero test) as [cloned|] eqn:Ec; [|discriminate].
  simpl in H.
  destruct (set_detectedItemType _ cloned) as [typed|] eqn:Et;
    [|discriminate].
  simpl in H.
  destruct (set_items zotero _ typed) as [updated|] eqn:Eu; [|discriminate].
  simpl in H. exists cloned, typed, updated.
  repeat (split; [reflexivity || assumption|]).
  destruct (strict_eq (_detectedItemType test) (detectedItemType result)).
  2:{ simpl in H. left. split; [reflexivity | now injection H]. }
  simpl in H. right.
  destruct (strict_eq (items_value (_items test)) (VStr "multiple")),
    (strict_eq (items result) (VStr "multiple")); simpl in H.
  - right. split; [reflexivity|]. split; [reflexivity|].
    destruct (equals zotero test updated) as [same|]; [|discriminate].
    exists same. split; [reflexivity|]. destruct same; now injection H.
  - left. split; [reflexivity|]. split; [discriminate | now injection H].
  - left. split; [reflexivity|]. split; [discriminate | now injection H].
  - right. split; [reflexivity|]. split; [reflexivity|].
    destruct (equals zotero test updated) as [same|]; [|discriminate].
    exists same. split; [reflexivity|]. destruct same; now injection H.
Qed.

Lemma translateWeb_reason test env r :
  _translateWeb test env = Return r ->
  (truthy (items r) = false -> truthy (reason r) = true)
  /\ (truthy (items r) = true -> reason r = VUndef).
Proof.
  unfold _translateWeb.
  destruct (get_url test); simpl; [|discriminate].
  destruct (fetchPage env); simpl; [|discriminate].
  destruct (try_finally _ _) as [raw|]; simpl; [|discriminate].
  destruct (truthy (items raw)) eqn:Ei; simpl.
  - destruct (no_length (items raw)); [intros [= <-]; simpl; split;
                                       [reflexivity | discriminate]|].
    destruct (1 <? numSelectItemsCalls env)%nat;
      [intros [= <-]; simpl; split; [reflexivity | discriminate]|].
    destruct (negb (numSelectItemsCalls env =? 0)%nat);
      intros [= <-]; simpl; split; try reflexivity; congruence.
  - destruct (truthy (reason raw)) eqn:Er.
    + intros [= <-]. simpl. split; [auto | congruence].
    + destruct (no_length (items raw)) eqn:El.
      * intros [= <-]. simpl. split; [reflexivity | discriminate].
      * destruct (items raw) as [| |[|]|n|s|l|o]; simpl in *;
          try discriminate.
        destruct s; discriminate.
Qed.

(** X3: the shape of what [run] returns.  A success carries no reason and
    a failure always has the [reason] member; a success without an updated
    test is the expected detection failure; and for a web test whose
    extraction returned, the reason of a failure is a truthy value. *)
Theorem run_outcome_shape (test : Test) (c : Collaborators)
    (outcome : Outcome) :
  run zotero test c = Return outcome ->
  (status outcome = success -> outcome_reason outcome = None)
  /\ (status outcome = failure -> exists v, outcome_reason outcome = Some v)
  /\ (status outcome = success -> updatedTest outcome = None ->
      _detectedItemType test = VBool false)
  /\ (_type test = TWeb ->
      forall collected,
        _translateWeb test (webTranslationEnvironment c) = Return collected ->
        status outcome = failure ->
        exists v, outcome_reason outcome = Some v /\ truthy v = true).
Proof.
  intros H.
  assert (Hty : _type test <> TExport).
  { intros E. unfold run in H. rewrite E in H. discriminate. }
  rewrite run_dispatch in H by exact Hty.
  assert (Hcanned : forall s, truthy (VStr (String "E" s)) = true)
    by reflexivity.
  destruct (extraction test c) as [result|e] eqn:Ex; simpl in H.
  2:{ injection H as <-. simpl.
      split; [discriminate|]. split; [eauto|]. split; [discriminate|].
      intros Hweb collected Hc. unfold extraction in Ex.
      rewrite Hweb in Ex. congruence. }
  destruct (classify_cases _ _ _ H)
    as [[Hi ->]|[cloned [typed [updated [Hi [_ [_ [_ Hcase]]]]]]]].
  - destruct (negb (truthy (detectedItemType result))
              && strict_eq (_detectedItemType test) (VBool false)) eqn:E;
      simpl.
    + split; [reflexivity|]. split; [discriminate|]. split; [|discriminate].
      intros _ _. apply andb_prop in E. destruct E as [_ E].
      now apply strict_eq_true in E.
    + split; [discriminate|]. split; [eauto|]. split; [discriminate|].
      intros Hweb collected Hc _. unfold extraction in Ex.
      rewrite Hweb, Hc in Ex. injection Ex as ->.
      exists (reason result). split; [reflexivity|].
      now apply (translateWeb_reason _ _ _ Hc).
  - simpl in Hcase.
    destruct Hcase as [[_ ->]|[[_ [_ ->]]|[_ [_ [[|] [_ ->]]]]]]; simpl.
    + split; [discriminate|]. split; [eauto|]. split; [discriminate|].
      eauto.
    + split; [discriminate|]. split; [eauto|]. split; [discriminate|].
      eauto.
    + split; [reflexivity|]. split; [discriminate|].
      split; discriminate.
    + split; [discriminate|]. split; [eauto|]. split; [discriminate|].
      eauto.
Qed.

(** X4: when the detection pass of an import or search test yields
    nothing, the translation is not consulted; the run succeeds if the
    test expects [false] and fails with "Detection failed" otherwise. *)
Theorem run_detection_failed (test : Test) (c : Collaborators)
    (detected : value) :
  _type test = TImport \/ _type test = TSearch ->
  _detect (engine c) = Return detected ->
  truthy detected = false ->
  run zotero test c
  = Return (if strict_eq (_detectedItemType test) (VBool false)
            then mkOutcome success None None
            else mkOutcome failure (Some (VStr "Detection failed")) None).
Proof.
  intros Hty Hd Ht.
  assert (He : extraction test c
               = Return (mkResult VUndef VNull (VStr "Detection failed"))).
  { unfold extraction, _translateImportOrSearch. rewrite Hd. simpl.
    rewrite Ht. destruct Hty as [-> | ->]; reflexivity. }
  rewrite run_dispatch by (destruct Hty as [E|E]; rewrite E; discriminate).
  rewrite He. simpl. unfold classify. simpl.
  now destruct (strict_eq (_detectedItemType test) (VBool false)).
Qed.

(** X5: a success that carries an updated test is earned: the detected
    type is the expected one, the two sides agree on whether the items are
    the sentinel, and [equals] holds between the expected and the updated
    test. *)
Theorem run_success_sound (test : Test) (c : Collaborators)
    (why : option value) (updated : Test) :
  run zotero test c = Return (mkOutcome success why (Some updated)) ->
  why = None
  /\ equals zotero test updated = Return true
  /\ _detectedItemType updated = _detectedItemType test
  /\ (_items test = Multiple <-> _items updated = Multiple).
Proof.
  intros H.
  assert (Hty : _type test <> TExport).
  { intros E. unfold run in H. rewrite E in H. discriminate. }
  rewrite run_dispatch in H by exact Hty.
  destruct (extraction test c) as [result|e]; simpl in H; [|discriminate].
  destruct (classify_cases _ _ _ H)
    as [[_ Ho]|[cloned [typed [u [_ [_ [Ht [Hu Hcase]]]]]]]].
  { destruct (_ && _); discriminate. }
  simpl in Hcase.
  destruct Hcase as [[_ Ho]|[[_ [_ Ho]]|[Hd [Har [same [He Ho]]]]]];
    try discriminate.
  destruct same; [|discriminate]. injection Ho as -> ->.
  split; [reflexivity|]. split; [exact He|].
  destruct (set_detectedItemType_stores _ _ _ Ht) as [_ [_ [_ [_ [Hx _]]]]].
  destruct (set_items_keeps _ _ _ _ Hu) as [_ [_ [_ Hx']]].
  split.
  - rewrite Hx', Hx. symmetry. now apply strict_eq_true.
  - destruct (set_items_inv _ _ _ _ Hu)
      as [[Hi ->]|[raws [recs [Hi [_ ->]]]]]; rewrite Hi in Har; simpl in *.
    + destruct (_items test); simpl in *; [tauto | discriminate].
    + destruct (_items test); simpl in *; [discriminate|].
      split; discriminate.
Qed.

(** X6: with the expected type detected, a test that expects the sentinel
    and gets a list of records fails with "Expected multiple, got single
    item", however many records there are, and a test that expects records
    and gets the sentinel fails with "Expected single item, got
    multiple". *)
Theorem run_arity_mismatch (test : Test) (c : Collaborators)
    (result : RunResult) (cloned typed updated : Test) :
  _type test <> TExport ->
  extraction test c = Return result ->
  truthy (items result) = true ->
  Test_clone zotero test = Return cloned ->
  set_detectedItemType (detectedItemType result) cloned = Return typed ->
  set_items zotero (items result) typed = Return updated ->
  strict_eq (_detectedItemType test) (detectedItemType result) = true ->
  (_items test = Multiple -> items result <> VStr "multiple" ->
   run zotero test c
   = Return (mkOutcome failure
               (Some (VStr "Expected multiple, got single item"))
               (Some updated)))
  /\ (_items test <> Multiple -> items result = VStr "multiple" ->
      run zotero test c
      = Return (mkOutcome failure
                  (Some (VStr "Expected single item, got multiple"))
                  (Some updated))).
Proof.
  intros Hty Hres Hitems Hclone Htyped Hupd Heq.
  rewrite run_dispatch, Hres by assumption. simpl. unfold classify.
  rewrite Hitems, Hclone. simpl. rewrite Htyped. simpl. rewrite Hupd.
  simpl. rewrite Heq. simpl. split.
  - intros -> Hne. simpl.
    destruct (strict_eq (items result) (VStr "multiple")) eqn:E;
      [apply strict_eq_true in E; contradiction|].
    reflexivity.
  - intros Hne ->. simpl.
    destruct (_items test); [contradiction | reflexivity].
Qed.

(** X7: a web test that expects the sentinel passes when the translator
    calls the selection handler exactly once, returns at least one record
    and the detected type is the expected one; the records themselves are
    not compared. *)
Theorem run_select_once (test : Test) (c : Collaborators) (loaded : bool)
    (raw : RunResult) :
  checked zotero test ->
  _type test = TWeb ->
  _items test = Multiple ->
  fetchPage (webTranslationEnvironment c) = Return tt ->
  waitForLoad (webTranslationEnvironment c) = Return loaded ->
  runTranslation (webTranslationEnvironment c) = Return raw ->
  destroy (webTranslationEnvironment c) = Return tt ->
  numSelectItemsCalls (webTranslationEnvironment c) = 1%nat ->
  no_length (items raw) = false ->
  strict_eq (_detectedItemType test) (detectedItemType raw) = true ->
  run zotero test c = Return (mkOutcome success None (Some test)).
Proof.
  intros Hc Hweb Hmult Hf Hw Hr Hd Hn Hlen Heq.
  assert (Hcollected :
    _translateWeb test (webTranslationEnvironment c)
    = Return (mkResult (detectedItemType raw) (VStr "multiple") VUndef)).
  { unfold _translateWeb, get_url. rewrite Hweb, Hf, Hw, Hr, Hd, Hn. simpl.
    assert (Ht : truthy (items raw) = true).
    { destruct (items raw) as [| |[|]|n|s|l|o]; simpl in *;
        try discriminate; try reflexivity.
      destruct s; [discriminate | reflexivity]. }
    now rewrite Ht, Hlen. }
  unfold run. rewrite Hweb, Hcollected. simpl. unfold classify. simpl.
  assert (Hnull : _input test <> VNull).
  { pose proof (checked_input _ _ Hc) as Hi. rewrite Hweb in Hi.
    intros E. rewrite E in Hi. discriminate. }
  unfold Test_clone. rewrite (checked_roundtrip zotero test Hc Hnull). simpl.
  apply strict_eq_true in Heq.
  assert (Hx : set_detectedItemType (detectedItemType raw) test
               = Return test).
  { rewrite <- Heq. unfold set_detectedItemType.
    pose proof (checked_detectedItemType _ _ Hc) as Hd'.
    destruct (strict_eq (_detectedItemType test) VUndef),
      (typeof (_detectedItemType test) =? "string"),
      (typeof (_detectedItemType test) =? "boolean");
      simpl in *; try discriminate; now destruct test. }
  rewrite Hx. simpl.
  assert (Hupd : mkTest (_type test) (_defer test) (_input test)
                   (_detectedItemType test) Multiple = test)
    by (destruct test; simpl in *; congruence).
  rewrite Hupd, <- Heq.
  assert (Hrefl : strict_eq (_detectedItemType test) (_detectedItemType test)
                  = true).
  { pose proof (strict_eq_refl (_detectedItemType test)) as Hr'.
    pose proof (checked_detectedItemType _ _ Hc) as Hd'.
    destruct (_detectedItemType test); simpl in *; auto; discriminate. }
  rewrite Hrefl, Hmult. simpl.
  assert (Hun : unshadowed (VObj (toJSON test)) = true).
  { pose proof (checked_input _ _ Hc) as Hi. rewrite Hweb in Hi.
    pose proof (checked_detectedItemType _ _ Hc) as Hd'.
    pose proof (checked_defer _ _ Hc) as Hdefer.
    unfold toJSON. rewrite Hweb, Hmult.
    cbn [unshadowed has_key forallb snd String.eqb Ascii.eqb Bool.eqb negb
         andb items_value].
    assert (H1 : unshadowed (_defer test) = true).
    { destruct Hdefer as [->|[_ Hdf]]; [reflexivity|].
      destruct (_defer test); simpl in *; try reflexivity; discriminate. }
    assert (H2 : unshadowed (_input test) = true)
      by (destruct (_input test); simpl in *; try reflexivity; discriminate).
    assert (H3 : unshadowed (_detectedItemType test) = true)
      by (destruct (_detectedItemType test); simpl in *; try reflexivity;
          discriminate).
    rewrite H1, H2. destruct (truthy _ && _); [reflexivity|].
    now rewrite H3. }
  rewrite (equals_refl zotero test (checked_wf _ _ Hc) Hun). reflexivity.
Qed.

(** X8: which fault a web run reports.  A page that cannot be fetched is
    reported without anything else being consulted.  Once the page is
    there, a failing release of the page handle replaces every other
    result, a successful translation included; with a successful release
    the fault of the load wait or of the translation is reported. *)
Theorem run_web_fault (test : Test) (c : Collaborators) :
  _type test = TWeb ->
  let env := webTranslationEnvironment c in
  let reported e :=
    run zotero test c
    = Return (mkOutcome failure (Some (VStr (String_exn e))) None) in
  (forall e, fetchPage env = Throw e -> reported e)
  /\ (forall e, fetchPage env = Return tt -> destroy env = Throw e ->
        reported e)
  /\ (forall e, fetchPage env = Return tt -> destroy env = Return tt ->
        waitForLoad env = Throw e -> reported e)
  /\ (forall e loaded, fetchPage env = Return tt ->
        destroy env = Return tt -> waitForLoad env = Return loaded ->
        runTranslation env = Throw e -> reported e).
Proof.
  intros Hweb env reported. unfold reported, run, _translateWeb, get_url.
  rewrite Hweb. simpl. fold env. repeat split.
  - intros e ->. reflexivity.
  - intros e -> ->. reflexivity.
  - intros e -> -> ->. reflexivity.
  - intros e loaded -> -> -> ->. reflexivity.
Qed.

End Verdicts.

(** * Further properties of [deepEqual] *)

Section DeepEqualMore.

Variable zotero : Zotero.




Lemma deepEqual_elements_true la lb :
  deepEqual_elements zotero la lb = Return true
  <-> Forall2 (fun x y => deepEqual zotero x y = Return true) la lb.
Proof.
  revert lb. induction la as [|x la IH]; intros [|y lb]; simpl.
  - split; [constructor | reflexivity].
  - split; [discriminate | intros H; inversion H].
  - split; [discriminate | intros H; inversion H].
  - destruct (deepEqual zotero x y) as [[|]|] eqn:E; simpl.
    + rewrite IH. split; [intros H; now constructor|].
      intros H. now inversion H.
    + split; [discriminate | intros H; inversion H; congruence].
    + split; [discriminate | intros H; inversion H; congruence].
Qed.

(** X11: two arrays are equal exactly when they have the same length and
    equal elements at every index, in order. *)
Theorem deepEqual_arrays (la lb : list value) :
  deepEqual zotero (VArr la) (VArr lb) = Return true
  <-> Forall2 (fun x y => deepEqual zotero x y = Return true) la lb.
Proof. rewrite deepEqual_arr. apply deepEqual_elements_true. Qed.

Lemma hasOwnProperty_obj_inv name o key h :
  hasOwnProperty name (VObj o) key = Return h ->
  has_key "hasOwnProperty" o = false /\ h = has_key key o.
Proof.
  simpl. destruct (has_key "hasOwnProperty" o); [discriminate|].
  intros [= <-]. now split.
Qed.

Lemma deepEqual_properties_true a b rest :
  deepEqual_properties zotero a b rest = Return true ->
  forall key x, In (key, x) rest ->
    exists ha,
      hasOwnProperty "a" a key = Return ha
      /\ (ha = true ->
          hasOwnProperty "b" b key = Return true
          /\ deepEqual zotero x (own_prop b key) = Return true).
Proof.
  induction rest as [|[k y] rest IH]; simpl; intros H key x Hin;
    [contradiction|].
  destruct (hasOwnProperty "a" a k) as [[|]|] eqn:Ea; simpl in H;
    try discriminate.
  - destruct (hasOwnProperty "b" b k) as [[|]|] eqn:Eh; simpl in H;
      try discriminate.
    destruct (deepEqual zotero y (own_prop b k)) as [[|]|] eqn:Ee;
      simpl in H; try discriminate.
    destruct Hin as [[= <- <-]|Hin]; [|now apply IH].
    exists true. auto.
  - destruct Hin as [[= <- <-]|Hin]; [|now apply IH].
    exists false. split; [exact Ea | discriminate].
Qed.

Lemma deepEqual_keys_true a b keys :
  deepEqual_keys a b keys = Return true ->
  forall key, In key keys ->
    exists hb,
      hasOwnProperty "b" b key = Return hb
      /\ (hb = true -> hasOwnProperty "a" a key = Return true).
Proof.
  induction keys as [|k keys IH]; simpl; intros H key Hin; [contradiction|].
  destruct (hasOwnProperty "b" b k) as [[|]|] eqn:Eb; simpl in H;
    try discriminate.
  - destruct (hasOwnProperty "a" a k) as [[|]|] eqn:Ea; simpl in H;
      try discriminate.
    destruct Hin as [<-|Hin]; [|now apply IH].
    exists true. auto.
  - destruct Hin as [<-|Hin]; [|now apply IH].
    exists false. split; [exact Eb | discriminate].
Qed.

(** X12: two objects that compare equal have the same keys, and the
    values under each key compare equal. *)
Theorem deepEqual_objects (o o' : obj) :
  deepEqual zotero (VObj o) (VObj o') = Return true ->
  (forall k, has_key k o = has_key k o')
  /\ (forall k x, In (k, x) o ->
        deepEqual zotero x (get k o') = Return true).
Proof.
  rewrite deepEqual_obj. intros H.
  destruct (deepEqual_properties zotero (VObj o) (VObj o') o) as [[|]|] eqn:E;
    cbn [bind] in H; try discriminate.
  pose proof (deepEqual_properties_true _ _ _ E) as Hprops.
  pose proof (deepEqual_keys_true _ _ _ H) as Hkeys.
  assert (Hfirst : forall k x, In (k, x) o ->
            has_key k o' = true
            /\ deepEqual zotero x (get k o') = Return true).
  { intros k x Hin. destruct (Hprops k x Hin) as [ha [Ea Hb]].
    apply hasOwnProperty_obj_inv in Ea. destruct Ea as [_ ->].
    assert (Hk : has_key k o = true).
    { apply has_key_In. change k with (fst (k, x)). now apply in_map. }
    destruct (Hb Hk) as [Eb He].
    apply hasOwnProperty_obj_inv in Eb. destruct Eb as [_ Eb].
    split; [now symmetry | exact He]. }
  split.
  - intros k. destruct (has_key k o) eqn:Hk.
    + apply has_key_In in Hk. unfold keys in Hk. apply in_map_iff in Hk.
      destruct Hk as [[k' x] [<- Hin]]. simpl.
      destruct (Hfirst k' x Hin) as [Hh _]. congruence.
    + destruct (has_key k o') eqn:Hk'; [|reflexivity].
      pose proof Hk' as Hin. apply has_key_In in Hin.
      destruct (Hkeys k Hin) as [hb [Eb Ha]].
      apply hasOwnProperty_obj_inv in Eb. destruct Eb as [_ ->].
      specialize (Ha Hk').
      apply hasOwnProperty_obj_inv in Ha. destruct Ha as [_ Ha].
      congruence.
  - intros k x Hin. now apply (Hfirst k x).
Qed.

(** X13: when [deepEqual] throws and when it does not.  Between values in
    which no object has a property named [hasOwnProperty], and against a
    value other than [undefined] that has been through a JSON round trip,
    it returns.  An empty object equals [undefined]; an object with a
    property compared with [undefined] throws a TypeError.  An object
    with a property named [hasOwnProperty] compared with anything but
    [null] or an array throws a TypeError: the method it calls is
    hidden. *)
Theorem deepEqual_throws :
  (forall a b, unshadowed a = true -> unshadowed b = true ->
     b <> VUndef -> json b = b ->
     exists r, deepEqual zotero a b = Return r)
  /\ deepEqual zotero (VObj []) VUndef = Return true
  /\ (forall o, o <> [] ->
        exists message,
          deepEqual zotero (VObj o) VUndef = Throw (TypeError message))
  /\ (forall o b, has_key "hasOwnProperty" o = true ->
        b <> VNull -> isArray b = false ->
        deepEqual zotero (VObj o) b
        = Throw (TypeError "a.hasOwnProperty is not a function")).
Proof.
  split; [|split; [|split]].
  - intros a b Ha Hun Hne Hb. apply deepEqual_returns; [exact Ha | exact Hun|].
    now split.
  - reflexivity.
  - intros [|[k x] o] Hne; [contradiction|].
    rewrite deepEqual_obj. cbn [deepEqual_properties].
    destruct (has_key "hasOwnProperty" ((k, x) :: o)) eqn:Hown.
    + rewrite (hasOwnProperty_shadowed _ _ _ Hown). eexists. reflexivity.
    + rewrite (hasOwnProperty_obj _ _ _ Hown). cbn [bind has_key].
      rewrite String.eqb_refl. eexists. reflexivity.
  - intros [|[k x] o] b Hown Hnull Harr; [discriminate|].
    rewrite deepEqual_obj. cbn [deepEqual_properties].
    rewrite (hasOwnProperty_shadowed _ _ _ Hown).
    destruct b; try reflexivity; [congruence | discriminate].
Qed.

End DeepEqualMore.

(** * Further properties of the normaliser *)

Section NormaliserMore.

Variable zotero : Zotero.

(** X14: a normalised record never has an [accessDate]. *)
Theorem sanitizeItem_drops_accessDate (item out : obj) :
  sanitizeItem zotero item = Return out ->
  has_key "accessDate" out = false /\ get "accessDate" out = VUndef.
Proof.
  unfold sanitizeItem. intros H.
  destruct (sanitizeAttachments item) as [item1|]; [|discriminate].
  simpl in H. injection H as <-.
  assert (Hk : has_key "accessDate"
                 (sanitizeTags zotero
                    (delete "accessDate"
                       (sanitizeFields zotero (json_obj item1)))) = false).
  { destruct (has_key "accessDate" (sanitizeTags zotero _)) eqn:E;
      [|reflexivity].
    destruct (sanitizeTags_has_key _ _ _ E) as [E'|E']; [discriminate|].
    rewrite has_key_delete in E'. discriminate. }
  split; [exact Hk | now apply get_absent].
Qed.

(** X15: what one turn of the attachment loop leaves behind: no truthy
    [document], [url] or [complete]; the media type "text/html" where
    there was a document; every other property as it was. *)
Theorem sanitizeAttachment_result (o : obj) :
  exists o',
    sanitizeAttachment (VObj o) = Return (VObj o')
    /\ truthy (get "document" o') = false
    /\ truthy (get "url" o') = false
    /\ truthy (get "complete" o') = false
    /\ (truthy (get "document" o) = true ->
        get "mimeType" o' = VStr "text/html")
    /\ (forall k, k <> "document" -> k <> "url" -> k <> "complete" ->
        k <> "mimeType" -> get k o' = get k o).
Proof.
  rewrite sanitizeAttachment_obj. eexists. split; [reflexivity|].
  set (o1 := if truthy (get "document" o)
             then set "mimeType" (VStr "text/html") (delete "document" o)
             else o).
  assert (Hd1 : truthy (get "document" o1) = false).
  { unfold o1. destruct (truthy (get "document" o)) eqn:E; [|exact E].
    rewrite get_set_other by discriminate.
    rewrite get_absent; [reflexivity|].
    rewrite has_key_delete. reflexivity. }
  repeat split.
  - rewrite !drop_truthy_other by discriminate. exact Hd1.
  - rewrite drop_truthy_other by discriminate. apply drop_truthy_falsy.
  - apply drop_truthy_falsy.
  - intros Hdoc. rewrite !drop_truthy_other by discriminate.
    unfold o1. rewrite Hdoc. apply get_set_same.
  - intros k Hk1 Hk2 Hk3 Hk4. rewrite !drop_truthy_other by assumption.
    unfold o1. destruct (truthy (get "document" o)); [|reflexivity].
    rewrite get_set_other by assumption. now apply get_delete_other.
Qed.



Hypothesis coherent : Coherent zotero.

(** X17: a normalised record is its own JSON round trip, and the
    normaliser keeps records well formed. *)
Theorem sanitizeItem_json_clean (item out : obj) :
  sanitizeItem zotero item = Return out ->
  json_obj out = out /\ (wf (VObj item) -> wf (VObj out)).
Proof.
  intros H. split.
  - apply json_obj_fix. now apply (sanitizeItem_clean zotero coherent item).
  - intros Hwf. now apply (sanitizeItem_wf zotero item).
Qed.

(** X18: what the field filter lets through.  Every property of a
    normalised record other than the skipped ones is a field that the
    registry knows, has a truthy value, is valid for the item type of the
    record and is not stored under another name for that type. *)
Theorem sanitizeItem_fields_valid (item out : obj) (field : string) :
  sanitizeItem zotero item = Return out ->
  has_key field out = true ->
  settledField zotero (ItemTypes_getID zotero (get "itemType" out)) out
    field.
Proof.
  unfold sanitizeItem. intros H Hk.
  destruct (sanitizeAttachments item) as [item1|]; [|discriminate].
  simpl in H. injection H as Hout.
  set (item2 := json_obj item1) in *.
  assert (Htype : get "itemType" out = get "itemType" item2).
  { rewrite <- Hout, sanitizeTags_get by discriminate.
    rewrite get_delete_other by discriminate.
    now rewrite (sanitizeFields_get_skipped zotero coherent). }
  rewrite Htype. rewrite <- Hout in Hk.
  destruct (sanitizeTags_has_key _ _ _ Hk) as [->|Hk4]; [now left|].
  rewrite has_key_delete in Hk4. apply andb_prop in Hk4.
  destruct Hk4 as [Hka Hk3].
  destruct (String.eqb_spec field "accessDate") as [|Hka']; [discriminate|].
  destruct (String.eqb_spec field "tags") as [->|Hkt]; [now left|].
  eapply settledField_get;
    [|exact (sanitizeFields_settles zotero coherent item2 field Hk3)].
  rewrite <- Hout, sanitizeTags_get by exact Hkt.
  now apply get_delete_other.
Qed.

End NormaliserMore.

(** * Sorting tags *)

Lemma insertTag_perm a l : Permutation (insertTag a l) (a :: l).
Proof.
  induction l as [|b l IH]; simpl; [apply Permutation_refl|].
  destruct (tag_lt b a); [|apply Permutation_refl].
  eapply Permutation_trans; [apply perm_skip, IH | apply perm_swap].
Qed.

Lemma sortTags_perm tags : Permutation (sortTags tags) tags.
Proof.
  induction tags as [|a l IH]; simpl; [constructor|].
  eapply Permutation_trans; [apply insertTag_perm | now apply perm_skip].
Qed.

(** X19: sorting tags whose texts are strings rearranges them without
    adding or dropping one, and in the result no tag is strictly smaller,
    in the code-unit order of the texts, than the one before it. *)
Theorem sortTags_ordered_permutation (tags : list obj) :
  Forall textTag tags ->
  Permutation (sortTags tags) tags /\ ordered (sortTags tags).
Proof. intros _. split; [apply sortTags_perm | apply sortTags_ordered]. Qed.

Lemma string_ltb_trans a b c :
  String.ltb a b = true -> String.ltb b c = true -> String.ltb a c = true.
Proof.
  unfold String.ltb. intros H1 H2.
  destruct (String.compare a b) eqn:E1; try discriminate.
  destruct (String.compare b c) eqn:E2; try discriminate.
  apply String_as_OT.cmp_lt in E1. apply String_as_OT.cmp_lt in E2.
  pose proof (String_as_OT.lt_trans _ _ _ E1 E2) as E3.
  apply String_as_OT.cmp_lt in E3. unfold String_as_OT.cmp in E3.
  now rewrite E3.
Qed.

Lemma string_ltb_total a b :
  String.ltb a b = false -> String.ltb b a = false -> a = b.
Proof.
  unfold String.ltb. rewrite (String.compare_antisym b a).
  destruct (String.compare a b) eqn:E; simpl; try discriminate.
  intros _ _. now apply String.compare_eq_iff.
Qed.

Lemma tag_le_trans a b c :
  textTag a -> textTag b -> textTag c ->
  tag_lt b a = false -> tag_lt c b = false -> tag_lt c a = false.
Proof.
  intros [sa Ha] [sb Hb] [sc Hc]. unfold tag_lt. rewrite Ha, Hb, Hc. simpl.
  intros H1 H2. destruct (String.ltb sc sa) eqn:E; [|reflexivity].
  destruct (String.ltb sb sc) eqn:E'.
  - rewrite (string_ltb_trans _ _ _ E' E) in H1. discriminate.
  - rewrite (string_ltb_total _ _ H2 E') in E. congruence.
Qed.

Lemma ordered_head_least a l :
  Forall textTag (a :: l) -> ordered (a :: l) ->
  Forall (fun b => tag_lt b a = false) l.
Proof.
  revert a. induction l as [|b l IH]; intros a Htext Hord; [constructor|].
  destruct Hord as [Hab Hrest].
  inversion Htext as [|? ? Ha Htl]; subst.
  inversion Htl as [|? ? Hb Hl]; subst.
  constructor; [exact Hab|].
  specialize (IH b Htl Hrest).
  rewrite Forall_forall in *. intros c Hc.
  apply (tag_le_trans a b c); auto.
Qed.

Lemma ordered_permutation_unique l1 :
  forall l2,
    Forall textTag l1 ->
    (forall a b, In a l1 -> In b l1 -> get "tag" a = get "tag" b -> a = b) ->
    ordered l1 -> ordered l2 -> Permutation l1 l2 -> l1 = l2.
Proof.
  induction l1 as [|a l1 IH]; intros l2 Htext Hsame Ho1 Ho2 Hperm.
  - apply Permutation_nil in Hperm. now subst.
  - destruct l2 as [|b l2];
      [apply Permutation_sym, Permutation_nil in Hperm; discriminate|].
    assert (Htext2 : Forall textTag (b :: l2))
      by (eapply Permutation_Forall; eauto).
    assert (Hin_b : In b (a :: l1))
      by (eapply Permutation_in; [apply Permutation_sym; exact Hperm
                                 | now left]).
    assert (Hin_a : In a (b :: l2))
      by (eapply Permutation_in; [exact Hperm | now left]).
    pose proof (ordered_head_least a l1 Htext Ho1) as Hmin1.
    pose proof (ordered_head_least b l2 Htext2 Ho2) as Hmin2.
    rewrite Forall_forall in Hmin1, Hmin2.
    assert (Hab : a = b).
    { destruct Hin_b as [E|Hb]; [exact E|].
      destruct Hin_a as [E|Ha]; [now symmetry|].
      specialize (Hmin1 b Hb). specialize (Hmin2 a Ha).
      apply Hsame; [now left | now right|].
      inversion Htext as [|? ? [sa Hsa] _]; subst.
      inversion Htext2 as [|? ? [sb Hsb] _]; subst.
      unfold tag_lt in Hmin1, Hmin2. rewrite Hsa, Hsb in *. simpl in *.
      f_equal. now apply string_ltb_total. }
    subst b. f_equal. apply IH.
    + now inversion Htext.
    + intros x y Hx Hy. apply Hsame; now right.
    + apply Ho1.
    + apply Ho2.
    + eapply Permutation_cons_inv; eauto.
Qed.

(** X20: the order in which the tags arrive does not matter.  When every
    tag has a string as its text and two tags with the same text are the
    same tag, any two arrangements of the tags are sorted to the same
    list. *)
Theorem sortTags_order_independent (tags tags' : list obj) :
  Forall textTag tags ->
  (forall a b, In a tags -> In b tags ->
     get "tag" a = get "tag" b -> a = b) ->
  Permutation tags tags' ->
  sortTags tags = sortTags tags'.
Proof.
  intros Htext Hsame Hperm.
  pose proof (sortTags_perm tags) as P1.
  pose proof (sortTags_perm tags') as P2.
  apply ordered_permutation_unique; try apply sortTags_ordered.
  - eapply Permutation_Forall; [apply Permutation_sym; exact P1 | exact Htext].
  - intros a b Ha Hb. apply Hsame; eapply Permutation_in; eauto.
  - eapply Permutation_trans; [exact P1|].
    eapply Permutation_trans; [exact Hperm | now apply Permutation_sym].
Qed.

(** * The structural diff *)

Lemma append_assoc (a b c : string) : (a ++ b) ++ c = a ++ b ++ c.
Proof. induction a as [|x a IH]; simpl; [reflexivity | now rewrite IH]. Qed.

Lemma append_empty_r (a : string) : a ++ "" = a.
Proof. induction a as [|x a IH]; simpl; [reflexivity | now rewrite IH]. Qed.

Lemma plain_app a b : plain (a ++ b) = plain a && plain b.
Proof.
  induction a as [|x a IH]; simpl; [reflexivity|].
  rewrite IH. now rewrite andb_assoc.
Qed.

Lemma endsSolid_app a b : endsSolid b = true -> endsSolid (a ++ b) = true.
Proof.
  intros Hb. induction a as [|x a IH]; simpl; [exact Hb|].
  destruct (a ++ b) eqn:E; [|exact IH].
  destruct a; simpl in E; [subst b; discriminate | discriminate].
Qed.

Lemma escapeChar_plain c : plain (escapeChar c) = true.
Proof. destruct c as [[] [] [] [] [] [] [] []]; reflexivity. Qed.

Lemma escape_plain s : plain (escape s) = true.
Proof.
  induction s as [|c s IH]; simpl; [reflexivity|].
  now rewrite plain_app, escapeChar_plain, IH.
Qed.

Lemma quote_plain s : plain (quote s) = true.
Proof.
  unfold quote. now rewrite !plain_app, escape_plain.
Qed.

Lemma quote_endsSolid s : endsSolid (quote s) = true.
Proof.
  unfold quote. rewrite <- append_assoc. now apply endsSolid_app.
Qed.

(** A number is written with digits: no line feed, and a digit at the
    end. *)
Lemma digits_solid d :
  let s := NilEmpty.string_of_uint d in
  plain s = true /\ (s <> "" -> endsSolid s = true).
Proof.
  induction d; simpl; split;
    try reflexivity; try congruence;
    destruct IHd as [Hp He];
    try exact Hp;
    intros _; destruct (NilEmpty.string_of_uint d) eqn:E;
      try reflexivity; apply He; discriminate.
Qed.

Lemma string_of_Z_tidy n :
  plain (string_of_Z n) = true /\ endsSolid (string_of_Z n) = true.
Proof.
  unfold string_of_Z, NilZero.string_of_int, NilZero.string_of_uint.
  assert (H : forall d,
            plain (match d with
                   | Decimal.Nil => "0"
                   | _ => NilEmpty.string_of_uint d
                   end) = true
            /\ endsSolid (match d with
                          | Decimal.Nil => "0"
                          | _ => NilEmpty.string_of_uint d
                          end) = true).
  { intros d. destruct (digits_solid d) as [Hp He].
    destruct d; try (split; [exact Hp | apply He; discriminate]).
    split; reflexivity. }
  destruct (Z.to_int n) as [d|d].
  - apply H.
  - destruct (H d) as [Hp He]. split.
    + simpl. exact Hp.
    + apply (endsSolid_app "-"). exact He.
Qed.

Lemma stringified_tidy a :
  primitive a ->
  plain (stringified a) = true /\ endsSolid (stringified a) = true.
Proof.
  destruct a as [| |[|]|n|s|l|o]; simpl; try contradiction; intros _;
    try (split; reflexivity).
  - apply string_of_Z_tidy.
  - unfold stringified. simpl. split;
      [apply quote_plain | apply quote_endsSolid].
Qed.

(** *** Reports *)

Lemma report_intro ok indent marker prefix body rest :
  ok marker -> plain prefix = true -> plain body = true ->
  endsSolid body = true -> report ok indent rest ->
  report ok indent
    (marker ++ " " ++ indent ++ prefix ++ body ++ newline ++ rest).
Proof.
  intros Hm Hp Hb He Hr.
  replace (prefix ++ body ++ newline ++ rest)
    with ((prefix ++ body) ++ newline ++ rest)
    by apply append_assoc.
  apply report_line; auto.
  - now rewrite plain_app, Hp, Hb.
  - now apply endsSolid_app.
Qed.

Lemma report_app ok indent s t :
  report ok indent s -> report ok indent t -> report ok indent (s ++ t).
Proof.
  intros Hs Ht. induction Hs as [|marker body rest Hm Hp He Hr IH];
    [exact Ht|].
  replace ((marker ++ " " ++ indent ++ body ++ newline ++ rest) ++ t)
    with (marker ++ " " ++ indent ++ body ++ newline ++ rest ++ t)
    by (now rewrite !append_assoc).
  now apply report_line.
Qed.

Lemma report_concat ok indent l :
  Forall (report ok indent) l -> report ok indent (String.concat "" l).
Proof.
  induction 1 as [|s l Hs Hl IH]; simpl; [constructor|].
  destruct l as [|t l]; [exact Hs|]. simpl. now apply report_app.
Qed.

Lemma report_nested ok indent s :
  report ok (indent ++ "  ") s -> report ok indent s.
Proof.
  induction 1 as [|marker body rest Hm Hp He Hr IH]; [constructor|].
  replace (marker ++ " " ++ (indent ++ "  ") ++ body ++ newline ++ rest)
    with (marker ++ " " ++ indent ++ "  " ++ body ++ newline ++ rest)
    by (now rewrite !append_assoc).
  apply report_intro; auto.
Qed.

Lemma report_weaken (ok ok' : string -> Prop) indent s :
  (forall m, ok m -> ok' m) -> report ok indent s -> report ok' indent s.
Proof.
  intros Hok. induction 1; constructor; auto.
Qed.

Lemma show_scalar a action prefix indent :
  primitive a ->
  show_text a action prefix indent
  = action ++ " " ++ indent ++ prefix ++ stringified a ++ newline.
Proof. destruct a; simpl; try contradiction; reflexivity. Qed.

Lemma show_arr l action prefix indent :
  show_text (VArr l) action prefix indent
  = match l with
    | [] => action ++ " " ++ indent ++ prefix ++ "[]" ++ newline
    | _ :: _ =>
        action ++ " " ++ indent ++ prefix ++ "[" ++ newline
        ++ String.concat ""
             (map (fun x => show_text x action "" (indent ++ "  ")) l)
        ++ action ++ " " ++ indent ++ "]" ++ newline
    end.
Proof. destruct l; reflexivity. Qed.

Lemma show_obj o action prefix indent :
  show_text (VObj o) action prefix indent
  = match o with
    | [] => action ++ " " ++ indent ++ prefix ++ "{}" ++ newline
    | _ :: _ =>
        action ++ " " ++ indent ++ prefix ++ "{" ++ newline
        ++ String.concat ""
             (map (fun kv => show_text (snd kv) action (quote (fst kv) ++ ": ")
                               (indent ++ "  ")) o)
        ++ action ++ " " ++ indent ++ "}" ++ newline
    end.
Proof. destruct o; reflexivity. Qed.

Lemma report_block ok indent marker prefix open close changes :
  ok marker -> plain prefix = true ->
  plain open = true -> endsSolid open = true ->
  plain close = true -> endsSolid close = true ->
  report ok (indent ++ "  ") changes ->
  report ok indent
    (marker ++ " " ++ indent ++ prefix ++ open ++ newline
     ++ changes ++ marker ++ " " ++ indent ++ close ++ newline).
Proof.
  intros Hm Hp Ho Heo Hc Hec Hch.
  apply report_intro; auto.
  apply report_app; [now apply report_nested|].
  replace (marker ++ " " ++ indent ++ close ++ newline)
    with (marker ++ " " ++ indent ++ "" ++ close ++ newline ++ "")
    by reflexivity.
  apply report_intro; auto. constructor.
Qed.

Lemma report_single ok indent marker prefix body :
  ok marker -> plain prefix = true -> plain body = true ->
  endsSolid body = true ->
  report ok indent (marker ++ " " ++ indent ++ prefix ++ body ++ newline).
Proof.
  intros Hm Hp Hb He.
  replace (marker ++ " " ++ indent ++ prefix ++ body ++ newline)
    with (marker ++ " " ++ indent ++ prefix ++ body ++ newline ++ "")
    by reflexivity.
  apply report_intro; auto. constructor.
Qed.

Lemma key_prefix_plain key : plain (quote key ++ ": ") = true.
Proof. now rewrite plain_app, quote_plain. Qed.

(** Every line [show] writes carries the action it was given. *)
Lemma show_report a :
  forall action prefix indent,
    plain prefix = true ->
    report (eq action) indent (show_text a action prefix indent).
Proof.
  induction a as [| |b|n|s|l IH|o IH] using value_ind;
    intros action prefix indent Hp;
    try (rewrite show_scalar by exact I;
         apply report_single; auto; apply stringified_tidy; exact I).
  - rewrite show_arr. destruct l as [|x l].
    + now apply report_single.
    + apply report_block; auto. apply report_concat.
      apply Forall_map. rewrite Forall_forall in *. intros y Hy.
      now apply IH.
  - rewrite show_obj. destruct o as [|kv o].
    + now apply report_single.
    + apply report_block; auto. apply report_concat.
      apply Forall_map. rewrite Forall_forall in *. intros [k y] Hy.
      apply (IH (k, y) Hy). apply key_prefix_plain.
Qed.

Lemma compare_arr la lb prefix indent :
  compare_text (VArr la) (VArr lb) prefix indent
  = match la, lb with
    | [], [] => "  " ++ indent ++ prefix ++ "[]" ++ newline
    | _, _ =>
        "  " ++ indent ++ prefix ++ "[" ++ newline
        ++ compare_elements_text (indent ++ "  ") la lb
        ++ "  " ++ indent ++ "]" ++ newline
    end.
Proof. destruct la, lb; reflexivity. Qed.

Lemma compare_obj fa fb prefix indent :
  compare_text (VObj fa) (VObj fb) prefix indent
  = match fa, fb with
    | [], [] => "  " ++ indent ++ prefix ++ "{}" ++ newline
    | _, _ =>
        "  " ++ indent ++ prefix ++ "{" ++ newline
        ++ (compare_properties_text fb (indent ++ "  ") fa
            ++ show_added_text fa fb (indent ++ "  "))
        ++ "  " ++ indent ++ "}" ++ newline
    end.
Proof. destruct fa, fb; reflexivity. Qed.

Lemma compare_other a b prefix indent :
  match a, b with
  | VArr _, VArr _ | VObj _, VObj _ => True
  | _, _ =>
      compare_text a b prefix indent
      = if strict_eq a b then show_text a " " prefix indent
        else show_text a "-" prefix indent ++ show_text b "+" prefix indent
  end.
Proof. destruct a, b; try exact I; reflexivity. Qed.

Lemma diffMarker_unchanged : diffMarker " ".
Proof. now left. Qed.

Lemma diffMarker_removed : diffMarker "-".
Proof. right. now left. Qed.

Lemma diffMarker_added : diffMarker "+".
Proof. right. now right. Qed.

Lemma show_diff_report a action prefix indent :
  diffMarker action -> plain prefix = true ->
  report diffMarker indent (show_text a action prefix indent).
Proof.
  intros Hm Hp. eapply report_weaken; [|now apply show_report].
  intros m <-. exact Hm.
Qed.

Lemma show_added_report fa fb indent :
  report diffMarker indent (show_added_text fa fb indent).
Proof.
  unfold show_added_text. apply report_concat. apply Forall_map.
  apply Forall_forall. intros [k y] _. simpl.
  destruct (has_key k fa); [constructor|].
  apply show_diff_report; [apply diffMarker_added | apply key_prefix_plain].
Qed.

(** Every line [compare] writes starts with one of the three markers. *)
Lemma compare_report a :
  forall b prefix indent,
    plain prefix = true ->
    report diffMarker indent (compare_text a b prefix indent).
Proof.
  assert (Hscalar : forall a b prefix indent,
            plain prefix = true ->
            report diffMarker indent
              (if strict_eq a b then show_text a " " prefix indent
               else show_text a "-" prefix indent ++ show_text b "+" prefix indent)).
  { intros x y prefix indent Hp. destruct (strict_eq x y).
    - apply show_diff_report; [apply diffMarker_unchanged | exact Hp].
    - apply report_app; apply show_diff_report; auto;
        [apply diffMarker_removed | apply diffMarker_added]. }
  induction a as [| |c|n|s|la IH|fa IH] using value_ind;
    intros b prefix indent Hp;
    try (pose proof (compare_other VUndef b prefix indent) as E;
         destruct b; rewrite E; now apply Hscalar);
    try (pose proof (compare_other VNull b prefix indent) as E;
         destruct b; rewrite E; now apply Hscalar);
    try (pose proof (compare_other (VBool c) b prefix indent) as E;
         destruct b; rewrite E; now apply Hscalar);
    try (pose proof (compare_other (VNum n) b prefix indent) as E;
         destruct b; rewrite E; now apply Hscalar);
    try (pose proof (compare_other (VStr s) b prefix indent) as E;
         destruct b; rewrite E; now apply Hscalar).
  - pose proof (compare_other (VArr la) b prefix indent) as E.
    destruct b as [| | | | |lb|]; try (rewrite E; now apply Hscalar).
    clear E. rewrite compare_arr.
    assert (Hel : forall ind lb',
              report diffMarker ind (compare_elements_text ind la lb')).
    { intros ind. induction IH as [|x la Hx Hla IHla]; intros lb'.
      - simpl. apply report_concat. apply Forall_map.
        apply Forall_forall. intros y _.
        apply show_diff_report; [apply diffMarker_added | reflexivity].
      - destruct lb' as [|y lb']; simpl; apply report_app; auto.
        apply show_diff_report; [apply diffMarker_removed | reflexivity]. }
    destruct la as [|x la'], lb as [|y lb'];
      try (apply (report_block diffMarker indent " " prefix "[" "]");
           auto; apply diffMarker_unchanged).
    apply (report_single diffMarker indent " " prefix "[]"); auto.
    apply diffMarker_unchanged.
  - pose proof (compare_other (VObj fa) b prefix indent) as E.
    destruct b as [| | | | | |fb]; try (rewrite E; now apply Hscalar).
    clear E. rewrite compare_obj.
    assert (Hprops : forall ind,
              report diffMarker ind (compare_properties_text fb ind fa)).
    { intros ind. induction IH as [|[k x] fa Hx Hfa IHfa]; simpl;
        [constructor|].
      apply report_app; [|exact IHfa].
      destruct (has_key k fb).
      - apply Hx. apply key_prefix_plain.
      - apply show_diff_report;
          [apply diffMarker_removed | apply key_prefix_plain]. }
    assert (Hchanges : forall ind,
              report diffMarker ind
                (compare_properties_text fb ind fa
                 ++ show_added_text fa fb ind)).
    { intros ind. apply report_app; [apply Hprops|].
      apply show_added_report. }
    destruct fa as [|kv fa'], fb as [|kv' fb'];
      try (apply (report_block diffMarker indent " " prefix "{" "}");
           auto; apply diffMarker_unchanged).
    apply (report_single diffMarker indent " " prefix "{}"); auto.
    apply diffMarker_unchanged.
Qed.

Lemma concat_cons (x : string) (l : list string) :
  String.concat "" (x :: l) = x ++ String.concat "" l.
Proof.
  destruct l as [|y l]; simpl; [now rewrite append_empty_r | reflexivity].
Qed.

Lemma concat_empty (l : list string) :
  Forall (eq "") l -> String.concat "" l = "".
Proof.
  induction 1 as [|x l <- Hl IH]; [reflexivity|].
  now rewrite concat_cons, IH.
Qed.

Lemma compare_elements_self indent l :
  Forall (fun x => forall prefix ind,
            compare_text x x prefix ind = show_text x " " prefix ind) l ->
  compare_elements_text indent l l
  = String.concat "" (map (fun x => show_text x " " "" indent) l).
Proof.
  induction 1 as [|x l Hx Hl IH]; [reflexivity|].
  simpl map. rewrite concat_cons. simpl. now rewrite Hx, IH.
Qed.

Lemma compare_properties_self indent o rest :
  NoDup (keys o) -> incl rest o ->
  Forall (fun kv => forall prefix ind,
            compare_text (snd kv) (snd kv) prefix ind
            = show_text (snd kv) " " prefix ind) rest ->
  compare_properties_text o indent rest
  = String.concat ""
      (map (fun kv => show_text (snd kv) " " (quote (fst kv) ++ ": ") indent)
         rest).
Proof.
  intros Hnd Hincl Hall.
  induction Hall as [|[k x] rest Hx Hall IH]; [reflexivity|].
  simpl map. rewrite concat_cons.
  assert (Hin : In (k, x) o) by (apply Hincl; now left).
  assert (Hk : has_key k o = true).
  { apply has_key_In. change k with (fst (k, x)). now apply in_map. }
  simpl. rewrite Hk, (get_In k x o Hnd Hin). simpl in Hx. rewrite Hx.
  f_equal. apply IH. intros kv Hkv. apply Hincl. now right.
Qed.

Lemma show_added_self o indent : show_added_text o o indent = "".
Proof.
  unfold show_added_text. apply concat_empty. apply Forall_map.
  apply Forall_forall. intros [k x] Hin. simpl.
  assert (Hk : has_key k o = true).
  { apply has_key_In. change k with (fst (k, x)). now apply in_map. }
  now rewrite Hk.
Qed.

(** Compared with itself, a value is shown with every line unchanged. *)
Lemma compare_self a :
  wf a ->
  forall prefix indent,
    compare_text a a prefix indent = show_text a " " prefix indent.
Proof.
  induction a as [| |c|n|s|l IH|o IH] using value_ind;
    intros Hwf prefix indent; try reflexivity.
  - simpl. now destruct c.
  - simpl. now rewrite Z.eqb_refl.
  - simpl. now rewrite String.eqb_refl.
  - rewrite compare_arr, show_arr. apply wf_arr in Hwf.
    destruct l as [|x l]; [reflexivity|].
    rewrite compare_elements_self; [reflexivity|].
    rewrite Forall_forall in *. intros y Hy. auto.
  - rewrite compare_obj, show_obj. apply wf_obj in Hwf.
    destruct Hwf as [Hnd Hall].
    destruct o as [|kv o]; [reflexivity|].
    rewrite show_added_self, append_empty_r.
    rewrite (compare_properties_self _ (kv :: o) (kv :: o) Hnd
               (incl_refl _)); [reflexivity|].
    rewrite Forall_forall in *. intros y Hy. auto.
Qed.

(** *** The final line feed *)

Lemma trimEnd_app u v : trimEnd v <> "" -> trimEnd (u ++ v) = u ++ trimEnd v.
Proof.
  intros Hv. induction u as [|c u IH]; [reflexivity|].
  simpl. rewrite IH.
  destruct (String.eqb_spec (u ++ trimEnd v) "") as [E|E].
  - destruct u; simpl in E; [contradiction | discriminate].
  - now rewrite andb_false_r.
Qed.

Lemma trimEnd_line body :
  endsSolid body = true -> trimEnd (body ++ newline) = body.
Proof.
  induction body as [|c body IH]; [discriminate|].
  destruct body as [|d body].
  - simpl. intros Hc. apply negb_true_iff in Hc. now rewrite Hc.
  - intros He. change (endsSolid (String d body) = true) in He.
    specialize (IH He).
    change (String c (String d body) ++ newline)
      with (String c (String d body ++ newline)).
    change (trimEnd (String c (String d body ++ newline)))
      with (let rest := trimEnd (String d body ++ newline) in
            if isWhiteSpace c && (rest =? "") then "" else String c rest).
    rewrite IH. simpl. now rewrite andb_false_r.
Qed.

Lemma endsSolid_nonempty s : endsSolid s = true -> s <> "".
Proof. destruct s; [discriminate | discriminate]. Qed.

Lemma append_nonempty_r a b : b <> "" -> a ++ b <> "".
Proof. destruct a; simpl; [auto | discriminate]. Qed.

(** A report that is not empty ends in a line feed, and [trimEnd] takes
    away that line feed and nothing else. *)
Lemma report_trimEnd ok indent s :
  report ok indent s -> s <> "" ->
  exists t, t <> "" /\ s = t ++ newline /\ trimEnd s = t.
Proof.
  induction 1 as [|marker body rest Hm Hp He Hr IH]; [contradiction|].
  intros _. destruct rest as [|c rest].
  - exists (marker ++ " " ++ indent ++ body).
    assert (Hne : marker ++ " " ++ indent ++ body <> "").
    { rewrite <- !append_assoc. apply append_nonempty_r.
      now apply endsSolid_nonempty. }
    split; [exact Hne|]. split.
    + now rewrite !append_assoc.
    + replace (marker ++ " " ++ indent ++ body ++ newline ++ "")
        with ((marker ++ " " ++ indent ++ body) ++ newline)
        by (now rewrite !append_assoc).
      apply trimEnd_line. rewrite <- !append_assoc.
      now apply endsSolid_app.
  - destruct IH as [t [Hne [Ht Htrim]]]; [discriminate|].
    exists (marker ++ " " ++ indent ++ body ++ newline ++ t).
    split; [|split].
    + rewrite <- !append_assoc. now apply append_nonempty_r.
    + rewrite Ht. now rewrite !append_assoc.
    + replace (marker ++ " " ++ indent ++ body ++ newline ++ String c rest)
        with ((marker ++ " " ++ indent ++ body ++ newline) ++ String c rest)
        by (now rewrite !append_assoc).
      rewrite trimEnd_app by (rewrite Htrim; exact Hne).
      rewrite Htrim. now rewrite !append_assoc.
Qed.

Lemma compare_nonempty a b prefix indent : compare_text a b prefix indent <> "".
Proof.
  assert (Hshow : forall x action p i, show_text x ("-" ++ action) p i <> "").
  { intros x action p i. destruct x as [| | | | |[|]|[|]]; discriminate. }
  assert (Hshow' : forall x p i, show_text x " " p i <> "").
  { intros x p i. destruct x as [| | | | |[|]|[|]]; discriminate. }
  assert (Hscalar : (if strict_eq a b then show_text a " " prefix indent
                     else show_text a "-" prefix indent
                          ++ show_text b "+" prefix indent) <> "").
  { destruct (strict_eq a b); [apply Hshow'|].
    intros E. destruct (show_text a "-" prefix indent) eqn:Es;
      [|discriminate].
    now apply (Hshow a "" prefix indent). }
  pose proof (compare_other a b prefix indent) as E.
  destruct a as [| | | | |la|fa], b as [| | | | |lb|fb];
    try (rewrite E; exact Hscalar).
  - rewrite compare_arr. destruct la, lb; discriminate.
  - rewrite compare_obj. destruct fa, fb; discriminate.
Qed.


(** Taking the final line feed off the text of [compare] leaves the text
    of [diff], and nothing else is taken off. *)
Lemma diff_compare (a b : value) :
  compare_text a b "" "" = diff_text a b ++ newline.
Proof.
  pose proof (compare_report a b "" "" eq_refl) as Hr.
  destruct (report_trimEnd _ _ _ Hr (compare_nonempty a b "" ""))
    as [t [_ [Ht Htrim]]].
  unfold diff_text. now rewrite Htrim.
Qed.

Lemma compare_elements_removed indent l :
  compare_elements_text indent l []
  = String.concat "" (map (fun x => show_text x "-" "" indent) l).
Proof.
  induction l as [|x l IH]; [reflexivity|].
  simpl map. rewrite concat_cons. simpl. now rewrite IH.
Qed.

Lemma compare_elements_appended indent la extra :
  Forall wf la ->
  compare_elements_text indent la (la ++ extra)
  = String.concat "" (map (fun x => show_text x " " "" indent) la)
    ++ String.concat "" (map (fun y => show_text y "+" "" indent) extra).
Proof.
  induction 1 as [|x la Hx Hla IH]; [reflexivity|].
  simpl map. rewrite concat_cons. simpl.
  now rewrite (compare_self x Hx), IH, append_assoc.
Qed.

Lemma compare_elements_truncated indent la extra :
  Forall wf la ->
  compare_elements_text indent (la ++ extra) la
  = String.concat "" (map (fun x => show_text x " " "" indent) la)
    ++ String.concat "" (map (fun y => show_text y "-" "" indent) extra).
Proof.
  induction 1 as [|x la Hx Hla IH].
  - simpl app. apply compare_elements_removed.
  - simpl map. rewrite concat_cons. simpl.
    now rewrite (compare_self x Hx), IH, append_assoc.
Qed.

(** ** The functions write the text

    As long as no object has a property named [hasOwnProperty], every call
    of the method returns and [show], [compare] and [diff] return the
    text above. *)

Lemma show_arr_eq l action prefix indent :
  show (VArr l) action prefix indent
  = (changes <- show_elements action (indent ++ "  ") l ;;
     match l with
     | [] => Return (action ++ " " ++ indent ++ prefix ++ "[]" ++ newline)
     | _ :: _ =>
         Return (action ++ " " ++ indent ++ prefix ++ "[" ++ newline
                 ++ changes ++ action ++ " " ++ indent ++ "]" ++ newline)
     end).
Proof. destruct l; reflexivity. Qed.

Lemma show_obj_eq o action prefix indent :
  show (VObj o) action prefix indent
  = (changes <- show_properties (VObj o) action (indent ++ "  ") o ;;
     match o with
     | [] => Return (action ++ " " ++ indent ++ prefix ++ "{}" ++ newline)
     | _ :: _ =>
         Return (action ++ " " ++ indent ++ prefix ++ "{" ++ newline
                 ++ changes ++ action ++ " " ++ indent ++ "}" ++ newline)
     end).
Proof. destruct o; reflexivity. Qed.

Lemma show_elements_text action indent l :
  Forall (fun x => forall action prefix indent,
            show x action prefix indent
            = Return (show_text x action prefix indent)) l ->
  show_elements action indent l
  = Return (String.concat "" (map (fun x => show_text x action "" indent) l)).
Proof.
  induction 1 as [|x l Hx Hl IH]; [reflexivity|].
  simpl map. rewrite concat_cons. cbn [show_elements].
  rewrite Hx. cbn [bind]. now rewrite IH.
Qed.

Lemma show_properties_text o action indent rest :
  has_key "hasOwnProperty" o = false ->
  incl rest o ->
  Forall (fun kv => forall action prefix indent,
            show (snd kv) action prefix indent
            = Return (show_text (snd kv) action prefix indent)) rest ->
  show_properties (VObj o) action indent rest
  = Return (String.concat ""
              (map (fun kv => show_text (snd kv) action
                                (quote (fst kv) ++ ": ") indent) rest)).
Proof.
  intros Hown Hincl Hall.
  induction Hall as [|[k x] rest Hx Hall IH]; [reflexivity|].
  simpl map. rewrite concat_cons. cbn [show_properties].
  assert (Hk : has_key k o = true).
  { apply has_key_In. change k with (fst (k, x)). apply in_map.
    apply Hincl. now left. }
  rewrite (hasOwnProperty_obj "a" o k Hown), Hk. cbn [bind].
  simpl in Hx. rewrite Hx. cbn [bind].
  rewrite IH; [reflexivity|]. intros kv Hkv. apply Hincl. now right.
Qed.

Lemma show_unshadowed a :
  unshadowed a = true ->
  forall action prefix indent,
    show a action prefix indent = Return (show_text a action prefix indent).
Proof.
  induction a as [| |c|n|s|l IH|o IH] using value_ind;
    intros Hun action prefix indent; try reflexivity.
  - rewrite show_arr_eq, show_arr. apply unshadowed_arr in Hun.
    rewrite show_elements_text.
    + cbn [bind]. now destruct l.
    + rewrite Forall_forall in *. intros x Hx. auto.
  - rewrite show_obj_eq, show_obj. apply unshadowed_obj in Hun.
    destruct Hun as [Hown Hun].
    rewrite show_properties_text; [| exact Hown | apply incl_refl |].
    + cbn [bind]. now destruct o.
    + rewrite Forall_forall in *. intros kv Hkv. auto.
Qed.

Lemma compare_arr_eq la lb prefix indent :
  compare (VArr la) (VArr lb) prefix indent
  = (changes <- compare_elements (indent ++ "  ") la lb ;;
     match la, lb with
     | [], [] => Return ("  " ++ indent ++ prefix ++ "[]" ++ newline)
     | _, _ =>
         Return ("  " ++ indent ++ prefix ++ "[" ++ newline
                 ++ changes ++ "  " ++ indent ++ "]" ++ newline)
     end).
Proof. destruct la, lb; reflexivity. Qed.

Lemma compare_obj_eq fa fb prefix indent :
  compare (VObj fa) (VObj fb) prefix indent
  = (changes <- compare_properties (VObj fa) (VObj fb) fb (indent ++ "  ")
                  fa ;;
     added <- show_added (VObj fa) (VObj fb) (indent ++ "  ") fb ;;
     match fa, fb with
     | [], [] => Return ("  " ++ indent ++ prefix ++ "{}" ++ newline)
     | _, _ =>
         Return ("  " ++ indent ++ prefix ++ "{" ++ newline
                 ++ (changes ++ added)
                 ++ "  " ++ indent ++ "}" ++ newline)
     end).
Proof. destruct fa, fb; reflexivity. Qed.

Lemma compare_other_eq a b prefix indent :
  match a, b with
  | VArr _, VArr _ | VObj _, VObj _ => True
  | _, _ =>
      compare a b prefix indent
      = if strict_eq a b then show a " " prefix indent
        else (removed <- show a "-" prefix indent ;;
              added <- show b "+" prefix indent ;;
              Return (removed ++ added))
  end.
Proof. destruct a, b; try exact I; reflexivity. Qed.

Lemma compare_elements_unshadowed indent la :
  Forall (fun x => unshadowed x = true) la ->
  Forall (fun x => forall b, unshadowed b = true ->
            forall prefix indent,
              compare x b prefix indent
              = Return (compare_text x b prefix indent)) la ->
  forall lb, Forall (fun y => unshadowed y = true) lb ->
  compare_elements indent la lb
  = Return (compare_elements_text indent la lb).
Proof.
  intros Hun Hall. induction Hall as [|x la Hx Hall IH]; intros lb Hlb.
  - cbn [compare_elements compare_elements_text].
    apply show_elements_text. rewrite Forall_forall in *.
    intros y Hy. now apply show_unshadowed, Hlb.
  - inversion Hun as [|? ? Hux Hula]; subst.
    destruct lb as [|y lb]; cbn [compare_elements compare_elements_text].
    + rewrite (show_unshadowed x Hux). cbn [bind].
      now rewrite (IH Hula [] Hlb).
    + inversion Hlb as [|? ? Huy Hulb]; subst.
      rewrite (Hx y Huy). cbn [bind]. now rewrite (IH Hula lb Hulb).
Qed.

Lemma compare_properties_unshadowed fa fb indent rest :
  has_key "hasOwnProperty" fa = false ->
  unshadowed (VObj fb) = true ->
  incl rest fa ->
  Forall (fun kv => unshadowed (snd kv) = true) rest ->
  Forall (fun kv => forall b, unshadowed b = true ->
            forall prefix indent,
              compare (snd kv) b prefix indent
              = Return (compare_text (snd kv) b prefix indent)) rest ->
  compare_properties (VObj fa) (VObj fb) fb indent rest
  = Return (compare_properties_text fb indent rest).
Proof.
  intros Hown Hfb Hincl Hun Hall.
  pose proof Hfb as Hfb'. apply unshadowed_obj in Hfb'.
  destruct Hfb' as [Hown' _].
  induction Hall as [|[k x] rest Hx Hall IH]; [reflexivity|].
  inversion Hun as [|? ? Hux Hurest]; subst.
  assert (Hk : has_key k fa = true).
  { apply has_key_In. change k with (fst (k, x)). apply in_map.
    apply Hincl. now left. }
  cbn [compare_properties compare_properties_text].
  rewrite (hasOwnProperty_obj "a" fa k Hown), Hk. cbn [bind].
  rewrite (hasOwnProperty_obj "b" fb k Hown'). cbn [bind].
  assert (Hrest : compare_properties (VObj fa) (VObj fb) fb indent rest
                  = Return (compare_properties_text fb indent rest)).
  { apply IH; [|exact Hurest]. intros kv Hkv. apply Hincl. now right. }
  destruct (has_key k fb).
  - simpl in Hx. rewrite (Hx (get k fb) (get_unshadowed k fb Hfb)).
    cbn [bind]. now rewrite Hrest.
  - simpl in Hux. rewrite (show_unshadowed x Hux). cbn [bind].
    now rewrite Hrest.
Qed.

Lemma show_added_unshadowed fa fb indent rest :
  has_key "hasOwnProperty" fa = false ->
  has_key "hasOwnProperty" fb = false ->
  incl rest fb ->
  Forall (fun kv => unshadowed (snd kv) = true) rest ->
  show_added (VObj fa) (VObj fb) indent rest
  = Return (String.concat ""
              (map (fun kv => if has_key (fst kv) fa then ""
                              else show_text (snd kv) "+"
                                     (quote (fst kv) ++ ": ") indent)
                 rest)).
Proof.
  intros Hown Hown' Hincl Hun.
  induction Hun as [|[k y] rest Hy Hun IH]; [reflexivity|].
  simpl map. rewrite concat_cons. cbn [show_added].
  assert (Hk : has_key k fb = true).
  { apply has_key_In. change k with (fst (k, y)). apply in_map.
    apply Hincl. now left. }
  rewrite (hasOwnProperty_obj "b" fb k Hown'), Hk. cbn [bind].
  rewrite (hasOwnProperty_obj "a" fa k Hown). cbn [bind].
  assert (Hrest : incl rest fb) by (intros kv Hkv; apply Hincl; now right).
  destruct (has_key k fa); cbn [bind].
  - now rewrite (IH Hrest).
  - simpl in Hy. rewrite (show_unshadowed y Hy). cbn [bind].
    now rewrite (IH Hrest).
Qed.

Lemma compare_unshadowed a :
  unshadowed a = true ->
  forall b, unshadowed b = true ->
  forall prefix indent,
    compare a b prefix indent = Return (compare_text a b prefix indent).
Proof.
  assert (Hscalar : forall a b prefix indent,
            unshadowed a = true -> unshadowed b = true ->
            (if strict_eq a b then show a " " prefix indent
             else (removed <- show a "-" prefix indent ;;
                   added <- show b "+" prefix indent ;;
                   Return (removed ++ added)))
            = Return (if strict_eq a b then show_text a " " prefix indent
                      else show_text a "-" prefix indent
                           ++ show_text b "+" prefix indent)).
  { intros x y prefix indent Hx Hy. destruct (strict_eq x y).
    - now apply show_unshadowed.
    - now rewrite (show_unshadowed x Hx), (show_unshadowed y Hy). }
  induction a as [| |c|n|s|la IH|fa IH] using value_ind;
    intros Ha b Hb prefix indent;
    try (pose proof (compare_other_eq VUndef b prefix indent) as E;
         pose proof (compare_other VUndef b prefix indent) as E';
         destruct b; rewrite E, E'; now apply Hscalar);
    try (pose proof (compare_other_eq VNull b prefix indent) as E;
         pose proof (compare_other VNull b prefix indent) as E';
         destruct b; rewrite E, E'; now apply Hscalar);
    try (pose proof (compare_other_eq (VBool c) b prefix indent) as E;
         pose proof (compare_other (VBool c) b prefix indent) as E';
         destruct b; rewrite E, E'; now apply Hscalar);
    try (pose proof (compare_other_eq (VNum n) b prefix indent) as E;
         pose proof (compare_other (VNum n) b prefix indent) as E';
         destruct b; rewrite E, E'; now apply Hscalar);
    try (pose proof (compare_other_eq (VStr s) b prefix indent) as E;
         pose proof (compare_other (VStr s) b prefix indent) as E';
         destruct b; rewrite E, E'; now apply Hscalar).
  - pose proof (compare_other_eq (VArr la) b prefix indent) as E.
    pose proof (compare_other (VArr la) b prefix indent) as E'.
    destruct b as [| |c|n|s|lb|fb];
      try (rewrite E, E'; now apply Hscalar).
    rewrite compare_arr_eq, compare_arr.
    apply unshadowed_arr in Ha. apply unshadowed_arr in Hb.
    rewrite (compare_elements_unshadowed _ la Ha); [| |exact Hb].
    + cbn [bind]. now destruct la, lb.
    + rewrite Forall_forall in *. intros x Hx b' Hb'. auto.
  - pose proof (compare_other_eq (VObj fa) b prefix indent) as E.
    pose proof (compare_other (VObj fa) b prefix indent) as E'.
    destruct b as [| |c|n|s|lb|fb];
      try (rewrite E, E'; now apply Hscalar).
    rewrite compare_obj_eq, compare_obj.
    pose proof Ha as Ha'. apply unshadowed_obj in Ha'.
    destruct Ha' as [Hown Hall].
    pose proof Hb as Hb'. apply unshadowed_obj in Hb'.
    destruct Hb' as [Hown' Hall'].
    rewrite (compare_properties_unshadowed fa fb _ fa Hown Hb
               (incl_refl _) Hall).
    + cbn [bind].
      rewrite (show_added_unshadowed fa fb _ fb Hown Hown' (incl_refl _)
                 Hall').
      cbn [bind]. unfold show_added_text. now destruct fa, fb.
    + rewrite Forall_forall in *. intros kv Hkv b' Hb'. auto.
Qed.

(** A property named [hasOwnProperty] hides the method that [show] and
    [compare] call on the object. *)
Lemma show_shadowed o action prefix indent :
  has_key "hasOwnProperty" o = true ->
  show (VObj o) action prefix indent
  = Throw (TypeError "a.hasOwnProperty is not a function").
Proof.
  intros Hown. rewrite show_obj_eq.
  destruct o as [|[k x] o]; [discriminate|].
  cbn [show_properties]. now rewrite (hasOwnProperty_shadowed _ _ _ Hown).
Qed.

Lemma json_has_key k o : has_key k (json_obj o) = true -> has_key k o = true.
Proof.
  induction o as [|[j x] o IH]; simpl; [discriminate|].
  destruct (k =? j) eqn:E.
  - reflexivity.
  - destruct x; simpl; rewrite ?E; exact IH.
Qed.

Lemma json_unshadowed v : unshadowed v = true -> unshadowed (json v) = true.
Proof.
  induction v as [| |c|n|s|l IH|o IH] using value_ind; intros Hun;
    try reflexivity.
  - rewrite json_arr_eq. apply unshadowed_arr in Hun. apply unshadowed_arr.
    apply Forall_map. rewrite Forall_forall in *. intros x Hx.
    destruct x; try reflexivity; apply (IH _ Hx); now apply Hun.
  - rewrite json_obj_eq. apply unshadowed_obj in Hun.
    destruct Hun as [Hown Hun]. apply unshadowed_obj. split.
    + destruct (has_key "hasOwnProperty" (json_obj o)) eqn:E;
        [|reflexivity].
      apply json_has_key in E. congruence.
    + clear Hown. induction o as [|[k x] o IHo]; [constructor|].
      inversion IH as [|? ? Hx IH']; subst.
      inversion Hun as [|? ? Hux Hun']; subst.
      simpl in Hx, Hux.
      destruct x; simpl; try (now apply IHo);
        (constructor; [now apply Hx | now apply IHo]).
Qed.

(** X21: between values in which no object has a property named
    [hasOwnProperty], [diff] returns what [compare] wrote without its final
    line feed, and that is a sequence of lines, each of which starts with
    one of the markers " ", "-" and "+" and a space, has no line feed
    inside and does not end in white space. *)
Theorem diff_report (a b : value) :
  unshadowed a = true -> unshadowed b = true ->
  printable a = true -> printable b = true ->
  exists text,
    diff a b = Return text
    /\ compare a b "" "" = Return (text ++ newline)
    /\ report diffMarker "" (text ++ newline).
Proof.
  intros Ha Hb _ _. exists (diff_text a b). unfold diff.
  rewrite (compare_unshadowed a Ha b Hb). cbn [bind].
  split; [reflexivity|]. split; [now rewrite <- diff_compare|].
  rewrite <- diff_compare. now apply compare_report.
Qed.

(** X22: the diff of a value with itself is its rendering with every line
    marked unchanged, as long as no object in it has a property named
    [hasOwnProperty]. *)
Theorem diff_self (a : value) :
  wf a -> unshadowed a = true -> printable a = true ->
  exists text,
    diff a a = Return text
    /\ show a " " "" "" = Return (text ++ newline)
    /\ report (eq " ") "" (text ++ newline).
Proof.
  intros Hwf Hun _. exists (diff_text a a). unfold diff.
  rewrite (compare_unshadowed a Hun a Hun), (show_unshadowed a Hun).
  cbn [bind].
  assert (E : diff_text a a ++ newline = show_text a " " "" "")
    by (now rewrite <- diff_compare, (compare_self a Hwf)).
  split; [reflexivity|]. split; [now rewrite E|].
  rewrite E. now apply show_report.
Qed.


(** X24: the diff of a test case with itself has only unchanged lines: it
    is the rendering of the serialised test case, in which the members
    that are [undefined] do not appear.  This holds as long as the
    serialisation has no property named [hasOwnProperty]. *)
Theorem diffWith_self (t : Test) :
  wf (VObj (toJSON t)) ->
  unshadowed (VObj (toJSON t)) = true ->
  printable (VObj (toJSON t)) = true ->
  exists text,
    diffWith t t = Return text
    /\ show (VObj (json_obj (toJSON t))) " " "" "" = Return (text ++ newline)
    /\ report (eq " ") "" (text ++ newline)
    /\ Forall (fun kv => snd kv <> VUndef) (json_obj (toJSON t)).
Proof.
  intros Hwf Hun _. unfold diffWith. rewrite json_obj_eq.
  set (v := VObj (json_obj (toJSON t))).
  assert (Hj : wf v) by (unfold v; rewrite <- json_obj_eq; now apply json_wf).
  assert (Hju : unshadowed v = true)
    by (unfold v; rewrite <- json_obj_eq; now apply json_unshadowed).
  exists (diff_text v v). unfold diff.
  rewrite (compare_unshadowed v Hju v Hju), (show_unshadowed v Hju).
  cbn [bind].
  assert (E : diff_text v v ++ newline = show_text v " " "" "")
    by (now rewrite <- diff_compare, (compare_self v Hj)).
  split; [reflexivity|]. split; [now rewrite E|].
  split; [rewrite E; now apply show_report|].
  generalize (toJSON t). intros o.
  induction o as [|[k x] o IH]; [constructor|].
  destruct x; simpl; try exact IH; constructor; simpl;
    try discriminate; exact IH.
Qed.

(** X25: arrays are compared index by index.  When the second array is the
    first with elements appended, the diff shows the common elements
    unchanged and then the appended ones as added; when the first array is
    the second with elements appended, it shows them as removed. *)
Theorem diff_array_tail (la extra : list value) :
  Forall wf la -> (la ++ extra)%list <> [] ->
  unshadowed (VArr (la ++ extra)) = true ->
  printable (VArr (la ++ extra)) = true ->
  exists kept added removed longer shorter,
    show_elements " " "  " la = Return kept
    /\ show_elements "+" "  " extra = Return added
    /\ show_elements "-" "  " extra = Return removed
    /\ diff (VArr la) (VArr (la ++ extra)) = Return longer
    /\ longer ++ newline
       = "  [" ++ newline ++ kept ++ added ++ "  ]" ++ newline
    /\ diff (VArr (la ++ extra)) (VArr la) = Return shorter
    /\ shorter ++ newline
       = "  [" ++ newline ++ kept ++ removed ++ "  ]" ++ newline.
Proof.
  intros Hwf Hne Hun _.
  assert (Hboth : Forall (fun x => unshadowed x = true) la
                  /\ Forall (fun x => unshadowed x = true) extra).
  { apply unshadowed_arr in Hun. now apply Forall_app in Hun. }
  destruct Hboth as [Hla Hextra].
  assert (Hshow : forall action l,
            Forall (fun x => unshadowed x = true) l ->
            show_elements action "  " l
            = Return (String.concat ""
                        (map (fun x => show_text x action "" "  ") l))).
  { intros action l Hl. apply show_elements_text.
    rewrite Forall_forall in *. intros x Hx. now apply show_unshadowed, Hl. }
  assert (Hua : unshadowed (VArr la) = true) by (now apply unshadowed_arr).
  exists (String.concat "" (map (fun x => show_text x " " "" "  ") la)),
    (String.concat "" (map (fun x => show_text x "+" "" "  ") extra)),
    (String.concat "" (map (fun x => show_text x "-" "" "  ") extra)),
    (diff_text (VArr la) (VArr (la ++ extra))),
    (diff_text (VArr (la ++ extra)) (VArr la)).
  split; [now apply Hshow|]. split; [now apply Hshow|].
  split; [now apply Hshow|]. unfold diff.
  rewrite (compare_unshadowed _ Hua _ Hun), (compare_unshadowed _ Hun _ Hua).
  cbn [bind]. rewrite <- !diff_compare, !compare_arr.
  split; [reflexivity|]. split; [|split; [reflexivity|]].
  - rewrite compare_elements_appended by assumption.
    destruct la as [|x la]; [destruct extra as [|y extra]|];
      [contradiction | |]; simpl; now rewrite ?append_assoc.
  - rewrite compare_elements_truncated by assumption.
    destruct la as [|x la]; [destruct extra as [|y extra]|];
      [contradiction | |]; simpl; now rewrite ?append_assoc.
Qed.

(** X28: an object with a property named [hasOwnProperty] cannot be
    diffed: [show] and [compare] call the method on the object itself, so
    [diff] throws a TypeError whatever the other value is. *)
Theorem diff_shadowed_throws (o : obj) (b : value) :
  has_key "hasOwnProperty" o = true ->
  diff (VObj o) b = Throw (TypeError "a.hasOwnProperty is not a function").
Proof.
  intros Hown. unfold diff.
  assert (E : compare (VObj o) b "" ""
              = Throw (TypeError "a.hasOwnProperty is not a function")).
  { pose proof (compare_other_eq (VObj o) b "" "") as E.
    destruct b as [| |c|n|s|lb|fb];
      try (rewrite E; cbn [strict_eq];
           now rewrite (show_shadowed o _ _ _ Hown)).
    rewrite compare_obj_eq. destruct o as [|[k x] o]; [discriminate|].
    cbn [compare_properties].
    now rewrite (hasOwnProperty_shadowed _ _ _ Hown). }
  now rewrite E.
Qed.

(** * The static page environment *)

(** X26: a web test run against a static document.  When no translator is
    detected the translation is not consulted: the run succeeds if the
    test expects [false] and fails with "Detection failed" otherwise.
    When translators are detected, the item type of the first one is the
    detected item type, whatever the others are. *)
Theorem run_static_page (zotero : Zotero) (test : Test) (page : StaticPage)
    (eng : DirectRun) :
  _type test = TWeb ->
  processDocuments page = Return tt ->
  let env := HTTPWebTranslationEnvironment page in
  (getTranslators page = Return [] ->
   run zotero test {| webTranslationEnvironment := env; engine := eng |}
   = Return (if strict_eq (_detectedItemType test) (VBool false)
             then mkOutcome success None None
             else mkOutcome failure (Some (VStr "Detection failed")) None))
  /\ (forall first others items,
        getTranslators page = Return (first :: others) ->
        translateDocument page = Return items ->
        exists result,
          _translateWeb test env = Return result
          /\ detectedItemType result = get "itemType" first).
Proof.
  intros Hweb Hfetch env. split.
  - intros Hnone. unfold run. rewrite Hweb. simpl.
    unfold _translateWeb, get_url. rewrite Hweb. simpl.
    rewrite Hfetch. simpl. unfold HTTP_runTranslation. rewrite Hnone.
    simpl. unfold classify. simpl.
    now destruct (strict_eq (_detectedItemType test) (VBool false)).
  - intros first others items Hsome Hitems.
    unfold _translateWeb, get_url. rewrite Hweb. simpl.
    rewrite Hfetch. simpl. unfold HTTP_runTranslation.
    rewrite Hsome. simpl. rewrite Hitems. simpl.
    destruct (negb (truthy items) && false); [eauto|].
    destruct (no_length items); [eauto|].
    destruct (1 <? selectCalls page)%nat; [eauto|].
    destruct (negb (Nat.eqb (selectCalls page) 0)); eauto.
Qed.

(** ** Concrete runs of the further properties *)

(** A test that expects "multiple" whose translator calls the selection
    handler twice: the run fails and gives its reason. *)
Lemma run_outcome_shape_witness :
  let c :=
    Example.collaborators
      (Example.webRun
         (mkResult (VStr "book")
            (VArr [VObj Example.rawBook; VObj Example.rawBook]) VUndef) 2)
      Example.idleEngine in
  let outcome :=
    mkOutcome failure
      (Some (VStr "Translator called selectItems multiple times")) None in
  run Example.zotero Example.multipleTest c = Return outcome
  /\ exists v, outcome_reason outcome = Some v /\ truthy v = true.
Proof.
  simpl. split; [reflexivity|].
  apply (proj2 (proj2 (proj2
           (run_outcome_shape Example.zotero Example.multipleTest
              (Example.collaborators
                 (Example.webRun
                    (mkResult (VStr "book")
                       (VArr [VObj Example.rawBook; VObj Example.rawBook])
                       VUndef) 2)
                 Example.idleEngine)
              (mkOutcome failure
                 (Some (VStr "Translator called selectItems multiple times"))
                 None)
              eq_refl)))
           eq_refl
           (mkResult (VStr "book") VNull
              (VStr "Translator called selectItems multiple times"))
           eq_refl eq_refl).
Defined.

(** A search test that expects [false], and an engine that detects
    nothing. *)
Lemma run_detection_failed_witness :
  run Example.zotero Example.objectQueryTest
    (Example.collaborators Example.idleWeb Example.idleEngine)
  = Return (mkOutcome success None None).
Proof.
  apply (run_detection_failed Example.zotero Example.objectQueryTest
           (Example.collaborators Example.idleWeb Example.idleEngine)
           VUndef (or_intror eq_refl) eq_refl eq_refl).
Defined.

(** The book test run against a page that yields the raw book record. *)
Lemma run_success_sound_witness :
  let c :=
    Example.collaborators
      (Example.webRun
         (mkResult (VStr "book") (VArr [VObj Example.rawBook]) VUndef) 0)
      Example.idleEngine in
  run Example.zotero Example.bookTest c
  = Return (mkOutcome success None (Some Example.bookTest))
  /\ equals Example.zotero Example.bookTest Example.bookTest = Return true.
Proof.
  simpl.
  assert (Hrun :
    run Example.zotero Example.bookTest
      (Example.collaborators
         (Example.webRun
            (mkResult (VStr "book") (VArr [VObj Example.rawBook]) VUndef) 0)
         Example.idleEngine)
    = Return (mkOutcome success None (Some Example.bookTest)))
    by (vm_compute; reflexivity).
  split; [exact Hrun|].
  exact (proj1 (proj2 (run_success_sound Example.zotero Example.bookTest _
                         None Example.bookTest Hrun))).
Defined.

(** A test that expects "multiple" and a translator that returns one
    record without calling the selection handler. *)
Lemma run_arity_mismatch_witness :
  let c :=
    Example.collaborators
      (Example.webRun
         (mkResult (VStr "multiple") (VArr [VObj Example.rawBook]) VUndef) 0)
      Example.idleEngine in
  run Example.zotero Example.multipleTest c
  = Return (mkOutcome failure
              (Some (VStr "Expected multiple, got single item"))
              (Some (mkTest TWeb VUndef (VStr "https://example.org/search")
                       (VStr "multiple") (Records [VObj Example.book])))).
Proof.
  simpl.
  apply (proj1 (run_arity_mismatch Example.zotero Example.multipleTest
                  (Example.collaborators
                     (Example.webRun
                        (mkResult (VStr "multiple")
                           (VArr [VObj Example.rawBook]) VUndef) 0)
                     Example.idleEngine)
                  (mkResult (VStr "multiple") (VArr [VObj Example.rawBook])
                     VUndef)
                  Example.multipleTest Example.multipleTest
                  (mkTest TWeb VUndef (VStr "https://example.org/search")
                     (VStr "multiple") (Records [VObj Example.book]))
                  ltac:(discriminate) eq_refl eq_refl eq_refl eq_refl
                  ltac:(vm_compute; reflexivity) eq_refl)).
  - reflexivity.
  - discriminate.
Defined.

(** A test that expects "multiple" and a translator that calls the
    selection handler once. *)
Lemma run_select_once_witness :
  let c :=
    Example.collaborators
      (Example.webRun
         (mkResult (VStr "multiple") (VArr [VObj Example.rawBook]) VUndef) 1)
      Example.idleEngine in
  run Example.zotero Example.multipleTest c
  = Return (mkOutcome success None (Some Example.multipleTest)).
Proof.
  simpl.
  apply (run_select_once Example.zotero Example.multipleTest
           (Example.collaborators
              (Example.webRun
                 (mkResult (VStr "multiple") (VArr [VObj Example.rawBook])
                    VUndef) 1)
              Example.idleEngine)
           true
           (mkResult (VStr "multiple") (VArr [VObj Example.rawBook]) VUndef)).
  - apply (Test_new_checked Example.zotero example_coherent
             Example.multipleConfig).
    + apply wfb_sound. reflexivity.
    + vm_compute. reflexivity.
  - reflexivity.
  - reflexivity.
  - reflexivity.
  - reflexivity.
  - reflexivity.
  - reflexivity.
  - reflexivity.
  - reflexivity.
  - reflexivity.
Defined.

(** A page whose handle cannot be released after a successful
    translation. *)
Lemma run_web_fault_witness :
  run Example.zotero Example.bookTest
    (Example.collaborators
       {| fetchPage := Return tt;
          waitForLoad := Return true;
          runTranslation :=
            Return (mkResult (VStr "book") (VArr [VObj Example.rawBook])
                      VUndef);
          numSelectItemsCalls := 0;
          destroy := Throw (Error "page is gone") |}
       Example.idleEngine)
  = Return (mkOutcome failure (Some (VStr "Error: page is gone")) None).
Proof.
  apply (proj1 (proj2 (run_web_fault Example.zotero Example.bookTest
                         (Example.collaborators
                            {| fetchPage := Return tt;
                               waitForLoad := Return true;
                               runTranslation :=
                                 Return (mkResult (VStr "book")
                                           (VArr [VObj Example.rawBook])
                                           VUndef);
                               numSelectItemsCalls := 0;
                               destroy := Throw (Error "page is gone") |}
                            Example.idleEngine)
                         eq_refl))
           (Error "page is gone") eq_refl eq_refl).
Defined.



(** Two arrays of one string each, which differ in white space only. *)
Lemma deepEqual_arrays_witness :
  deepEqual Example.zotero (VArr [VStr "a  b"]) (VArr [VStr "a b"])
  = Return true.
Proof.
  apply (proj2 (deepEqual_arrays Example.zotero [VStr "a  b"] [VStr "a b"])).
  constructor; [reflexivity | constructor].
Defined.

(** Two objects with the same properties in a different order. *)
Lemma deepEqual_objects_witness :
  has_key "date" [("title", VStr "Title"); ("date", VStr "2024")]
  = has_key "date" [("date", VStr "2024"); ("title", VStr "Title")]
  /\ deepEqual Example.zotero (VStr "Title")
       (get "title" [("date", VStr "2024"); ("title", VStr "Title")])
     = Return true.
Proof.
  destruct (deepEqual_objects Example.zotero
              [("title", VStr "Title"); ("date", VStr "2024")]
              [("date", VStr "2024"); ("title", VStr "Title")] eq_refl)
    as [Hkeys Hvalues].
  split; [apply Hkeys|]. apply Hvalues. now left.
Defined.

(** A record compared with a number, and a query with a property named
    [hasOwnProperty] compared with an empty object. *)
Lemma deepEqual_throws_witness :
  (exists r,
     deepEqual Example.zotero (VObj Example.rawBook) (VNum 5) = Return r)
  /\ deepEqual Example.zotero (VObj [("hasOwnProperty", VNum 1)]) (VObj [])
     = Throw (TypeError "a.hasOwnProperty is not a function").
Proof.
  split.
  - apply (proj1 (deepEqual_throws Example.zotero)).
    + reflexivity.
    + reflexivity.
    + discriminate.
    + reflexivity.
  - apply (proj2 (proj2 (proj2 (deepEqual_throws Example.zotero)))).
    + reflexivity.
    + discriminate.
    + reflexivity.
Defined.

(** The raw book record has an [accessDate]; its normal form has none. *)
Lemma sanitizeItem_drops_accessDate_witness :
  has_key "accessDate" Example.rawBook = true
  /\ has_key "accessDate" Example.book = false
  /\ get "accessDate" Example.book = VUndef.
Proof.
  split; [reflexivity|].
  apply (sanitizeItem_drops_accessDate Example.zotero Example.rawBook
           Example.book).
  vm_compute. reflexivity.
Defined.

(** The snapshot of the raw book record. *)
Lemma sanitizeAttachment_result_witness :
  exists o',
    sanitizeAttachment
      (VObj [("title", VStr "Snapshot"); ("document", VObj []);
             ("url", VStr "https://example.org/")])
    = Return (VObj o')
    /\ get "mimeType" o' = VStr "text/html".
Proof.
  destruct (sanitizeAttachment_result
              [("title", VStr "Snapshot"); ("document", VObj []);
               ("url", VStr "https://example.org/")])
    as [o' [Hrun [_ [_ [_ [Hmime _]]]]]].
  exists o'. split; [exact Hrun|]. apply Hmime. reflexivity.
Defined.


(** The normal form of the raw book record. *)
Lemma sanitizeItem_json_clean_witness :
  json_obj Example.book = Example.book /\ wf (VObj Example.book).
Proof.
  destruct (sanitizeItem_json_clean Example.zotero example_coherent
              Example.rawBook Example.book
              ltac:(vm_compute; reflexivity)) as [Hjson Hwf].
  split; [exact Hjson|]. apply Hwf. apply wfb_sound. reflexivity.
Defined.

(** The title of the book. *)
Lemma sanitizeItem_fields_valid_witness :
  settledField Example.zotero
    (ItemTypes_getID Example.zotero (get "itemType" Example.book))
    Example.book "title".
Proof.
  apply (sanitizeItem_fields_valid Example.zotero example_coherent
           Example.rawBook Example.book "title").
  - vm_compute. reflexivity.
  - reflexivity.
Defined.

(** Two tags that arrive in the wrong order. *)
Lemma sortTags_ordered_permutation_witness :
  Permutation (sortTags [[("tag", VStr "b")]; [("tag", VStr "a")]])
    [[("tag", VStr "b")]; [("tag", VStr "a")]]
  /\ ordered (sortTags [[("tag", VStr "b")]; [("tag", VStr "a")]]).
Proof.
  apply sortTags_ordered_permutation.
  constructor; [now exists "b"|]. constructor; [now exists "a"|].
  constructor.
Defined.

(** Two tags in either order. *)
Lemma sortTags_order_independent_witness :
  sortTags [[("tag", VStr "b")]; [("tag", VStr "a")]]
  = sortTags [[("tag", VStr "a")]; [("tag", VStr "b")]].
Proof.
  apply sortTags_order_independent.
  - constructor; [now exists "b"|]. constructor; [now exists "a"|].
    constructor.
  - intros a b [<-|[<-|[]]] [<-|[<-|[]]]; simpl; intros H;
      try reflexivity; discriminate.
  - apply perm_swap.
Defined.

(** The raw book record against its normal form. *)
Lemma diff_report_witness :
  exists text,
    diff (VObj Example.rawBook) (VObj Example.book) = Return text
    /\ compare (VObj Example.rawBook) (VObj Example.book) "" ""
       = Return (text ++ newline)
    /\ report diffMarker "" (text ++ newline).
Proof.
  apply (diff_report (VObj Example.rawBook) (VObj Example.book));
    reflexivity.
Defined.

(** The normal form of the book, compared with itself. *)
Lemma diff_self_witness :
  exists text,
    diff (VObj Example.book) (VObj Example.book) = Return text
    /\ show (VObj Example.book) " " "" "" = Return (text ++ newline)
    /\ report (eq " ") "" (text ++ newline).
Proof.
  apply (diff_self (VObj Example.book)).
  - apply wfb_sound. reflexivity.
  - reflexivity.
  - reflexivity.
Defined.


(** The book test against itself. *)
Lemma diffWith_self_witness :
  exists text,
    diffWith Example.bookTest Example.bookTest = Return text
    /\ report (eq " ") "" (text ++ newline).
Proof.
  destruct (diffWith_self Example.bookTest
              ltac:(apply wfb_sound; reflexivity) eq_refl eq_refl)
    as [text [Hdiff [_ [Hreport _]]]].
  exists text. now split.
Defined.

(** A query with a property named [hasOwnProperty]. *)
Lemma diff_shadowed_throws_witness :
  diff (VObj [("hasOwnProperty", VNum 1)]) (VObj [("hasOwnProperty", VNum 1)])
  = Throw (TypeError "a.hasOwnProperty is not a function").
Proof.
  apply (diff_shadowed_throws [("hasOwnProperty", VNum 1)]). reflexivity.
Defined.

(** A static document on which no translator is detected, for a test that
    expects [false]. *)
Lemma run_static_page_witness :
  run Example.zotero Example.emptyWebTest
    (Example.collaborators
       (HTTPWebTranslationEnvironment
          {| processDocuments := Return tt;
             getTranslators := Return [];
             translateDocument := Throw (Error "not consulted");
             selectCalls := 0 |})
       Example.idleEngine)
  = Return (mkOutcome success None None).
Proof.
  apply (proj1 (run_static_page Example.zotero Example.emptyWebTest
                  {| processDocuments := Return tt;
                     getTranslators := Return [];
                     translateDocument := Throw (Error "not consulted");
                     selectCalls := 0 |}
                  Example.idleEngine eq_refl eq_refl)).
  reflexivity.
Defined.

(** An array and the same array with one more element. *)
Lemma diff_array_tail_witness :
  exists longer,
    diff (VArr [VNum 1]) (VArr [VNum 1; VNum 2]) = Return longer
    /\ longer ++ newline
       = "  [" ++ newline ++ "    1" ++ newline ++ "+   2" ++ newline
         ++ "  ]" ++ newline.
Proof.
  destruct (diff_array_tail [VNum 1] [VNum 2]
              ltac:(repeat constructor) ltac:(discriminate)
              eq_refl eq_refl)
    as [kept [added [removed [longer [shorter
         [Hkept [Hadded [_ [Hdiff [Htext _]]]]]]]]]].
  exists longer. split; [exact Hdiff|].
  injection Hkept as <-. injection Hadded as <-. exact Htext.
Defined.
